(** * MotorNet muscle models: a shallow embedding of [MotorNet/plants/muscles.py]

    The four muscle classes ([ReluMuscle], [RigidTendonHillMuscle],
    [RigidTendonHillMuscleThelen], [CompliantTendonHillMuscle]) are numeric
    kernels over tensors of shape (batch, channel, muscle).  Every operation
    on these tensors is elementwise in the batch and muscle dimensions, so a
    kernel is embedded as a function on the channels of one (batch element,
    muscle) pair: a state is the list of its channels, [slice_states] reads
    one channel and [concat] along axis 1 builds the list.

    Numbers are real numbers: the [float32] values of the source are
    idealised, so rounding, overflow and NaN are outside this model (a
    division by zero is Rocq's [x / 0 = 0] where the source would give an
    infinity or a NaN).

    [tf.debugging.assert_non_negative] raises; a kernel that contains one
    returns an [option], [None] standing for the raised error. *)

From Stdlib Require Import Reals Lra Lia Psatz List Bool ZArith.
Import ListNotations.

Open Scope R_scope.

(** ** TensorFlow primitives, on one element *)

Module TF.

Definition ltb (a b : R) : bool := if Rlt_dec a b then true else false.
Definition leb (a b : R) : bool := if Rle_dec a b then true else false.
Definition gtb (a b : R) : bool := ltb b a.
Definition geb (a b : R) : bool := leb b a.

(** [tf.where(condition, x, y)] on one element. *)
Definition where_ {A : Type} (c : bool) (x y : A) : A := if c then x else y.

Definition maximum (a b : R) : R := Rmax a b.
Definition minimum (a b : R) : R := Rmin a b.

(** [tf.clip_by_value(t, clip_value_min, clip_value_max)] computes
    [maximum(minimum(t, clip_value_max), clip_value_min)]; its documentation
    asks for [clip_value_min <= clip_value_max]. *)
Definition clip_by_value (t lo hi : R) : R := maximum (minimum t hi) lo.

Definition relu (x : R) : R := maximum x 0.

(** [tf.debugging.assert_non_negative(x)] on one element of [x]. *)
Definition assert_non_negative (x : R) : option unit :=
  if Rle_dec 0 x then Some tt else None.

(** The same assertion on a whole tensor: it raises as soon as one element
    is negative. *)
Fixpoint assert_non_negative_all (xs : list R) : option unit :=
  match xs with
  | [] => Some tt
  | x :: xs' =>
      match assert_non_negative x with
      | Some _ => assert_non_negative_all xs'
      | None => None
      end
  end.

(** [slice_states((x, i, 1))]: channel [i] of a state.  The source raises on
    a channel that is not there; every call site reads a channel that the
    state it is given has. *)
Definition slice_states (x : list R) (i : nat) : R := nth i x 0.

End TF.

(** ** Parameters of one muscle

    [__init__] keyword arguments and the arguments of [build], for one
    muscle of the model. *)

Record MuscleParams : Type := mkMuscleParams {
  min_activation : R;
  tau_activation : R;
  tau_deactivation : R;
  timestep : R;
  max_isometric_force : R;
  tendon_length : R;
  optimal_muscle_length : R;
  normalized_slack_muscle_length : R
}.

(** ** [Muscle]: the base class *)

Module Muscle.

(** [Muscle._activation_ode]. *)
Definition _activation_ode (p : MuscleParams) (excitation activation : R) : R :=
  let excitation := TF.clip_by_value excitation (min_activation p) 1 in
  let activation := TF.clip_by_value activation (min_activation p) 1 in
  let tau_scaler := 0.5 + 1.5 * activation in
  let tau := TF.where_ (TF.gtb excitation activation)
               (tau_activation p * tau_scaler)
               (tau_deactivation p / tau_scaler) in
  (excitation - activation) / tau.

(** [Muscle.update_ode]: the activation is channel 0 of the state. *)
Definition update_ode (p : MuscleParams) (excitation : R) (muscle_state : list R) : R :=
  _activation_ode p excitation (TF.slice_states muscle_state 0).

End Muscle.

(** ** [ReluMuscle] *)

Module ReluMuscle.

Definition max_iso_force (p : MuscleParams) : R := max_isometric_force p.

(** [ReluMuscle._integrate]; the state is
    [excitation; muscle lenth; muscle velocity; force]. *)
Definition _integrate (p : MuscleParams) (dt state_derivative : R)
    (muscle_state geometry_state : list R) : list R :=
  let activation := TF.slice_states muscle_state 0 + state_derivative * dt in
  let activation := TF.clip_by_value activation (min_activation p) 1 in
  let forces := TF.relu activation * max_iso_force p in
  let muscle_len := TF.slice_states geometry_state 0 in
  let muscle_vel := TF.slice_states geometry_state 1 in
  [activation; muscle_len; muscle_vel; forces].

(** [ReluMuscle._get_initial_muscle_state]. *)
Definition _get_initial_muscle_state (p : MuscleParams) (batch_size : nat)
    (geometry_state : list R) : list R :=
  let excitation0 := 1 * min_activation p in
  let force0 := 0 in
  [excitation0; TF.slice_states geometry_state 0; TF.slice_states geometry_state 1; force0].

End ReluMuscle.

(** ** Attributes shared by the Hill-type muscles

    What [build] derives from the arguments, for one muscle, and the
    constants set in [__init__]. *)

Module Hill.

Definition l0_ce (p : MuscleParams) : R := optimal_muscle_length p.
Definition l0_pe (p : MuscleParams) : R := l0_ce p * normalized_slack_muscle_length p.
Definition l0_se (p : MuscleParams) : R := tendon_length p.
Definition k_pe (p : MuscleParams) : R := 1 / ((1.66 - l0_pe p / l0_ce p) ^ 2).
Definition max_iso_force (p : MuscleParams) : R := max_isometric_force p.
Definition musculotendon_slack_len (p : MuscleParams) : R := l0_pe p + l0_se p.
Definition vmax (p : MuscleParams) : R := 10 * l0_ce p.

Definition s_as : R := 0.001.
Definition f_iso_n_den : R := 0.66 ^ 2.
Definition b_rel_st_den : R := 0.005 - 0.3.
Definition k_se : R := 1 / (0.04 ^ 2).
Definition q_crit : R := 0.3.
Definition min_flce : R := 0.01.

End Hill.

(** ** [RigidTendonHillMuscle] (Kistemaker et al 2006) *)

Module RigidTendonHillMuscle.
Import Hill.

(** [RigidTendonHillMuscle._integrate]; the state is
    [activation; muscle length; muscle velocity; force-length PE;
     force-length CE; force-velocity CE; force]. *)
Definition _integrate (p : MuscleParams) (dt state_derivative : R)
    (muscle_state geometry_state : list R) : list R :=
  let activation := TF.slice_states muscle_state 0 + state_derivative * dt in
  let activation := TF.clip_by_value activation (min_activation p) 1 in
  (* musculotendon geometry *)
  let musculotendon_len := TF.slice_states geometry_state 0 in
  let muscle_vel := TF.slice_states geometry_state 1 in
  let muscle_len := TF.maximum (musculotendon_len - l0_se p) 0 in
  let muscle_strain := TF.maximum ((muscle_len - l0_pe p) / l0_ce p) 0 in
  let muscle_len_n := muscle_len / l0_ce p in
  let muscle_vel_n := muscle_vel / vmax p in
  (* muscle forces *)
  let flpe := TF.minimum (k_pe p * (muscle_strain ^ 2)) 3 in
  let flce := TF.maximum (1 + (- muscle_len_n ^ 2 + 2 * muscle_len_n - 1) / f_iso_n_den)
                min_flce in
  let a_rel_st := TF.where_ (TF.gtb muscle_len_n 1) (0.41 * flce) 0.41 in
  let b_rel_st := TF.where_ (TF.ltb activation q_crit)
                    (5.2 * (1 - 0.9 * ((activation - q_crit) / (0.005 - q_crit))) ^ 2)
                    5.2 in
  let dvdf_isom_con := b_rel_st / (activation * (flce + a_rel_st)) in
  let dfdvcon0 := 1 / dvdf_isom_con in
  let p1 := - (flce * activation * 0.5) / (s_as - dfdvcon0 * 2) in
  let p2 := ((flce * activation * 0.5) ^ 2) / (s_as - dfdvcon0 * 2) in
  let p3 := - 1.5 * flce * activation in
  let p4 := - s_as in
  let nom := TF.where_ (TF.ltb muscle_vel_n 0)
               (muscle_vel_n * activation * a_rel_st + flce * activation * b_rel_st)
               (- p1 * p3 - p1 * p4 * muscle_vel_n + p2 - p3 * muscle_vel_n
                - p4 * muscle_vel_n ^ 2) in
  let den := TF.where_ (TF.ltb muscle_vel_n 0) (b_rel_st - muscle_vel_n) (p1 + muscle_vel_n) in
  let active_force := TF.maximum (nom / den) 0 in
  let force := (active_force + flpe) * max_iso_force p in
  [activation; muscle_len; muscle_vel; flpe; flce; active_force; force].

Definition integrate := _integrate.

(** [RigidTendonHillMuscle._get_initial_muscle_state]: the state handed to
    [integrate] has the single channel [min_activation]. *)
Definition _get_initial_muscle_state (p : MuscleParams) (batch_size : nat)
    (geometry_state : list R) : list R :=
  let musculotendon_len := TF.slice_states geometry_state 0 in
  let muscle_state := [1 * min_activation p] in
  integrate p (timestep p) 0 muscle_state geometry_state.

End RigidTendonHillMuscle.

(** ** [RigidTendonHillMuscleThelen] (Thelen et al 2003) *)

Module RigidTendonHillMuscleThelen.

Definition pe_k : R := 5.
Definition pe_1 : R := pe_k / 0.66.
Definition pe_den : R := exp pe_k - 1.
Definition ce_gamma : R := 0.45.
Definition ce_Af : R := 0.25.
Definition ce_fmlen : R := 1.4.

Definition max_iso_force (p : MuscleParams) : R := max_isometric_force p.
Definition l0_ce (p : MuscleParams) : R := optimal_muscle_length p.
Definition l0_pe (p : MuscleParams) : R := l0_ce p * normalized_slack_muscle_length p.
Definition l0_se (p : MuscleParams) : R := tendon_length p.
Definition musculotendon_slack_len (p : MuscleParams) : R := l0_pe p + l0_se p.
Definition vmax (p : MuscleParams) : R := 10 * l0_ce p.

(* pre-computed for speed *)
Definition ce_0 (p : MuscleParams) : R := 3 * vmax p.
Definition ce_1 (p : MuscleParams) : R := ce_Af * vmax p.
Definition ce_2 (p : MuscleParams) : R :=
  3 * ce_Af * vmax p * ce_fmlen - 3 * ce_Af * vmax p.
Definition ce_3 : R := 8 * ce_Af * ce_fmlen + 8 * ce_fmlen.
Definition ce_4 (p : MuscleParams) : R := ce_Af * ce_fmlen * vmax p - ce_1 p.
Definition ce_5 : R := 8 * (ce_Af + 1).

(** [RigidTendonHillMuscleThelen._integrate]; same channels as the
    Kistemaker muscle. *)
Definition _integrate (p : MuscleParams) (dt state_derivative : R)
    (muscle_state geometry_state : list R) : list R :=
  let activation := TF.slice_states muscle_state 0 + state_derivative * dt in
  let activation := TF.clip_by_value activation (min_activation p) 1 in
  (* musculotendon geometry *)
  let musculotendon_len := TF.slice_states geometry_state 0 in
  let muscle_len := TF.maximum (musculotendon_len - l0_se p) 0.001 in
  let muscle_vel := TF.slice_states geometry_state 1 in
  (* muscle forces *)
  let activation3 := activation * 3 in
  let nom := TF.where_ (TF.leb muscle_vel 0)
               (ce_Af * (activation * ce_0 p + 4 * muscle_vel + vmax p))
               (ce_2 p * activation + ce_3 * muscle_vel + ce_4 p) in
  let den := TF.where_ (TF.leb muscle_vel 0)
               (activation3 * ce_1 p + ce_1 p - 4 * muscle_vel)
               (ce_4 p * activation3 + ce_5 * muscle_vel + ce_4 p) in
  let fvce := TF.maximum (nom / den) 0 in
  let flpe := TF.maximum ((exp (pe_1 * (muscle_len - l0_pe p) / l0_ce p) - 1) / pe_den) 0 in
  let flce := exp ((- ((muscle_len / l0_ce p) - 1) ^ 2) / ce_gamma) in
  let force := (activation * flce * fvce + flpe) * max_iso_force p in
  [activation; muscle_len; muscle_vel; flpe; flce; fvce; force].

Definition integrate := _integrate.

(** [RigidTendonHillMuscleThelen._get_initial_muscle_state]. *)
Definition _get_initial_muscle_state (p : MuscleParams) (batch_size : nat)
    (geometry_state : list R) : list R :=
  let musculotendon_len := TF.slice_states geometry_state 0 in
  let muscle_state := [1 * min_activation p] in
  integrate p (timestep p) 0 muscle_state geometry_state.

End RigidTendonHillMuscleThelen.

(** ** [CompliantTendonHillMuscle] *)

Module CompliantTendonHillMuscle.
Import Hill.

(** [CompliantTendonHillMuscle._integrate]; [state_derivatives] has the two
    channels that [update_ode] concatenates, and the state is
    [activation; muscle length; muscle velocity; force-length PE;
     force-length SE; active force; force]. *)
Definition _integrate (p : MuscleParams) (dt : R)
    (state_derivatives muscle_state geometry_state : list R) : list R :=
  (* Compute musculotendon geometry *)
  let muscle_len := TF.slice_states muscle_state 1 in
  let muscle_len_n := muscle_len / l0_ce p in
  let musculotendon_len := TF.slice_states geometry_state 0 in
  let tendon_len := musculotendon_len - muscle_len in
  let tendon_strain := TF.maximum ((tendon_len - l0_se p) / l0_se p) 0 in
  let muscle_strain := TF.maximum ((muscle_len - l0_pe p) / l0_ce p) 0 in
  (* Compute forces *)
  let flse := TF.minimum (k_se * (tendon_strain ^ 2)) 3 in
  let flpe := TF.minimum (k_pe p * (muscle_strain ^ 2)) 3 in
  let active_force := TF.maximum (flse - flpe) 0 in
  (* Integrate *)
  let d_activation := TF.slice_states state_derivatives 0 in
  let muscle_vel_n := TF.slice_states state_derivatives 1 in
  let activation := TF.slice_states muscle_state 0 + d_activation * dt in
  let activation := TF.clip_by_value activation (min_activation p) 1 in
  let new_muscle_len := (muscle_len_n + dt * muscle_vel_n) * l0_ce p in
  let muscle_vel := muscle_vel_n * vmax p in
  let force := flse * max_iso_force p in
  [activation; new_muscle_len; muscle_vel; flpe; flse; active_force; force].

(** The radicand of [_muscle_ode] before it is clamped, and the quantities
    it is built from, named as in the source. *)
Definition f_iso_n (norm_muscle_len : R) : R :=
  TF.maximum (1 + (- norm_muscle_len ^ 2 + 2 * norm_muscle_len - 1) / f_iso_n_den) 0.01.

Definition a_rel_st (norm_muscle_len : R) : R :=
  TF.where_ (TF.gtb norm_muscle_len 1) (0.41 * f_iso_n norm_muscle_len) 0.41.

Definition b_rel_st (activation : R) : R :=
  TF.where_ (TF.ltb activation 0.3)
    (5.2 * (1 - 0.9 * ((activation - 0.3) / b_rel_st_den)) ^ 2) 5.2.

Definition dfdvcon0 (norm_muscle_len activation : R) : R :=
  let dvdf_isom_con :=
    b_rel_st activation / (activation * (f_iso_n norm_muscle_len + a_rel_st norm_muscle_len)) in
  1 / dvdf_isom_con.

Definition f_x_a (norm_muscle_len activation : R) : R :=
  f_iso_n norm_muscle_len * activation.

Definition p1 (norm_muscle_len activation : R) : R :=
  - (f_x_a norm_muscle_len activation * 0.5)
    / (s_as - dfdvcon0 norm_muscle_len activation * 2).

Definition p3 (norm_muscle_len activation : R) : R :=
  - 1.5 * f_x_a norm_muscle_len activation.

Definition p4 : R := - s_as.

Definition p2_containing_term (norm_muscle_len activation : R) : R :=
  (4 * ((f_x_a norm_muscle_len activation * 0.5) ^ 2) * p4)
    / (s_as - dfdvcon0 norm_muscle_len activation * 2).

Definition sqrt_term (norm_muscle_len activation active_force : R) : R :=
  let p1 := p1 norm_muscle_len activation in
  let p3 := p3 norm_muscle_len activation in
  active_force ^ 2 - 2 * active_force * p1 * p4 + 2 * active_force * p3
  + p1 ^ 2 * p4 ^ 2 - 2 * p1 * p3 * p4
  + p2_containing_term norm_muscle_len activation + p3 ^ 2.

(** [CompliantTendonHillMuscle._muscle_ode]: [None] is the error raised by
    [tf.debugging.assert_non_negative(cond, ...)]. *)
Definition _muscle_ode (norm_muscle_len activation active_force : R) : option R :=
  let f_x_a := f_x_a norm_muscle_len activation in
  let p1 := p1 norm_muscle_len activation in
  let p3 := p3 norm_muscle_len activation in
  let sqrt_term := sqrt_term norm_muscle_len activation active_force in
  let cond := TF.where_ (TF.ltb sqrt_term 0 && TF.geb active_force f_x_a) (-1) 1 in
  match TF.assert_non_negative cond with
  | None => None
  | Some _ =>
      let sqrt_term := TF.maximum sqrt_term 0 in
      let new_muscle_vel_nom :=
        TF.where_ (TF.ltb active_force f_x_a)
          (b_rel_st activation * (active_force - f_x_a))
          (- active_force + p1 * s_as - p3 - sqrt sqrt_term) in
      let new_muscle_vel_den :=
        TF.where_ (TF.ltb active_force f_x_a)
          (active_force + activation * a_rel_st norm_muscle_len)
          (-2 * s_as) in
      Some (new_muscle_vel_nom / new_muscle_vel_den)
  end.

Definition muscle_ode := _muscle_ode.

(** The fiber length chosen by [_get_initial_muscle_state]: the value of
    each branch of the nested [tf.where] of the source, then the nesting. *)
Definition floor_muscle_len (p : MuscleParams) : R := 0.001 * l0_ce p.

Definition slack_muscle_len (p : MuscleParams) (musculotendon_len : R) : R :=
  musculotendon_len - l0_se p.

Definition equilibrium_muscle_len (p : MuscleParams) (musculotendon_len : R) : R :=
  let kpe := k_pe p in
  let lce := l0_ce p in
  let lmt := musculotendon_len in
  (kpe * l0_pe p * l0_se p ^ 2 - k_se * lce ^ 2 * lmt + k_se * lce ^ 2 * l0_se p
   - lce * l0_se p * sqrt (kpe * k_se) * (- lmt + l0_pe p + l0_se p))
  / (kpe * l0_se p ^ 2 - k_se * lce ^ 2).

Definition initial_muscle_len (p : MuscleParams) (musculotendon_len : R) : R :=
  TF.where_ (TF.ltb musculotendon_len 0)
    (-1)
    (TF.where_ (TF.ltb musculotendon_len (l0_se p))
       (floor_muscle_len p)
       (TF.where_ (TF.ltb musculotendon_len (l0_se p + l0_pe p))
          (slack_muscle_len p musculotendon_len)
          (equilibrium_muscle_len p musculotendon_len))).

(** The strains and the forces [_get_initial_muscle_state] computes from the
    fiber length: [flpe; flse; active_force; force]. *)
Definition initial_forces (p : MuscleParams) (musculotendon_len muscle_len : R) : list R :=
  let tendon_len := musculotendon_len - muscle_len in
  let tendon_strain := TF.maximum ((tendon_len - l0_se p) / l0_se p) 0 in
  let muscle_strain := TF.maximum ((muscle_len - l0_pe p) / l0_ce p) 0 in
  (* Compute forces *)
  let flse := TF.minimum (k_se * (tendon_strain ^ 2)) 3 in
  let flpe := TF.minimum (k_pe p * (muscle_strain ^ 2)) 3 in
  let active_force := TF.maximum (flse - flpe) 0 in
  let force := flse * max_iso_force p in
  [flpe; flse; active_force; force].

(** [CompliantTendonHillMuscle._get_initial_muscle_state]: [None] is the
    error raised by either assertion. *)
Definition _get_initial_muscle_state (p : MuscleParams) (batch_size : nat)
    (geometry_state : list R) : option (list R) :=
  let musculotendon_len := TF.slice_states geometry_state 0 in
  let activation := 1 * min_activation p in
  let muscle_len := initial_muscle_len p musculotendon_len in
  match TF.assert_non_negative muscle_len with
  | None => None
  | Some _ =>
      let forces := initial_forces p musculotendon_len muscle_len in
      let active_force := TF.slice_states forces 2 in
      match muscle_ode (muscle_len / l0_ce p) activation active_force with
      | None => None
      | Some v =>
          let muscle_vel := v * vmax p in
          Some ([activation; muscle_len; muscle_vel] ++ forces)
      end
  end.

(** [CompliantTendonHillMuscle.update_ode]. *)
Definition update_ode (p : MuscleParams) (excitation : R) (muscle_state : list R)
    : option (list R) :=
  let activation := TF.slice_states muscle_state 0 in
  let d_activation := Muscle._activation_ode p excitation activation in
  let muscle_len_n := TF.slice_states muscle_state 1 / l0_ce p in
  let active_force := TF.slice_states muscle_state 5 in
  match muscle_ode muscle_len_n activation active_force with
  | None => None
  | Some new_muscle_vel_n => Some [d_activation; new_muscle_vel_n]
  end.

End CompliantTendonHillMuscle.

(** ** [build] on the parameter arrays

    [build] is the one place where the arrays of per-muscle parameters are
    handled as arrays: it reads the number of muscles off one of them and
    reshapes or broadcasts the others.  An argument is a flat sequence of
    numbers (a Python scalar being the sequence of its one value); [None] is
    an argument that was not passed, which [kwargs.get] turns into Python's
    [None].  The result is [None] when a call inside [build] raises. *)

Module Build.

Definition Arg : Type := option (list R).

(** [np.array(x).size]; [np.array(None)] is a 0-d array, of size 1. *)
Definition np_size (x : Arg) : nat :=
  match x with
  | None => 1%nat
  | Some l => length l
  end.

(** [tf.reshape(tf.cast(x, dtype=tf.float32), (1, 1, n))]: [tf.cast] raises
    on [None], [tf.reshape] raises unless [x] has [n] elements. *)
Definition cast_reshape (x : Arg) (n : nat) : option (list R) :=
  match x with
  | None => None
  | Some l => if Nat.eqb (length l) n then Some l else None
  end.

Fixpoint map2 (f : R -> R -> R) (xs ys : list R) : list R :=
  match xs, ys with
  | x :: xs', y :: ys' => f x y :: map2 f xs' ys'
  | _, _ => []
  end.

(** An elementwise binary operation on the last axis, with NumPy
    broadcasting: equal sizes, or one operand of size 1. *)
Definition broadcast (f : R -> R -> R) (a b : list R) : option (list R) :=
  if Nat.eqb (length a) (length b) then Some (map2 f a b)
  else match a, b with
       | [x], _ => Some (map (f x) b)
       | _, [y] => Some (map (fun x => f x y) a)
       | _, _ => None
       end.

(** The same, the right operand being an argument of [build]: an operation
    between a tensor and [None] raises. *)
Definition broadcast_arg (f : R -> R -> R) (a : list R) (b : Arg) : option (list R) :=
  match b with
  | None => None
  | Some l => broadcast f a l
  end.

Definition bind {A B : Type} (m : option A) (k : A -> option B) : option B :=
  match m with
  | None => None
  | Some a => k a
  end.

Notation "x <- m ;; k" := (bind m (fun x => k))
  (at level 61, m at next level, right associativity).

(** The attributes a [build] sets; [None] is an attribute left at the [None]
    it was pre-defined with. *)
Record Attrs : Type := mkAttrs {
  dt : R;
  n_muscles : nat;
  max_iso_force : list R;
  vmax : list R;
  l0_se : list R;
  l0_ce : list R;
  l0_pe : list R;
  k_pe : option (list R);
  musculotendon_slack_len : option (list R);
  ce_0 : option (list R);
  ce_1 : option (list R);
  ce_2 : option (list R);
  ce_3 : option R;
  ce_4 : option (list R);
  ce_5 : option R
}.

Definition ones (n : nat) : list R := repeat 1 n.

(** [Muscle.build], which [ReluMuscle] inherits. *)
Definition Muscle_build (timestep : R) (max_isometric_force : Arg) : option Attrs :=
  let n := np_size max_isometric_force in
  max_iso_force <- cast_reshape max_isometric_force n ;;
  Some (mkAttrs timestep n max_iso_force (ones n) (ones n) (ones n) (ones n)
          None None None None None None None None).

(** [RigidTendonHillMuscle.build]. *)
Definition RigidTendonHillMuscle_build (timestep : R) (max_isometric_force : Arg)
    (tendon_length optimal_muscle_length normalized_slack_muscle_length : Arg)
    : option Attrs :=
  let n := np_size tendon_length in
  l0_ce <- cast_reshape optimal_muscle_length n ;;
  l0_pe <- broadcast_arg Rmult l0_ce normalized_slack_muscle_length ;;
  ratio <- broadcast Rdiv l0_pe l0_ce ;;
  let k_pe := map (fun r => 1 / ((1.66 - r) ^ 2)) ratio in
  max_iso_force <- cast_reshape max_isometric_force n ;;
  l0_se <- cast_reshape tendon_length n ;;
  musculotendon_slack_len <- broadcast Rplus l0_pe l0_se ;;
  let vmax := map (fun l => 10 * l) l0_ce in
  Some (mkAttrs timestep n max_iso_force vmax l0_se l0_ce l0_pe
          (Some k_pe) (Some musculotendon_slack_len) None None None None None None).

(** [RigidTendonHillMuscleThelen.build]. *)
Definition RigidTendonHillMuscleThelen_build (timestep : R) (max_isometric_force : Arg)
    (tendon_length optimal_muscle_length normalized_slack_muscle_length : Arg)
    : option Attrs :=
  let ce_Af := RigidTendonHillMuscleThelen.ce_Af in
  let ce_fmlen := RigidTendonHillMuscleThelen.ce_fmlen in
  let n := np_size tendon_length in
  max_iso_force <- cast_reshape max_isometric_force n ;;
  l0_ce <- cast_reshape optimal_muscle_length n ;;
  l0_pe <- broadcast_arg Rmult l0_ce normalized_slack_muscle_length ;;
  l0_se <- cast_reshape tendon_length n ;;
  musculotendon_slack_len <- broadcast Rplus l0_pe l0_se ;;
  let vmax := map (fun l => 10 * l) l0_ce in
  (* pre-computed for speed *)
  let ce_0 := map (fun v => 3 * v) vmax in
  let ce_1 := map (fun v => ce_Af * v) vmax in
  let ce_2 := map (fun v => 3 * ce_Af * v * ce_fmlen - 3 * ce_Af * v) vmax in
  let ce_3 := 8 * ce_Af * ce_fmlen + 8 * ce_fmlen in
  let ce_4 := map (fun v => ce_Af * ce_fmlen * v - ce_Af * v) vmax in
  let ce_5 := 8 * (ce_Af + 1) in
  Some (mkAttrs timestep n max_iso_force vmax l0_se l0_ce l0_pe
          None (Some musculotendon_slack_len)
          (Some ce_0) (Some ce_1) (Some ce_2) (Some ce_3) (Some ce_4) (Some ce_5)).

(** [CompliantTendonHillMuscle.build]. *)
Definition CompliantTendonHillMuscle_build (timestep : R) (max_isometric_force : Arg)
    (tendon_length optimal_muscle_length normalized_slack_muscle_length : Arg)
    : option Attrs :=
  let n := np_size tendon_length in
  l0_ce <- cast_reshape optimal_muscle_length n ;;
  l0_pe <- broadcast_arg Rmult l0_ce normalized_slack_muscle_length ;;
  l0_se <- cast_reshape tendon_length n ;;
  musculotendon_slack_len <- broadcast Rplus l0_pe l0_se ;;
  ratio <- broadcast Rdiv l0_pe l0_ce ;;
  let k_pe := map (fun r => 1 / ((1.66 - r) ^ 2)) ratio in
  max_iso_force <- cast_reshape max_isometric_force n ;;
  let vmax := map (fun l => 10 * l) l0_ce in
  Some (mkAttrs timestep n max_iso_force vmax l0_se l0_ce l0_pe
          (Some k_pe) (Some musculotendon_slack_len) None None None None None None).

(** What the four [build] accept, read off the reshapes and broadcasts
    above. *)
Definition present (x : Arg) : Prop := x <> None.

Definition broadcastable (n m : nat) : Prop := n = m \/ n = 1%nat \/ m = 1%nat.

Definition hill_args_accepted
    (max_isometric_force tendon_length optimal_muscle_length
       normalized_slack_muscle_length : Arg) : Prop :=
  present max_isometric_force /\ present tendon_length
  /\ present optimal_muscle_length /\ present normalized_slack_muscle_length
  /\ np_size max_isometric_force = np_size tendon_length
  /\ np_size optimal_muscle_length = np_size tendon_length
  /\ broadcastable (np_size tendon_length) (np_size normalized_slack_muscle_length).

(** The reading of the specification: every per-muscle array, the normalized
    slack length included, has as many elements as there are muscles. *)
Definition sizes_agree
    (max_isometric_force tendon_length optimal_muscle_length
       normalized_slack_muscle_length : Arg) : Prop :=
  np_size max_isometric_force = np_size tendon_length
  /\ np_size optimal_muscle_length = np_size tendon_length
  /\ np_size normalized_slack_muscle_length = np_size tendon_length.

End Build.

(** ** A kernel with an assertion, on a whole tensor

    The assertion looks at every element of the tensor, so the call raises
    as soon as one element does. *)

Fixpoint on_tensor {A B : Type} (f : A -> option B) (xs : list A) : option (list B) :=
  match xs with
  | [] => Some []
  | x :: xs' =>
      match f x, on_tensor f xs' with
      | Some y, Some ys => Some (y :: ys)
      | _, _ => None
      end
  end.

(** [CompliantTendonHillMuscle._muscle_ode] on whole tensors, given as the
    list of the triples of their elements. *)
Definition muscle_ode_tensor (xs : list (R * R * R)) : option (list R) :=
  on_tensor
    (fun x => CompliantTendonHillMuscle._muscle_ode (fst (fst x)) (snd (fst x)) (snd x))
    xs.

(** * The force-velocity curve of [RigidTendonHillMuscle]

    The active force that [RigidTendonHillMuscle._integrate] computes, as a
    function of the normalised fiber length, the activation and the
    normalised velocity: the lines of [_integrate] from [flce] to
    [active_force], unchanged. *)

Module KistemakerCurve.
Import Hill.

Definition active_force (muscle_len_n activation muscle_vel_n : R) : R :=
  let flce := TF.maximum (1 + (- muscle_len_n ^ 2 + 2 * muscle_len_n - 1) / f_iso_n_den)
                min_flce in
  let a_rel_st := TF.where_ (TF.gtb muscle_len_n 1) (0.41 * flce) 0.41 in
  let b_rel_st := TF.where_ (TF.ltb activation q_crit)
                    (5.2 * (1 - 0.9 * ((activation - q_crit) / (0.005 - q_crit))) ^ 2)
                    5.2 in
  let dvdf_isom_con := b_rel_st / (activation * (flce + a_rel_st)) in
  let dfdvcon0 := 1 / dvdf_isom_con in
  let p1 := - (flce * activation * 0.5) / (s_as - dfdvcon0 * 2) in
  let p2 := ((flce * activation * 0.5) ^ 2) / (s_as - dfdvcon0 * 2) in
  let p3 := - 1.5 * flce * activation in
  let p4 := - s_as in
  let nom := TF.where_ (TF.ltb muscle_vel_n 0)
               (muscle_vel_n * activation * a_rel_st + flce * activation * b_rel_st)
               (- p1 * p3 - p1 * p4 * muscle_vel_n + p2 - p3 * muscle_vel_n
                - p4 * muscle_vel_n ^ 2) in
  let den := TF.where_ (TF.ltb muscle_vel_n 0) (b_rel_st - muscle_vel_n) (p1 + muscle_vel_n) in
  TF.maximum (nom / den) 0.

End KistemakerCurve.

(** * [motornet/nets/layers.py]: the parts of [GRUNetwork] that are plain
    data handling

    The recurrent cells, the dense output layer and the plant are outside
    this embedding.  What is embedded: how [__init__] normalises [n_units]
    and [n_hidden_layers], what [get_base_config] saves of them, and the
    delayed-feedback buffers that [get_initial_state] fills and [call]
    shifts.  A buffer is the last axis of a feedback state, for one batch
    element and one feature: the list of the values still to be delivered,
    the oldest first.  The sample that [tf.random.normal] draws is an
    explicit argument: [tf.random.normal(shape, stddev=sd)] is a standard
    normal sample times [sd]. *)

Module GRUNetwork.

(** The [n_units] argument of [__init__]: a Python [int] or a sequence. *)
Inductive NUnits : Type :=
| UnitsInt (n : Z)
| UnitsList (l : list Z).

(** The value of a 64-bit integer cast to [int32]: the cast wraps around. *)
Definition int32 (z : Z) : Z := ((z + 2147483648) mod 4294967296 - 2147483648)%Z.

(** [.astype('int32')] on one element of the array [np.repeat] makes of a
    Python [int].  The array holds 64-bit integers, signed or unsigned, when
    the [int] fits in one, from [-2^63] to [2^64 - 1], and the cast wraps
    around; an [int] beyond that is held as an object, and casting it raises
    [OverflowError]. *)
Definition astype_int32 (z : Z) : option Z :=
  if ((-9223372036854775808 <=? z) && (z <? 18446744073709551616))%Z
  then Some (int32 z) else None.

(** The cast on the whole array: it raises as soon as one element does. *)
Fixpoint astype_int32_all (l : list Z) : option (list Z) :=
  match l with
  | [] => Some []
  | z :: l' =>
      match astype_int32 z with
      | None => None
      | Some z' =>
          match astype_int32_all l' with
          | None => None
          | Some r => Some (z' :: r)
          end
      end
  end.

(** [list(np.repeat(n_units, n_hidden_layers).astype('int32'))];
    [np.repeat] raises on a negative count. *)
Definition np_repeat (n : Z) (count : Z) : option (list Z) :=
  if (count <? 0)%Z then None
  else astype_int32_all (repeat n (Z.to_nat count)).

(** The first lines of [__init__]: the pair [(n_units, n_hidden_layers)] it
    goes on with, [None] where it raises. *)
Definition init_units (n_units : NUnits) (n_hidden_layers : Z) : option (list Z * Z) :=
  match (match n_units with
         | UnitsInt n => np_repeat n n_hidden_layers
         | UnitsList l => Some l
         end) with
  | None => None
  | Some n_units =>
      let len := Z.of_nat (length n_units) in
      let n_hidden_layers :=
        if ((1 <? len) && (n_hidden_layers =? 1))%Z then len else n_hidden_layers in
      if negb (len =? n_hidden_layers)%Z then None
      else Some (n_units, n_hidden_layers)
  end.

(** [self.n_ministeps = int(np.maximum(n_ministeps, 1))], on an integer. *)
Definition init_ministeps (n_ministeps : Z) : Z := Z.max n_ministeps 1.

(** The entry ['n_units': int(self.n_units[0])] of [get_base_config]: the
    one entry that can raise, on an empty [n_units]. *)
Definition config_n_units (n_units : list Z) : option Z :=
  match n_units with
  | [] => None
  | n :: _ => Some n
  end.

(** [add_noise]: [x[0] + tf.random.normal(tf.shape(x[0]), stddev=x[1])], the
    standard normal sample being [z]. *)
Definition add_noise (x sd z : R) : R := x + (z * sd + 0).

(** [tile_feedback]: [tf.tile(x[:, :, tf.newaxis], [1, 1, n])]. *)
Definition tile_feedback (x : R) (n : nat) : list R := repeat x n.

(** [get_feedback_backlog]: [tf.slice(x, [0, 0, 1], [-1, -1, -1])]; the
    slice cannot start at 1 on an empty axis. *)
Definition get_feedback_backlog (x : list R) : option (list R) :=
  match x with
  | [] => None
  | _ :: backlog => Some backlog
  end.

(** [get_feedback_current]:
    [tf.squeeze(tf.slice(x, [0, 0, 0], [-1, -1, 1]), axis=-1)]. *)
Definition get_feedback_current (x : list R) : option R :=
  match x with
  | [] => None
  | current :: _ => Some current
  end.

(** [lambda_cat2((backlog, noisy[:, :, tf.newaxis]))]. *)
Definition lambda_cat2 (backlog : list R) (noisy : R) : list R := backlog ++ [noisy].

(** The feedback buffer of [get_initial_state]: the true feedback tiled
    [delay] times, every copy with its own noise sample. *)
Fixpoint add_noise_all (xs : list R) (sd : R) (zs : list R) : list R :=
  match xs, zs with
  | x :: xs', z :: zs' => add_noise x sd z :: add_noise_all xs' sd zs'
  | _, _ => []
  end.

Definition initial_feedback (true_fb sd : R) (delay : nat) (zs : list R) : list R :=
  add_noise_all (tile_feedback true_fb delay) sd zs.

(** What [call] does with one feedback buffer: the value it feeds to the
    network now, and the buffer it returns, the new noisy feedback appended
    to the backlog. *)
Definition feedback_step (old_feedback : list R) (true_fb sd z : R)
    : option (R * list R) :=
  match get_feedback_backlog old_feedback, get_feedback_current old_feedback with
  | Some backlog, Some fb => Some (fb, lambda_cat2 backlog (add_noise true_fb sd z))
  | _, _ => None
  end.

(** [call] after [call]: the buffer through a sequence of time steps, each
    with its true feedback and its noise sample; the values fed to the
    network, in order, and the last buffer. *)
Fixpoint feedback_run (buffer : list R) (sd : R) (steps : list (R * R))
    : option (list R * list R) :=
  match steps with
  | [] => Some ([], buffer)
  | (true_fb, z) :: steps' =>
      match feedback_step buffer true_fb sd z with
      | None => None
      | Some (fb, buffer') =>
          match feedback_run buffer' sd steps' with
          | None => None
          | Some (fbs, last) => Some (fb :: fbs, last)
          end
      end
  end.

(** [get_new_proprio_feedback], for one batch element: the muscle state is
    given muscle by muscle, each with its [l0_ce] and [vmax]; the result is
    the normalised lengths followed by the normalised velocities. *)
Definition get_new_proprio_feedback (muscles : list (MuscleParams * list R))
    (l0_ce vmax : MuscleParams -> R) : list R :=
  let muscle_len :=
    map (fun m => TF.slice_states (snd m) 1 / l0_ce (fst m)) muscles in
  let muscle_vel :=
    map (fun m => TF.slice_states (snd m) 2 / vmax (fst m)) muscles in
  muscle_len ++ muscle_vel.

(** [get_new_visual_feedback]: [tf.split(cstate, 2, axis=-1)] raises on an
    odd size; the first half is kept. *)
Definition get_new_visual_feedback (cstate : list R) : option (list R) :=
  if Nat.even (length cstate) then Some (firstn (Nat.div2 (length cstate)) cstate)
  else None.

End GRUNetwork.

(** The noisy feedback values that a sequence of time steps appends to a
    buffer, each step given as its true feedback and its noise sample. *)
Definition noisy_feedback (sd : R) (steps : list (R * R)) : list R :=
  map (fun s => GRUNetwork.add_noise (fst s) sd (snd s)) steps.

(** * The specification's side

    The formulas and the case distinctions of the specification, written
    from its words, to be compared with the embedding above. *)

Module ActivationSpec.

(** The activation derivative as the specification words it, both
    arguments clamped from above at 1, then from below at [min_activation]. *)
Definition activationDerivative (p : MuscleParams) (excitation activation : R) : R :=
  let e := Rmax (Rmin excitation 1) (min_activation p) in
  let a := Rmax (Rmin activation 1) (min_activation p) in
  let tauScaler := 0.5 + 1.5 * a in
  let tau := if Rlt_dec a e then tau_activation p * tauScaler
             else tau_deactivation p / tauScaler in
  (e - a) / tau.

End ActivationSpec.

(** ** The Thelen force terms *)

Module ThelenSpec.

(** The force terms as the specification words them, the coefficients of
    the force-velocity curve written out from [Af = 0.25], [fmlen = 1.4] and
    [vmax = 10 * optimalLen]. *)
Definition k1 : R := 5 / 0.66.
Definition peDen : R := exp 5 - 1.
Definition gamma : R := 0.45.

Definition flpe (passiveSlack optimalLen fiberLen : R) : R :=
  Rmax ((exp (k1 * (fiberLen - passiveSlack) / optimalLen) - 1) / peDen) 0.

Definition flce (optimalLen fiberLen : R) : R :=
  let lenNorm := fiberLen / optimalLen in
  exp (- ((lenNorm - 1) ^ 2) / gamma).

Definition fvce (optimalLen activation velocity : R) : R :=
  let vmax := 10 * optimalLen in
  let Af := 0.25 in
  let fmlen := 1.4 in
  let c4 := Af * fmlen * vmax - Af * vmax in
  Rmax
    (if Rle_dec velocity 0
     then (Af * (activation * (3 * vmax) + 4 * velocity + vmax))
          / (activation * 3 * (Af * vmax) + Af * vmax - 4 * velocity)
     else ((3 * Af * vmax * fmlen - 3 * Af * vmax) * activation
           + (8 * Af * fmlen + 8 * fmlen) * velocity + c4)
          / (c4 * (activation * 3) + 8 * (Af + 1) * velocity + c4))
    0.

Definition force (maxIsometricForce activation flce fvce flpe : R) : R :=
  (activation * flce * fvce + flpe) * maxIsometricForce.

End ThelenSpec.

(** ** Signs and caps of the force channels *)

Module ForceSpec.

(** The force channels of a Kistemaker state: the passive term, and, for a
    positive [min_activation], the active force and the force.  (At the
    activation 0 the force-velocity curve of the source divides 0 by 0 at
    rest.) *)
Definition kistemaker_forces_nonneg (p : MuscleParams) (s : list R) : Prop :=
  0 <= TF.slice_states s 3
  /\ (0 < min_activation p ->
      0 <= TF.slice_states s 5
      /\ (0 <= max_isometric_force p -> 0 <= TF.slice_states s 6)).

(** The force channels of a Thelen state: the passive term, the two curve
    values, and, for a non-negative [min_activation], the active force
    [activation * flce * fvce] and the force. *)
Definition thelen_forces_nonneg (p : MuscleParams) (s : list R) : Prop :=
  0 <= TF.slice_states s 3
  /\ 0 <= TF.slice_states s 4
  /\ 0 <= TF.slice_states s 5
  /\ (0 <= min_activation p ->
      0 <= TF.slice_states s 0 * TF.slice_states s 4 * TF.slice_states s 5
      /\ (0 <= max_isometric_force p -> 0 <= TF.slice_states s 6)).

(** The force channels of a compliant-tendon state computed from the fiber
    length [muscle_len] and the musculotendon length [lmt]. *)
Definition compliant_forces_capped (p : MuscleParams) (lmt muscle_len : R)
    (s : list R) : Prop :=
  let tendon_strain := Rmax ((lmt - muscle_len - tendon_length p) / tendon_length p) 0 in
  let fiber_strain :=
    Rmax ((muscle_len - Hill.l0_pe p) / optimal_muscle_length p) 0 in
  TF.slice_states s 3 = Rmin (Hill.k_pe p * fiber_strain ^ 2) 3
  /\ TF.slice_states s 4 = Rmin (Hill.k_se * tendon_strain ^ 2) 3
  /\ TF.slice_states s 5 = Rmax (TF.slice_states s 4 - TF.slice_states s 3) 0
  /\ 0 <= TF.slice_states s 3 <= 3
  /\ 0 <= TF.slice_states s 4 <= 3
  /\ 0 <= TF.slice_states s 5
  /\ (0 <= max_isometric_force p -> 0 <= TF.slice_states s 6).

End ForceSpec.

(** ** The value of the fiber-velocity solver *)

Module MuscleOdeSpec.
Import Hill CompliantTendonHillMuscle.

(** What [_muscle_ode] returns once the assertion has passed. *)
Definition selected_velocity (n a af : R) : R :=
  TF.where_ (TF.ltb af (f_x_a n a))
    (b_rel_st a * (af - f_x_a n a))
    (- af + p1 n a * s_as - p3 n a - sqrt (TF.maximum (sqrt_term n a af) 0))
  / TF.where_ (TF.ltb af (f_x_a n a)) (af + a * a_rel_st n) (-2 * s_as).

End MuscleOdeSpec.

(** ** The regimes of the equilibrium initializer *)

Module RegimeSpec.
Import Hill.

(** The four regimes of the specification, tested in this order. *)
Inductive Regime : Type := Invalid | TendonOnly | TendonAtSlack | Equilibrium.

Definition in_regime (p : MuscleParams) (lmt : R) (r : Regime) : Prop :=
  match r with
  | Invalid => lmt < 0
  | TendonOnly => 0 <= lmt /\ lmt < tendon_length p
  | TendonAtSlack =>
      0 <= lmt /\ tendon_length p <= lmt /\ lmt < tendon_length p + l0_pe p
  | Equilibrium =>
      0 <= lmt /\ tendon_length p <= lmt /\ tendon_length p + l0_pe p <= lmt
  end.

Definition regime_of (p : MuscleParams) (lmt : R) : Regime :=
  if Rlt_dec lmt 0 then Invalid
  else if Rlt_dec lmt (tendon_length p) then TendonOnly
  else if Rlt_dec lmt (tendon_length p + l0_pe p) then TendonAtSlack
  else Equilibrium.

End RegimeSpec.

(** ** A sample muscle *)

(** The base-class defaults, for one muscle of unit force and lengths. *)
Definition default_params (min_act : R) (nsml : R) : MuscleParams :=
  mkMuscleParams min_act 0.015 0.05 0.01 1 1 1 nsml.

(** * Properties *)

(** ** Facts about the primitives *)

Module TFFacts.
Import TF.

Lemma ltb_true (a b : R) : ltb a b = true <-> a < b.
Proof. unfold ltb; destruct (Rlt_dec a b); split; intros; auto; discriminate. Qed.

Lemma ltb_false (a b : R) : ltb a b = false <-> b <= a.
Proof.
  unfold ltb; destruct (Rlt_dec a b); split; intros; auto; try discriminate; lra.
Qed.

Lemma leb_true (a b : R) : leb a b = true <-> a <= b.
Proof. unfold leb; destruct (Rle_dec a b); split; intros; auto; discriminate. Qed.

Lemma leb_false (a b : R) : leb a b = false <-> b < a.
Proof.
  unfold leb; destruct (Rle_dec a b); split; intros; auto; try discriminate; lra.
Qed.

Lemma clip_lower (t lo hi : R) : lo <= clip_by_value t lo hi.
Proof. unfold clip_by_value, maximum; apply Rmax_r. Qed.

Lemma clip_upper (t lo hi : R) : lo <= hi -> clip_by_value t lo hi <= hi.
Proof.
  intros H; unfold clip_by_value, minimum, maximum.
  apply Rmax_lub; [apply Rmin_r | exact H].
Qed.

Lemma clip_id (t lo hi : R) : lo <= t <= hi -> clip_by_value t lo hi = t.
Proof.
  intros [H1 H2]; unfold clip_by_value, minimum, maximum.
  rewrite Rmin_left by exact H2. apply Rmax_left; exact H1.
Qed.

Lemma assert_non_negative_Some (x : R) :
  assert_non_negative x = Some tt <-> 0 <= x.
Proof.
  unfold assert_non_negative; destruct (Rle_dec 0 x); split; intros; auto;
    try discriminate; contradiction.
Qed.

Lemma assert_non_negative_None (x : R) :
  assert_non_negative x = None <-> x < 0.
Proof.
  unfold assert_non_negative; destruct (Rle_dec 0 x); split; intros; auto;
    try discriminate; lra.
Qed.

Lemma assert_non_negative_all_None (xs : list R) :
  assert_non_negative_all xs = None <-> exists x, In x xs /\ x < 0.
Proof.
  induction xs as [|x xs IH]; simpl.
  - split; [discriminate | intros [x [[] _]]].
  - destruct (assert_non_negative x) as [[]|] eqn:E.
    + apply assert_non_negative_Some in E. rewrite IH. split.
      * intros [y [Hy Hn]]. exists y. auto.
      * intros [y [[->|Hy] Hn]]; [lra | exists y; auto].
    + apply assert_non_negative_None in E. split; auto.
      intros _. exists x. auto.
Qed.

Lemma maximum_ge_r (a b : R) : b <= maximum a b.
Proof. apply Rmax_r. Qed.

Lemma minimum_nonneg (a b : R) : 0 <= a -> 0 <= b -> 0 <= minimum a b.
Proof. intros; unfold minimum; apply Rmin_glb; assumption. Qed.

Lemma clip_idem_low (lo hi : R) : clip_by_value lo lo hi = lo.
Proof.
  unfold clip_by_value, minimum, maximum. apply Rmax_right. apply Rmin_l.
Qed.

End TFFacts.

(** Case analysis on every comparison the goal or a hypothesis still holds,
    closing the arithmetic of each case. *)
Ltac tf_unfold :=
  unfold TF.clip_by_value, TF.relu, TF.maximum, TF.minimum, TF.where_,
    TF.gtb, TF.geb, TF.ltb, TF.leb, TF.slice_states, Rmax, Rmin in *.

Ltac tf_cases :=
  repeat match goal with
    | |- context [Rle_dec ?a ?b] => destruct (Rle_dec a b)
    | |- context [Rlt_dec ?a ?b] => destruct (Rlt_dec a b)
    | H : context [Rle_dec ?a ?b] |- _ => destruct (Rle_dec a b)
    | H : context [Rlt_dec ?a ?b] |- _ => destruct (Rlt_dec a b)
    end.

(** ** Activation dynamics *)

Module ActivationFacts.

Lemma activation_ode_spec (p : MuscleParams) (e a : R) :
  Muscle._activation_ode p e a = ActivationSpec.activationDerivative p e a.
Proof.
  unfold Muscle._activation_ode, ActivationSpec.activationDerivative.
  unfold TF.clip_by_value, TF.minimum, TF.maximum, TF.where_, TF.gtb, TF.ltb.
  destruct (Rlt_dec _ _); reflexivity.
Qed.

Lemma activation_ode_in_range (p : MuscleParams) (e a : R) :
  min_activation p <= e <= 1 -> min_activation p <= a <= 1 ->
  Muscle._activation_ode p e a =
    (e - a) / (if Rlt_dec a e then tau_activation p * (0.5 + 1.5 * a)
               else tau_deactivation p / (0.5 + 1.5 * a)).
Proof.
  intros He Ha. unfold Muscle._activation_ode.
  rewrite !TFFacts.clip_id by assumption.
  unfold TF.where_, TF.gtb, TF.ltb. destruct (Rlt_dec a e); reflexivity.
Qed.

Lemma activation_ode_sign (p : MuscleParams) (e a : R) :
  - (1 / 3) < min_activation p ->
  0 < tau_activation p -> 0 < tau_deactivation p ->
  min_activation p <= e <= 1 -> min_activation p <= a <= 1 ->
  (0 < Muscle._activation_ode p e a <-> a < e).
Proof.
  intros Hm Hta Htd He Ha.
  rewrite activation_ode_in_range by assumption.
  assert (Hs : 0 < 0.5 + 1.5 * a) by lra.
  destruct (Rlt_dec a e) as [Hlt | Hge].
  - split; [intros _; exact Hlt | intros _].
    apply Rdiv_lt_0_compat; [lra | apply Rmult_lt_0_compat; assumption].
  - split; [| intros; lra].
    intros Hpos. exfalso.
    assert (Ht : 0 < tau_deactivation p / (0.5 + 1.5 * a))
      by (apply Rdiv_lt_0_compat; assumption).
    assert (Hle : (e - a) / (tau_deactivation p / (0.5 + 1.5 * a)) <= 0).
    { unfold Rdiv at 1. rewrite <- (Rmult_0_l (/ (tau_deactivation p / (0.5 + 1.5 * a)))).
      apply Rmult_le_compat_r; [left; apply Rinv_0_lt_compat; exact Ht | lra]. }
    lra.
Qed.

End ActivationFacts.

(** C5.  The activation derivative is the clamped first-order lag of the
    specification, and, when the lower bound of the activation is above
    [-1/3] (so that the time-constant scaler [0.5 + 1.5 * activation] is
    positive) and both time constants are positive, it is strictly positive
    exactly when the excitation exceeds the activation, for excitation and
    activation in [[min_activation, 1]]. *)
Theorem activation_derivative_formula_and_sign (p : MuscleParams) (e a : R) :
  Muscle._activation_ode p e a = ActivationSpec.activationDerivative p e a
  /\ (- (1 / 3) < min_activation p ->
      0 < tau_activation p -> 0 < tau_deactivation p ->
      min_activation p <= e <= 1 -> min_activation p <= a <= 1 ->
      (0 < Muscle._activation_ode p e a <-> a < e)).
Proof.
  split.
  - apply ActivationFacts.activation_ode_spec.
  - apply ActivationFacts.activation_ode_sign.
Qed.

Lemma activation_derivative_formula_and_sign_witness :
  (- (1 / 3) < 0 /\ 0 < 0.015 /\ 0 < 0.05 /\ 0 <= 1 <= 1 /\ 0 <= 0 <= 1)
  /\ (0 < Muscle._activation_ode (default_params 0 1.4) 1 0 <-> 0 < 1).
Proof.
  split; [lra |].
  apply (proj2 (activation_derivative_formula_and_sign (default_params 0 1.4) 1 0));
    simpl; lra.
Defined.

(** With [min_activation = -1], excitation 0 and activation -1 are both in
    [[min_activation, 1]], the time constants are positive and the
    excitation exceeds the activation, yet the derivative is negative. *)
Lemma activation_derivative_negative_scaler :
  let p := default_params (-1) 1.4 in
  (min_activation p <= 0 <= 1) /\ (min_activation p <= -1 <= 1)
  /\ 0 < tau_activation p /\ 0 < tau_deactivation p
  /\ -1 < 0
  /\ ~ (0 < Muscle._activation_ode p 0 (-1) <-> -1 < 0).
Proof.
  simpl. repeat (split; [lra |]).
  assert (E : Muscle._activation_ode (default_params (-1) 1.4) 0 (-1) = - (1 / 0.015)).
  { unfold Muscle._activation_ode, default_params; simpl.
    tf_unfold. tf_cases; lra. }
  rewrite E. intros [_ H]. specialize (H ltac:(lra)). lra.
Qed.

(** ** The activation channel after [integrate] *)

Module IntegrateFacts.

Lemma relu_activation (p : MuscleParams) (dt d : R) (st g : list R) :
  TF.slice_states (ReluMuscle._integrate p dt d st g) 0
  = TF.clip_by_value (TF.slice_states st 0 + d * dt) (min_activation p) 1.
Proof. reflexivity. Qed.

Lemma rigid_activation (p : MuscleParams) (dt d : R) (st g : list R) :
  TF.slice_states (RigidTendonHillMuscle._integrate p dt d st g) 0
  = TF.clip_by_value (TF.slice_states st 0 + d * dt) (min_activation p) 1.
Proof. reflexivity. Qed.

Lemma thelen_activation (p : MuscleParams) (dt d : R) (st g : list R) :
  TF.slice_states (RigidTendonHillMuscleThelen._integrate p dt d st g) 0
  = TF.clip_by_value (TF.slice_states st 0 + d * dt) (min_activation p) 1.
Proof. reflexivity. Qed.

Lemma compliant_activation (p : MuscleParams) (dt : R) (sd st g : list R) :
  TF.slice_states (CompliantTendonHillMuscle._integrate p dt sd st g) 0
  = TF.clip_by_value (TF.slice_states st 0 + TF.slice_states sd 0 * dt)
      (min_activation p) 1.
Proof. reflexivity. Qed.

Lemma clip_in_range (t lo : R) : lo <= 1 -> lo <= TF.clip_by_value t lo 1 <= 1.
Proof.
  intros H; split; [apply TFFacts.clip_lower | apply TFFacts.clip_upper; exact H].
Qed.

(** [integrate] reads nothing but channel 0 of the previous state. *)
Lemma rigid_integrate_ext (p : MuscleParams) (dt d : R) (st st' g : list R) :
  TF.slice_states st 0 = TF.slice_states st' 0 ->
  RigidTendonHillMuscle._integrate p dt d st g
  = RigidTendonHillMuscle._integrate p dt d st' g.
Proof. intros H; unfold RigidTendonHillMuscle._integrate; rewrite H; reflexivity. Qed.

Lemma thelen_integrate_ext (p : MuscleParams) (dt d : R) (st st' g : list R) :
  TF.slice_states st 0 = TF.slice_states st' 0 ->
  RigidTendonHillMuscleThelen._integrate p dt d st g
  = RigidTendonHillMuscleThelen._integrate p dt d st' g.
Proof.
  intros H; unfold RigidTendonHillMuscleThelen._integrate; rewrite H; reflexivity.
Qed.

Lemma initial_channel (p : MuscleParams) :
  TF.slice_states [1 * min_activation p] 0 = min_activation p.
Proof. unfold TF.slice_states; simpl; lra. Qed.

Lemma initial_clip (p : MuscleParams) :
  TF.clip_by_value (TF.slice_states [1 * min_activation p] 0 + 0 * timestep p)
    (min_activation p) 1
  = min_activation p.
Proof.
  rewrite initial_channel.
  replace (min_activation p + 0 * timestep p) with (min_activation p) by lra.
  apply TFFacts.clip_idem_low.
Qed.

End IntegrateFacts.

(** C7.  When [min_activation <= 1], for each of the four muscles, for every
    time step, derivative, previous state and geometry state, the activation
    channel of the state [integrate] returns lies in [[min_activation, 1]]. *)
Theorem integrate_activation_in_range (p : MuscleParams) (dt d : R)
    (sd st g : list R) :
  min_activation p <= 1 ->
  0 <= dt ->
  (min_activation p <= TF.slice_states (ReluMuscle._integrate p dt d st g) 0 <= 1)
  /\ (min_activation p
        <= TF.slice_states (RigidTendonHillMuscle._integrate p dt d st g) 0 <= 1)
  /\ (min_activation p
        <= TF.slice_states (RigidTendonHillMuscleThelen._integrate p dt d st g) 0 <= 1)
  /\ (min_activation p
        <= TF.slice_states (CompliantTendonHillMuscle._integrate p dt sd st g) 0 <= 1).
Proof.
  intros Hm _.
  rewrite IntegrateFacts.relu_activation, IntegrateFacts.rigid_activation,
    IntegrateFacts.thelen_activation, IntegrateFacts.compliant_activation.
  repeat split; apply IntegrateFacts.clip_in_range; exact Hm.
Qed.

Lemma integrate_activation_in_range_witness :
  (0 <= 1 /\ 0 <= 0.01)
  /\ (0 <= TF.slice_states
             (ReluMuscle._integrate (default_params 0 1.4) 0.01 200 [0; 1; 0; 0] [1; 0]) 0
      <= 1).
Proof.
  split; [lra |].
  apply (integrate_activation_in_range (default_params 0 1.4) 0.01 200
           [200; 0] [0; 1; 0; 0] [1; 0]); simpl; lra.
Defined.

(** With [min_activation = 2] the interval [[2, 1]] is empty: the activation
    comes out as 2, above 1. *)
Lemma integrate_activation_above_one :
  let p := default_params 2 1.4 in
  0 <= 0.01
  /\ TF.slice_states (ReluMuscle._integrate p 0.01 0 [2; 1; 0; 0] [1; 0]) 0 = 2
  /\ ~ (min_activation p
          <= TF.slice_states (ReluMuscle._integrate p 0.01 0 [2; 1; 0; 0] [1; 0]) 0
          <= 1).
Proof.
  assert (E : TF.slice_states
                (ReluMuscle._integrate (default_params 2 1.4) 0.01 0 [2; 1; 0; 0] [1; 0]) 0
              = 2).
  { rewrite IntegrateFacts.relu_activation. simpl. tf_unfold. simpl. tf_cases; lra. }
  simpl. split; [lra |]. split; [exact E |]. rewrite E. lra.
Qed.

(** C4.  In both rigid-tendon muscles the fiber length that [integrate]
    stores is the musculotendon length minus the tendon slack length,
    clamped from below (at 0 in the Kistemaker muscle, at 0.001 in the
    Thelen muscle); it adds up with the tendon slack length to the
    musculotendon length exactly when the clamp is not active. *)
Theorem rigid_fiber_length_clamped (p : MuscleParams) (dt d : R) (st g : list R) :
  let lmt := TF.slice_states g 0 in
  let len_k := TF.slice_states (RigidTendonHillMuscle._integrate p dt d st g) 1 in
  let len_t := TF.slice_states (RigidTendonHillMuscleThelen._integrate p dt d st g) 1 in
  len_k = Rmax (lmt - tendon_length p) 0
  /\ len_t = Rmax (lmt - tendon_length p) 0.001
  /\ (tendon_length p <= lmt -> len_k + tendon_length p = lmt)
  /\ (tendon_length p + 0.001 <= lmt -> len_t + tendon_length p = lmt).
Proof.
  cbv zeta.
  change (TF.slice_states (RigidTendonHillMuscle._integrate p dt d st g) 1)
    with (Rmax (TF.slice_states g 0 - tendon_length p) 0).
  change (TF.slice_states (RigidTendonHillMuscleThelen._integrate p dt d st g) 1)
    with (Rmax (TF.slice_states g 0 - tendon_length p) 0.001).
  repeat split.
  - intros H. rewrite Rmax_left by lra. lra.
  - intros H. rewrite Rmax_left by lra. lra.
Qed.

Lemma rigid_fiber_length_clamped_witness :
  (1 <= 2 /\ 1 + 0.001 <= 2)
  /\ TF.slice_states
       (RigidTendonHillMuscle._integrate (default_params 0.001 1.4) 0.01 0 [0.001] [2; 0]) 1
     + 1 = 2.
Proof.
  split; [lra |].
  apply (proj1 (proj2 (proj2
           (rigid_fiber_length_clamped (default_params 0.001 1.4) 0.01 0 [0.001] [2; 0]))));
    simpl; unfold TF.slice_states; simpl; lra.
Defined.

(** A musculotendon length below the tendon slack length: the fiber length
    is clamped to 0 and no longer adds up. *)
Lemma rigid_fiber_length_short_musculotendon :
  let p := default_params 0.001 1.4 in
  let len_k :=
    TF.slice_states (RigidTendonHillMuscle._integrate p 0.01 0 [0.001] [0.5; 0]) 1 in
  len_k = 0 /\ len_k + tendon_length p <> 0.5.
Proof.
  assert (E : TF.slice_states
                (RigidTendonHillMuscle._integrate (default_params 0.001 1.4)
                   0.01 0 [0.001] [0.5; 0]) 1 = 0).
  { change (Rmax (0.5 - 1) 0 = 0). rewrite Rmax_right by lra. reflexivity. }
  cbv zeta. rewrite E. simpl. split; [reflexivity | lra].
Qed.

(** C10.  In both rigid-tendon muscles the initial state is the state that
    [integrate] returns for the configured time step, a zero derivative and
    any previous state whose activation is [min_activation]; its activation
    is [min_activation], and its force channels are those [integrate]
    computes. *)
Theorem rigid_initial_state_is_integrate (p : MuscleParams) (batch_size : nat)
    (g : list R) :
  let init_k := RigidTendonHillMuscle._get_initial_muscle_state p batch_size g in
  let init_t := RigidTendonHillMuscleThelen._get_initial_muscle_state p batch_size g in
  (forall st, TF.slice_states st 0 = min_activation p ->
     RigidTendonHillMuscle.integrate p (timestep p) 0 st g = init_k)
  /\ (forall st, TF.slice_states st 0 = min_activation p ->
        RigidTendonHillMuscleThelen.integrate p (timestep p) 0 st g = init_t)
  /\ TF.slice_states init_k 0 = min_activation p
  /\ TF.slice_states init_t 0 = min_activation p.
Proof.
  cbv zeta.
  unfold RigidTendonHillMuscle._get_initial_muscle_state,
    RigidTendonHillMuscleThelen._get_initial_muscle_state,
    RigidTendonHillMuscle.integrate, RigidTendonHillMuscleThelen.integrate.
  split; [| split; [| split]].
  - intros st Hst. apply IntegrateFacts.rigid_integrate_ext.
    rewrite Hst. symmetry. apply IntegrateFacts.initial_channel.
  - intros st Hst. apply IntegrateFacts.thelen_integrate_ext.
    rewrite Hst. symmetry. apply IntegrateFacts.initial_channel.
  - rewrite IntegrateFacts.rigid_activation. apply IntegrateFacts.initial_clip.
  - rewrite IntegrateFacts.thelen_activation. apply IntegrateFacts.initial_clip.
Qed.

Lemma rigid_initial_state_is_integrate_witness :
  TF.slice_states [0.001; 0.7; 0.2; 0; 1; 0; 0] 0 = 0.001
  /\ RigidTendonHillMuscle.integrate (default_params 0.001 1.4) 0.01 0
       [0.001; 0.7; 0.2; 0; 1; 0; 0] [2; 0]
     = RigidTendonHillMuscle._get_initial_muscle_state (default_params 0.001 1.4)
         1 [2; 0].
Proof.
  split; [reflexivity |].
  apply (proj1 (rigid_initial_state_is_integrate (default_params 0.001 1.4) 1 [2; 0])).
  reflexivity.
Defined.

(** At zero velocity the lengthening branch of the Kistemaker force-velocity
    curve gives [- p3 - h] with [h = flce * activation * 0.5] and
    [p3 = - 1.5 * flce * activation], that is [flce * activation]. *)
Lemma isometric_closed_form (h d p3 p4 : R) :
  d <> 0 -> h <> 0 ->
  (- (- h / d) * p3 - - h / d * p4 * 0 + h ^ 2 / d - p3 * 0 - p4 * 0 ^ 2)
  / (- h / d + 0)
  = - p3 - h.
Proof. intros Hd Hh. field. split; assumption. Qed.

(** The initial force of a rigid-tendon muscle is not the zero of the
    degenerate muscle: at the optimal fiber length and at rest, the
    Kistemaker muscle starts with the force [min_activation * max_iso_force]. *)
Lemma kistemaker_initial_force_example :
  TF.slice_states
    (RigidTendonHillMuscle._get_initial_muscle_state (default_params 0.001 1.4) 1 [2; 0]) 6
  = 0.001.
Proof.
  unfold RigidTendonHillMuscle._get_initial_muscle_state, RigidTendonHillMuscle.integrate,
    RigidTendonHillMuscle._integrate, TF.slice_states; cbn [nth].
  unfold Hill.l0_se, Hill.l0_pe, Hill.l0_ce, Hill.k_pe, Hill.vmax, Hill.max_iso_force,
    Hill.s_as, Hill.f_iso_n_den, Hill.q_crit, Hill.min_flce.
  unfold Hill.l0_pe, Hill.l0_ce.
  cbv beta iota delta [default_params min_activation optimal_muscle_length
    tendon_length normalized_slack_muscle_length max_isometric_force timestep].
  assert (Ha : TF.clip_by_value (1 * 0.001 + 0 * 0.01) 0.001 1 = 0.001)
    by (tf_unfold; tf_cases; lra).
  assert (Hl : TF.maximum (2 - 1) 0 = 1) by (tf_unfold; tf_cases; lra).
  rewrite Ha, Hl.
  assert (Hs : TF.maximum ((1 - 1 * 1.4) / 1) 0 = 0) by (tf_unfold; tf_cases; lra).
  rewrite Hs.
  assert (Hf : TF.maximum (1 + (- (1 / 1) ^ 2 + 2 * (1 / 1) - 1) / 0.66 ^ 2) 0.01 = 1)
    by (tf_unfold; tf_cases; lra).
  rewrite Hf.
  replace (0 / (10 * 1)) with 0 by lra.
  assert (Hv : TF.ltb 0 0 = false) by (apply TFFacts.ltb_false; lra).
  assert (Hq : TF.ltb 0.001 0.3 = true) by (apply TFFacts.ltb_true; lra).
  assert (Hg : TF.gtb (1 / 1) 1 = false) by (apply TFFacts.ltb_false; lra).
  rewrite Hv, Hq, Hg. unfold TF.where_.
  set (d := 0.001 - 1 / (5.2 * (1 - 0.9 * ((0.001 - 0.3) / (0.005 - 0.3))) ^ 2
                            / (0.001 * (1 + 0.41))) * 2).
  assert (Hd : d < 0) by (unfold d; lra).
  clearbody d.
  rewrite isometric_closed_form by lra.
  tf_unfold. tf_cases; lra.
Qed.

(** C9.  The state [RigidTendonHillMuscleThelen._integrate] returns holds,
    after the activation, the fiber length and the velocity, the exponential
    passive force-length, the Gaussian-like active force-length, the
    rational force-velocity value (branch at velocity [<= 0] against [> 0],
    clamped at 0) and the total force
    [(activation * flce * fvce + flpe) * maxIsometricForce]. *)
Theorem thelen_integrate_formulas (p : MuscleParams) (dt d : R) (st g : list R) :
  let s := RigidTendonHillMuscleThelen._integrate p dt d st g in
  let activation := TF.slice_states s 0 in
  let fiberLen := TF.slice_states s 1 in
  let velocity := TF.slice_states s 2 in
  let optimalLen := optimal_muscle_length p in
  let passiveSlack := optimalLen * normalized_slack_muscle_length p in
  length s = 7%nat
  /\ velocity = TF.slice_states g 1
  /\ TF.slice_states s 3 = ThelenSpec.flpe passiveSlack optimalLen fiberLen
  /\ TF.slice_states s 4 = ThelenSpec.flce optimalLen fiberLen
  /\ TF.slice_states s 5 = ThelenSpec.fvce optimalLen activation velocity
  /\ TF.slice_states s 6
     = ThelenSpec.force (max_isometric_force p) activation
         (TF.slice_states s 4) (TF.slice_states s 5) (TF.slice_states s 3).
Proof.
  cbv zeta.
  unfold RigidTendonHillMuscleThelen._integrate, TF.slice_states; cbn [nth length].
  repeat split.
  unfold ThelenSpec.fvce, TF.where_, TF.leb, TF.maximum.
  unfold RigidTendonHillMuscleThelen.ce_0, RigidTendonHillMuscleThelen.ce_1,
    RigidTendonHillMuscleThelen.ce_2, RigidTendonHillMuscleThelen.ce_3,
    RigidTendonHillMuscleThelen.ce_4, RigidTendonHillMuscleThelen.ce_5,
    RigidTendonHillMuscleThelen.ce_1,
    RigidTendonHillMuscleThelen.ce_Af, RigidTendonHillMuscleThelen.ce_fmlen,
    RigidTendonHillMuscleThelen.vmax, RigidTendonHillMuscleThelen.l0_ce.
  destruct (Rle_dec (nth 1 g 0) 0); reflexivity.
Qed.

(** ** Signs of the force terms *)

Module ForceFacts.
Import ForceSpec.

Lemma pow_lt_0_sqr (x : R) : x <> 0 -> 0 < x ^ 2.
Proof.
  intros H.
  assert (0 <= x ^ 2) by apply pow2_ge_0.
  assert (x ^ 2 <> 0) by (apply pow_nonzero; exact H).
  lra.
Qed.

Lemma inv_sqr_nonneg (x : R) : 0 <= 1 / (x ^ 2).
Proof.
  destruct (Req_dec x 0) as [-> | Hx].
  - replace (0 ^ 2) with 0 by ring. unfold Rdiv. rewrite Rinv_0. lra.
  - left. apply Rdiv_lt_0_compat; [lra |]. apply pow_lt_0_sqr; exact Hx.
Qed.

Lemma k_pe_nonneg (p : MuscleParams) : 0 <= Hill.k_pe p.
Proof. unfold Hill.k_pe. apply inv_sqr_nonneg. Qed.

Lemma k_se_pos : 0 < Hill.k_se.
Proof. unfold Hill.k_se. apply Rdiv_lt_0_compat; lra. Qed.

(** A quadratic force law capped at 3. *)
Lemma capped_quadratic (k x : R) : 0 <= k -> 0 <= TF.minimum (k * x ^ 2) 3 <= 3.
Proof.
  intros Hk. split.
  - apply TFFacts.minimum_nonneg; [| lra].
    apply Rmult_le_pos; [exact Hk | apply pow2_ge_0].
  - apply Rmin_r.
Qed.

Lemma sum_times_nonneg (a b f : R) : 0 <= a -> 0 <= b -> 0 <= f -> 0 <= (a + b) * f.
Proof. intros; apply Rmult_le_pos; lra. Qed.

Lemma kistemaker_integrate_forces (p : MuscleParams) (dt d : R) (st g : list R) :
  kistemaker_forces_nonneg p (RigidTendonHillMuscle._integrate p dt d st g).
Proof.
  unfold kistemaker_forces_nonneg, RigidTendonHillMuscle._integrate, TF.slice_states;
    cbn [nth].
  assert (H3 : forall x, 0 <= TF.minimum (Hill.k_pe p * x ^ 2) 3)
    by (intros x; apply capped_quadratic, k_pe_nonneg).
  split; [apply H3 |]. intros _. split; [apply TFFacts.maximum_ge_r |].
  intros HF. apply sum_times_nonneg; [apply TFFacts.maximum_ge_r | apply H3 | exact HF].
Qed.

Lemma thelen_integrate_forces (p : MuscleParams) (dt d : R) (st g : list R) :
  thelen_forces_nonneg p (RigidTendonHillMuscleThelen._integrate p dt d st g).
Proof.
  unfold thelen_forces_nonneg, RigidTendonHillMuscleThelen._integrate, TF.slice_states;
    cbn [nth].
  split; [apply TFFacts.maximum_ge_r |].
  split; [left; apply exp_pos |].
  split; [apply TFFacts.maximum_ge_r |].
  intros Hm.
  assert (Ha : 0 <= TF.clip_by_value (nth 0 st 0 + d * dt) (min_activation p) 1
                    * exp (- (TF.maximum (nth 0 g 0 - RigidTendonHillMuscleThelen.l0_se p)
                                0.001 / RigidTendonHillMuscleThelen.l0_ce p - 1) ^ 2
                           / RigidTendonHillMuscleThelen.ce_gamma)).
  { apply Rmult_le_pos; [| left; apply exp_pos].
    eapply Rle_trans; [exact Hm | apply TFFacts.clip_lower]. }
  assert (Hact : forall x, 0 <= TF.clip_by_value (nth 0 st 0 + d * dt) (min_activation p) 1
                    * exp (- (TF.maximum (nth 0 g 0 - RigidTendonHillMuscleThelen.l0_se p)
                                0.001 / RigidTendonHillMuscleThelen.l0_ce p - 1) ^ 2
                           / RigidTendonHillMuscleThelen.ce_gamma)
                    * TF.maximum x 0)
    by (intros x; apply Rmult_le_pos; [exact Ha | apply TFFacts.maximum_ge_r]).
  split; [apply Hact |].
  intros HF.
  apply sum_times_nonneg; [apply Hact | apply TFFacts.maximum_ge_r | exact HF].
Qed.

Lemma compliant_forces (p : MuscleParams) (lmt muscle_len a l v : R) :
  compliant_forces_capped p lmt muscle_len
    ([a; l; v] ++ CompliantTendonHillMuscle.initial_forces p lmt muscle_len).
Proof.
  unfold compliant_forces_capped, CompliantTendonHillMuscle.initial_forces,
    TF.slice_states; cbn [nth app].
  repeat split;
    try (apply capped_quadratic; first [apply k_pe_nonneg | left; apply k_se_pos]);
    try apply TFFacts.maximum_ge_r.
  intros HF. apply Rmult_le_pos; [| exact HF].
  apply capped_quadratic. left; apply k_se_pos.
Qed.

Lemma compliant_integrate_forces (p : MuscleParams) (dt : R) (sd st g : list R) :
  compliant_forces_capped p (TF.slice_states g 0) (TF.slice_states st 1)
    (CompliantTendonHillMuscle._integrate p dt sd st g).
Proof.
  pose proof (compliant_forces p (TF.slice_states g 0) (TF.slice_states st 1) 0 0 0) as H.
  exact H.
Qed.

Lemma compliant_initial_forces (p : MuscleParams) (bs : nat) (g s : list R) :
  CompliantTendonHillMuscle._get_initial_muscle_state p bs g = Some s ->
  compliant_forces_capped p (TF.slice_states g 0)
    (CompliantTendonHillMuscle.initial_muscle_len p (TF.slice_states g 0)) s.
Proof.
  unfold CompliantTendonHillMuscle._get_initial_muscle_state.
  destruct (TF.assert_non_negative _); [| discriminate].
  destruct (CompliantTendonHillMuscle.muscle_ode _ _ _); [| discriminate].
  intros H; injection H as <-. apply compliant_forces.
Qed.

Lemma relu_integrate_force (p : MuscleParams) (dt d : R) (st g : list R) :
  0 <= max_isometric_force p ->
  0 <= TF.slice_states (ReluMuscle._integrate p dt d st g) 3.
Proof.
  intros HF. unfold ReluMuscle._integrate, TF.slice_states; cbn [nth].
  apply Rmult_le_pos; [apply TFFacts.maximum_ge_r | exact HF].
Qed.

End ForceFacts.

(** C8.  In every state [integrate] or the initializer produces, the
    passive term is non-negative.  The active force is non-negative in the
    Kistemaker muscle when [min_activation] is positive, in the Thelen
    muscle, where it is [activation * flce * fvce], when [min_activation]
    is non-negative, and in the compliant-tendon muscle always.  Under the
    same condition on [min_activation], the total force is non-negative when
    the maximum isometric force is; in the degenerate and the
    compliant-tendon muscle it is so for every [min_activation].  In the
    compliant-tendon muscle the series-elastic and the passive term are the
    quadratic laws capped at 3. *)
Theorem force_terms_nonneg (p : MuscleParams) (batch_size : nat) (dt d : R)
    (sd st g : list R) :
  (0 <= max_isometric_force p ->
   0 <= TF.slice_states (ReluMuscle._integrate p dt d st g) 3
   /\ 0 <= TF.slice_states (ReluMuscle._get_initial_muscle_state p batch_size g) 3)
  /\ ForceSpec.kistemaker_forces_nonneg p (RigidTendonHillMuscle._integrate p dt d st g)
  /\ ForceSpec.kistemaker_forces_nonneg p
       (RigidTendonHillMuscle._get_initial_muscle_state p batch_size g)
  /\ ForceSpec.thelen_forces_nonneg p (RigidTendonHillMuscleThelen._integrate p dt d st g)
  /\ ForceSpec.thelen_forces_nonneg p
       (RigidTendonHillMuscleThelen._get_initial_muscle_state p batch_size g)
  /\ ForceSpec.compliant_forces_capped p (TF.slice_states g 0) (TF.slice_states st 1)
       (CompliantTendonHillMuscle._integrate p dt sd st g)
  /\ (forall s,
        CompliantTendonHillMuscle._get_initial_muscle_state p batch_size g = Some s ->
        ForceSpec.compliant_forces_capped p (TF.slice_states g 0)
          (CompliantTendonHillMuscle.initial_muscle_len p (TF.slice_states g 0)) s).
Proof.
  split; [| split; [| split; [| split; [| split; [| split]]]]].
  - intros HF. split; [apply ForceFacts.relu_integrate_force; exact HF |].
    unfold ReluMuscle._get_initial_muscle_state, TF.slice_states; cbn [nth]. lra.
  - apply ForceFacts.kistemaker_integrate_forces.
  - apply ForceFacts.kistemaker_integrate_forces.
  - apply ForceFacts.thelen_integrate_forces.
  - apply ForceFacts.thelen_integrate_forces.
  - apply ForceFacts.compliant_integrate_forces.
  - intros s. apply ForceFacts.compliant_initial_forces.
Qed.

Lemma force_terms_nonneg_witness :
  (0 <= 0.001 /\ 0 <= 1)
  /\ 0 <= TF.slice_states
            (RigidTendonHillMuscleThelen._integrate (default_params 0.001 1) 0.01 0
               [0.001] [2; 0]) 6.
Proof.
  split; [lra |].
  destruct (force_terms_nonneg (default_params 0.001 1) 1 0.01 0
              [0; 0] [0.001] [2; 0]) as (_ & _ & _ & (_ & _ & _ & H) & _).
  apply H; simpl; lra.
Defined.

(** A Thelen muscle with [min_activation = -1] and unit maximum isometric
    force, at its optimal length and at rest: the activation stays at -1,
    the force-length and force-velocity terms are 1 and 0 and 1, and the
    total force is -1. *)
Lemma thelen_force_negative_activation :
  let p := default_params (-1) 1 in
  let s := RigidTendonHillMuscleThelen._integrate p 0.01 0 [-1] [2; 0] in
  0 <= max_isometric_force p /\ TF.slice_states s 6 = -1 /\ ~ 0 <= TF.slice_states s 6.
Proof.
  assert (E : TF.slice_states
                (RigidTendonHillMuscleThelen._integrate (default_params (-1) 1)
                   0.01 0 [-1] [2; 0]) 6 = -1).
  { unfold RigidTendonHillMuscleThelen._integrate, TF.slice_states; cbn [nth].
    unfold RigidTendonHillMuscleThelen.ce_0, RigidTendonHillMuscleThelen.ce_1,
      RigidTendonHillMuscleThelen.ce_2, RigidTendonHillMuscleThelen.ce_3,
      RigidTendonHillMuscleThelen.ce_4, RigidTendonHillMuscleThelen.ce_5,
      RigidTendonHillMuscleThelen.ce_1, RigidTendonHillMuscleThelen.pe_1,
      RigidTendonHillMuscleThelen.pe_den, RigidTendonHillMuscleThelen.pe_k,
      RigidTendonHillMuscleThelen.ce_gamma,
      RigidTendonHillMuscleThelen.ce_Af, RigidTendonHillMuscleThelen.ce_fmlen,
      RigidTendonHillMuscleThelen.vmax, RigidTendonHillMuscleThelen.l0_pe,
      RigidTendonHillMuscleThelen.l0_se, RigidTendonHillMuscleThelen.l0_ce,
      RigidTendonHillMuscleThelen.max_iso_force.
    cbv beta iota delta [default_params min_activation optimal_muscle_length
      tendon_length normalized_slack_muscle_length max_isometric_force].
    assert (Ha : TF.clip_by_value (-1 + 0 * 0.01) (-1) 1 = -1)
      by (tf_unfold; tf_cases; lra).
    assert (Hl : TF.maximum (2 - 1) 0.001 = 1) by (tf_unfold; tf_cases; lra).
    rewrite Ha, Hl.
    replace (5 / 0.66 * (1 - 1 * 1) / 1) with 0 by lra.
    replace (- (1 / 1 - 1) ^ 2 / 0.45) with 0 by lra.
    rewrite exp_0.
    assert (Hv : TF.maximum
                   (TF.where_ (TF.leb 0 0)
                      (0.25 * (-1 * (3 * (10 * 1)) + 4 * 0 + 10 * 1))
                      ((3 * 0.25 * (10 * 1) * 1.4 - 3 * 0.25 * (10 * 1)) * -1
                       + (8 * 0.25 * 1.4 + 8 * 1.4) * 0
                       + (0.25 * 1.4 * (10 * 1) - 0.25 * (10 * 1)))
                    / TF.where_ (TF.leb 0 0)
                        (-1 * 3 * (0.25 * (10 * 1)) + 0.25 * (10 * 1) - 4 * 0)
                        ((0.25 * 1.4 * (10 * 1) - 0.25 * (10 * 1)) * (-1 * 3)
                         + 8 * (0.25 + 1) * 0
                         + (0.25 * 1.4 * (10 * 1) - 0.25 * (10 * 1)))) 0 = 1)
      by (tf_unfold; tf_cases; lra).
    rewrite Hv.
    replace ((1 - 1) / (exp 5 - 1)) with 0 by (unfold Rdiv; ring).
    assert (H0 : TF.maximum 0 0 = 0) by (tf_unfold; tf_cases; lra).
    rewrite H0. lra. }
  cbv zeta. rewrite E. simpl. repeat split; lra.
Qed.

(** ** The fiber-velocity solver of the compliant-tendon muscle *)

Module MuscleOdeFacts.
Import Hill CompliantTendonHillMuscle MuscleOdeSpec.

(** The radicand is a square plus the term that carries [p2]. *)
Lemma sqrt_term_square (n a af : R) :
  sqrt_term n a af
  = (af + p3 n a - p1 n a * p4) ^ 2 + p2_containing_term n a.
Proof. unfold sqrt_term. ring. Qed.

(** The assertion of [_muscle_ode] fails exactly on a negative radicand in
    the branch that takes its square root. *)
Lemma muscle_ode_None (n a af : R) :
  _muscle_ode n a af = None <-> (sqrt_term n a af < 0 /\ f_x_a n a <= af).
Proof.
  unfold _muscle_ode, TF.where_, TF.geb.
  destruct (TF.ltb (sqrt_term n a af) 0) eqn:E1;
    destruct (TF.leb (f_x_a n a) af) eqn:E2; cbn [andb].
  - apply TFFacts.ltb_true in E1. apply TFFacts.leb_true in E2.
    replace (TF.assert_non_negative (-1)) with (@None unit).
    + split; auto.
    + symmetry. apply TFFacts.assert_non_negative_None. lra.
  - apply TFFacts.leb_false in E2.
    replace (TF.assert_non_negative 1) with (Some tt).
    + split; [discriminate | intros [_ H]; lra].
    + symmetry. apply TFFacts.assert_non_negative_Some. lra.
  - apply TFFacts.ltb_false in E1.
    replace (TF.assert_non_negative 1) with (Some tt).
    + split; [discriminate | intros [H _]; lra].
    + symmetry. apply TFFacts.assert_non_negative_Some. lra.
  - apply TFFacts.ltb_false in E1.
    replace (TF.assert_non_negative 1) with (Some tt).
    + split; [discriminate | intros [H _]; lra].
    + symmetry. apply TFFacts.assert_non_negative_Some. lra.
Qed.

Lemma muscle_ode_Some (n a af v : R) :
  _muscle_ode n a af = Some v -> v = selected_velocity n a af.
Proof.
  unfold _muscle_ode, selected_velocity.
  destruct (TF.assert_non_negative _); [| discriminate].
  intros H; injection H as <-. reflexivity.
Qed.

Lemma muscle_ode_total (n a af : R) :
  ~ (sqrt_term n a af < 0 /\ f_x_a n a <= af) ->
  _muscle_ode n a af = Some (selected_velocity n a af).
Proof.
  intros H. destruct (_muscle_ode n a af) as [v |] eqn:E.
  - f_equal. apply muscle_ode_Some. exact E.
  - apply muscle_ode_None in E. contradiction.
Qed.

Lemma selected_linear (n a af : R) :
  af < f_x_a n a ->
  selected_velocity n a af
  = b_rel_st a * (af - f_x_a n a) / (af + a * a_rel_st n).
Proof.
  intros H. unfold selected_velocity.
  replace (TF.ltb af (f_x_a n a)) with true
    by (symmetry; apply TFFacts.ltb_true; exact H).
  reflexivity.
Qed.

Lemma selected_root (n a af : R) :
  f_x_a n a <= af -> 0 <= sqrt_term n a af ->
  selected_velocity n a af
  = (- af + p1 n a * s_as - p3 n a - sqrt (sqrt_term n a af)) / (-2 * s_as).
Proof.
  intros H Hr. unfold selected_velocity.
  replace (TF.ltb af (f_x_a n a)) with false
    by (symmetry; apply TFFacts.ltb_false; exact H).
  unfold TF.where_, TF.maximum. rewrite Rmax_left by exact Hr. reflexivity.
Qed.

End MuscleOdeFacts.

(** C1.  The solver raises exactly when the radicand is negative in the
    branch that takes its square root ([active_force >= f_x_a]); a velocity
    returned in that branch is computed from the non-negative radicand
    itself, never from one clamped to zero; and when
    [active_force < f_x_a] the solver does not raise, whatever the radicand,
    and returns the linear form. *)
Theorem muscle_ode_guard (n a af : R) :
  let fxa := CompliantTendonHillMuscle.f_x_a n a in
  let rad := CompliantTendonHillMuscle.sqrt_term n a af in
  (rad < 0 -> fxa <= af -> CompliantTendonHillMuscle._muscle_ode n a af = None)
  /\ (forall v, CompliantTendonHillMuscle._muscle_ode n a af = Some v -> fxa <= af ->
        0 <= rad
        /\ v = (- af + CompliantTendonHillMuscle.p1 n a * Hill.s_as
                - CompliantTendonHillMuscle.p3 n a - sqrt rad) / (-2 * Hill.s_as))
  /\ (af < fxa ->
      CompliantTendonHillMuscle._muscle_ode n a af
      = Some (CompliantTendonHillMuscle.b_rel_st a * (af - fxa)
              / (af + a * CompliantTendonHillMuscle.a_rel_st n))).
Proof.
  cbv zeta. split; [| split].
  - intros Hr Hf. apply MuscleOdeFacts.muscle_ode_None. split; assumption.
  - intros v Hv Hf.
    assert (Hr : 0 <= CompliantTendonHillMuscle.sqrt_term n a af).
    { destruct (Rle_dec 0 (CompliantTendonHillMuscle.sqrt_term n a af)) as [H | H];
        [exact H | exfalso].
      assert (E : CompliantTendonHillMuscle._muscle_ode n a af = None)
        by (apply MuscleOdeFacts.muscle_ode_None; split; lra).
      rewrite E in Hv. discriminate. }
    split; [exact Hr |].
    rewrite (MuscleOdeFacts.muscle_ode_Some _ _ _ _ Hv).
    apply MuscleOdeFacts.selected_root; assumption.
  - intros Hf. rewrite MuscleOdeFacts.muscle_ode_total by lra.
    rewrite MuscleOdeFacts.selected_linear by exact Hf. reflexivity.
Qed.

(** A negative radicand in the square-root branch: fiber at its optimal
    length, activation [1e-5], active force [4e-5]. *)
Lemma negative_radicand_example :
  CompliantTendonHillMuscle.sqrt_term 1 0.00001 0.00004 < 0
  /\ CompliantTendonHillMuscle.f_x_a 1 0.00001 <= 0.00004.
Proof.
  assert (Hf : CompliantTendonHillMuscle.f_iso_n 1 = 1).
  { unfold CompliantTendonHillMuscle.f_iso_n, Hill.f_iso_n_den, TF.maximum.
    rewrite Rmax_left; lra. }
  assert (Ha : CompliantTendonHillMuscle.a_rel_st 1 = 0.41).
  { unfold CompliantTendonHillMuscle.a_rel_st. tf_unfold. tf_cases; lra. }
  assert (Hb : CompliantTendonHillMuscle.b_rel_st 0.00001
               = 5.2 * (1 - 0.9 * ((0.00001 - 0.3) / (0.005 - 0.3))) ^ 2).
  { unfold CompliantTendonHillMuscle.b_rel_st, Hill.b_rel_st_den. tf_unfold.
    tf_cases; [reflexivity | lra]. }
  rewrite MuscleOdeFacts.sqrt_term_square.
  unfold CompliantTendonHillMuscle.p1, CompliantTendonHillMuscle.p3,
    CompliantTendonHillMuscle.p4, CompliantTendonHillMuscle.p2_containing_term,
    CompliantTendonHillMuscle.dfdvcon0, CompliantTendonHillMuscle.f_x_a, Hill.s_as.
  unfold CompliantTendonHillMuscle.p4, Hill.s_as.
  rewrite Hf, Ha, Hb.
  split; lra.
Qed.

Lemma muscle_ode_guard_witness :
  (CompliantTendonHillMuscle.sqrt_term 1 0.00001 0.00004 < 0
   /\ CompliantTendonHillMuscle.f_x_a 1 0.00001 <= 0.00004)
  /\ CompliantTendonHillMuscle._muscle_ode 1 0.00001 0.00004 = None.
Proof.
  split; [exact negative_radicand_example |].
  apply (proj1 (muscle_ode_guard 1 0.00001 0.00004));
    apply negative_radicand_example.
Defined.

(** On a whole tensor the solver raises as soon as one element does. *)
Lemma on_tensor_None {A B : Type} (f : A -> option B) (xs : list A) :
  on_tensor f xs = None <-> exists x, In x xs /\ f x = None.
Proof.
  induction xs as [| x xs IH]; simpl.
  - split; [discriminate | intros [x [[] _]]].
  - destruct (f x) as [y |] eqn:E.
    + destruct (on_tensor f xs) as [ys |] eqn:E'.
      * split; [discriminate |].
        intros [z [[<- | Hz] Hn]]; [congruence |].
        destruct IH as [_ IH]. discriminate IH. exists z; auto.
      * split; [intros _ | reflexivity].
        destruct IH as [IH _]. destruct (IH eq_refl) as [z [Hz Hn]].
        exists z; auto.
    + split; [intros _; exists x; auto | reflexivity].
Qed.

(** ** The equilibrium initializer of the compliant-tendon muscle *)

Module InitialStateFacts.
Import Hill CompliantTendonHillMuscle RegimeSpec.

(** Every length is in one regime, and in one only. *)
Lemma regime_unique (p : MuscleParams) (lmt : R) (r : Regime) :
  in_regime p lmt r <-> regime_of p lmt = r.
Proof.
  unfold regime_of.
  destruct (Rlt_dec lmt 0); [| destruct (Rlt_dec lmt (tendon_length p));
    [| destruct (Rlt_dec lmt (tendon_length p + l0_pe p))]];
    destruct r; simpl; split; intros H; try discriminate; try reflexivity; lra.
Qed.

Lemma initial_muscle_len_regime (p : MuscleParams) (lmt : R) :
  initial_muscle_len p lmt
  = match regime_of p lmt with
    | Invalid => -1
    | TendonOnly => 0.001 * optimal_muscle_length p
    | TendonAtSlack => lmt - tendon_length p
    | Equilibrium => equilibrium_muscle_len p lmt
    end.
Proof.
  unfold initial_muscle_len, regime_of, TF.where_, TF.ltb, l0_se.
  destruct (Rlt_dec lmt 0); [reflexivity |].
  destruct (Rlt_dec lmt (tendon_length p)); [reflexivity |].
  destruct (Rlt_dec lmt (tendon_length p + l0_pe p)); reflexivity.
Qed.

Lemma initial_state_negative_len (p : MuscleParams) (bs : nat) (g : list R) :
  initial_muscle_len p (TF.slice_states g 0) < 0 ->
  _get_initial_muscle_state p bs g = None.
Proof.
  intros H. unfold _get_initial_muscle_state.
  apply TFFacts.assert_non_negative_None in H. rewrite H. reflexivity.
Qed.

Lemma initial_state_Some (p : MuscleParams) (bs : nat) (g s : list R) :
  _get_initial_muscle_state p bs g = Some s ->
  0 <= initial_muscle_len p (TF.slice_states g 0)
  /\ TF.slice_states s 0 = min_activation p
  /\ TF.slice_states s 1 = initial_muscle_len p (TF.slice_states g 0).
Proof.
  unfold _get_initial_muscle_state.
  destruct (TF.assert_non_negative _) as [[] |] eqn:E; [| discriminate].
  apply TFFacts.assert_non_negative_Some in E.
  destruct (muscle_ode _ _ _); [| discriminate].
  intros H; injection H as <-.
  unfold TF.slice_states; cbn [nth app]. repeat split; [exact E | lra].
Qed.

(** The initializer returns a state exactly when neither assertion fires. *)
Lemma initial_state_total (p : MuscleParams) (bs : nat) (g : list R) :
  let lmt := TF.slice_states g 0 in
  let len := initial_muscle_len p lmt in
  0 <= len ->
  muscle_ode (len / l0_ce p) (1 * min_activation p)
    (TF.slice_states (initial_forces p lmt len) 2) <> None ->
  exists s, _get_initial_muscle_state p bs g = Some s.
Proof.
  cbv zeta. intros Hl Hv. unfold _get_initial_muscle_state.
  apply TFFacts.assert_non_negative_Some in Hl. rewrite Hl.
  destruct (muscle_ode _ _ _) as [v |]; [eauto | contradiction].
Qed.

Lemma balance_algebra (a b lpe lse lce lmt : R) :
  lse <> 0 -> lce <> 0 -> a * lse - b * lce <> 0 -> a * lse + b * lce <> 0 ->
  let len :=
    ((a * a) * lpe * lse ^ 2 - (b * b) * lce ^ 2 * lmt + (b * b) * lce ^ 2 * lse
     - lce * lse * (a * b) * (- lmt + lpe + lse))
    / ((a * a) * lse ^ 2 - (b * b) * lce ^ 2) in
  (b * b) * ((lmt - len - lse) / lse) ^ 2 = (a * a) * ((len - lpe) / lce) ^ 2.
Proof.
  intros Hse Hce Hm Hp. cbv zeta.
  assert (Hden : a * a * lse ^ 2 - b * b * lce ^ 2 <> 0).
  { replace (a * a * lse ^ 2 - b * b * lce ^ 2)
      with ((a * lse - b * lce) * (a * lse + b * lce)) by ring.
    apply Rmult_integral_contrapositive_currified; assumption. }
  field. repeat split; assumption.
Qed.

(** At the fiber length of the fourth regime the tendon and the passive
    fiber element pull equally: the closed form solves
    [k_se * tendon_strain ^ 2 = k_pe * fiber_strain ^ 2]. *)
Lemma equilibrium_balances (p : MuscleParams) (lmt : R) :
  l0_se p <> 0 -> l0_ce p <> 0 ->
  sqrt (k_pe p) * l0_se p - sqrt k_se * l0_ce p <> 0 ->
  sqrt (k_pe p) * l0_se p + sqrt k_se * l0_ce p <> 0 ->
  let len := equilibrium_muscle_len p lmt in
  k_se * ((lmt - len - l0_se p) / l0_se p) ^ 2
  = k_pe p * ((len - l0_pe p) / l0_ce p) ^ 2.
Proof.
  intros Hse Hce Hm Hp. cbv zeta. unfold equilibrium_muscle_len.
  assert (Hk : 0 <= k_pe p) by apply ForceFacts.k_pe_nonneg.
  assert (Hkse : 0 <= k_se) by (left; apply ForceFacts.k_se_pos).
  rewrite sqrt_mult by assumption.
  pose proof (sqrt_sqrt (k_pe p) Hk) as Ea.
  pose proof (sqrt_sqrt k_se Hkse) as Eb.
  remember (sqrt (k_pe p)) as a eqn:Da. remember (sqrt k_se) as b eqn:Db.
  clear Da Db. rewrite <- Ea, <- Eb.
  apply balance_algebra; assumption.
Qed.

End InitialStateFacts.

(** C3.  When [kpe * tendonSlackLength ^ 2 <> kse * optimalLength ^ 2], the
    third and the fourth regime agree where they meet: at
    [lmt = tendonSlackLength + passiveSlackLength] both formulas give the
    passive slack length, hence the same strains and forces. *)
Theorem initial_fiber_length_boundary (p : MuscleParams) :
  Hill.k_pe p * tendon_length p ^ 2 <> Hill.k_se * optimal_muscle_length p ^ 2 ->
  let lmt := tendon_length p + Hill.l0_pe p in
  CompliantTendonHillMuscle.slack_muscle_len p lmt = Hill.l0_pe p
  /\ CompliantTendonHillMuscle.equilibrium_muscle_len p lmt = Hill.l0_pe p
  /\ CompliantTendonHillMuscle.initial_forces p lmt
       (CompliantTendonHillMuscle.slack_muscle_len p lmt)
     = CompliantTendonHillMuscle.initial_forces p lmt
         (CompliantTendonHillMuscle.equilibrium_muscle_len p lmt).
Proof.
  intros Hne. cbv zeta.
  assert (H3 : CompliantTendonHillMuscle.slack_muscle_len p
                 (tendon_length p + Hill.l0_pe p) = Hill.l0_pe p).
  { unfold CompliantTendonHillMuscle.slack_muscle_len, Hill.l0_se. ring. }
  assert (H4 : CompliantTendonHillMuscle.equilibrium_muscle_len p
                 (tendon_length p + Hill.l0_pe p) = Hill.l0_pe p).
  { unfold CompliantTendonHillMuscle.equilibrium_muscle_len, Hill.l0_se, Hill.l0_ce.
    set (k := Hill.k_pe p) in *. set (s := sqrt (k * Hill.k_se)).
    set (lpe := Hill.l0_pe p).
    field. intros H. apply Hne. lra. }
  rewrite H3, H4. repeat split; reflexivity.
Qed.

Lemma initial_fiber_length_boundary_witness :
  Hill.k_pe (default_params 0.01 1.4) * 1 ^ 2 <> Hill.k_se * 1 ^ 2
  /\ CompliantTendonHillMuscle.equilibrium_muscle_len (default_params 0.01 1.4)
       (1 + Hill.l0_pe (default_params 0.01 1.4))
     = Hill.l0_pe (default_params 0.01 1.4).
Proof.
  assert (H : Hill.k_pe (default_params 0.01 1.4) * 1 ^ 2 <> Hill.k_se * 1 ^ 2).
  { unfold Hill.k_pe, Hill.k_se, Hill.l0_pe, Hill.l0_ce, default_params; simpl. lra. }
  split; [exact H |].
  apply (proj1 (proj2 (initial_fiber_length_boundary (default_params 0.01 1.4) H))).
Defined.

(** ** What [build] accepts *)

Module BuildFacts.
Import Build.

Lemma bind_Some {A B : Type} (m : option A) (k : A -> option B) (b : B) :
  bind m k = Some b -> exists a, m = Some a /\ k a = Some b.
Proof. destruct m as [a |]; simpl; [eauto | discriminate]. Qed.

Lemma cast_reshape_Some (x : Arg) (n : nat) (l : list R) :
  cast_reshape x n = Some l <-> x = Some l /\ length l = n.
Proof.
  unfold cast_reshape. destruct x as [l' |].
  - destruct (Nat.eqb (length l') n) eqn:E.
    + apply Nat.eqb_eq in E. split.
      * intros H; injection H as <-. auto.
      * intros [H _]. exact H.
    + apply Nat.eqb_neq in E. split; [discriminate |].
      intros [H Hn]. injection H as ->. contradiction.
  - split; [discriminate | intros [H _]; discriminate].
Qed.

Lemma map2_length (f : R -> R -> R) (a b : list R) :
  length a = length b -> length (map2 f a b) = length a.
Proof.
  revert b. induction a as [| x a IH]; intros [| y b] H; simpl in *;
    try reflexivity; try discriminate.
  f_equal. apply IH. lia.
Qed.

Lemma broadcast_Some (f : R -> R -> R) (a b r : list R) :
  broadcast f a b = Some r ->
  broadcastable (length a) (length b)
  /\ (length r = length a \/ (length a = 1%nat /\ length r = length b)).
Proof.
  unfold broadcast, broadcastable.
  destruct (Nat.eqb (length a) (length b)) eqn:E.
  - apply Nat.eqb_eq in E. intros H; injection H as H; subst r.
    rewrite map2_length by exact E. auto.
  - destruct a as [| x [| x' a]].
    + destruct b as [| y [| y' b]]; try discriminate.
      intros H; injection H as H; subst r. simpl. auto.
    + intros H; injection H as H; subst r. simpl. rewrite ?length_map. auto.
    + destruct b as [| y [| y' b]]; try discriminate.
      intros H; injection H as H; subst r. simpl. rewrite ?length_map. auto.
Qed.

Lemma broadcast_defined (f : R -> R -> R) (a b : list R) :
  broadcastable (length a) (length b) -> exists r, broadcast f a b = Some r.
Proof.
  unfold broadcast, broadcastable. intros H.
  destruct (Nat.eqb (length a) (length b)) eqn:E; [eauto |].
  apply Nat.eqb_neq in E.
  destruct H as [H | [H | H]]; [contradiction | |].
  - destruct a as [| x [| x' a]]; try discriminate. eauto.
  - destruct b as [| y [| y' b]]; try discriminate.
    destruct a as [| x [| x' a]]; eauto.
Qed.

Lemma broadcast_arg_Some (f : R -> R -> R) (a : list R) (b : Arg) (r : list R) :
  broadcast_arg f a b = Some r -> exists l, b = Some l /\ broadcast f a l = Some r.
Proof. destruct b as [l |]; simpl; [eauto | discriminate]. Qed.

(** A tensor that came out of a broadcast against a tensor of [n] elements
    broadcasts against any tensor of [n] elements. *)
Lemma broadcast_again (f h : R -> R -> R) (a b r c : list R) :
  broadcast f a b = Some r -> length c = length a ->
  exists r', broadcast h r c = Some r'.
Proof.
  intros H Hc. apply broadcast_Some in H. destruct H as [_ H].
  apply broadcast_defined. unfold broadcastable. rewrite Hc.
  destruct H as [H | [H _]]; auto.
Qed.

Lemma present_Some (x : Arg) : present x <-> exists l, x = Some l.
Proof.
  unfold present. destruct x as [l |]; split; intros H; eauto; try congruence.
  destruct H as [l H]. discriminate.
Qed.

Ltac invert_build H :=
  repeat match type of H with
    | bind _ _ = Some _ =>
        let a := fresh "t" in let Ha := fresh "E" in
        apply bind_Some in H; destruct H as [a [Ha H]];
        first [ apply cast_reshape_Some in Ha; destruct Ha as [Ha ?]
              | apply broadcast_arg_Some in Ha;
                let l := fresh "l" in let Hl := fresh "El" in
                destruct Ha as [l [Hl Ha]]; apply broadcast_Some in Ha;
                destruct Ha as [Ha ?]
              | idtac ]
    end.

Lemma accepted_of_parts (F tl ol ns : Arg) (f t o s : list R) :
  F = Some f -> tl = Some t -> ol = Some o -> ns = Some s ->
  length f = np_size tl -> length t = np_size tl -> length o = np_size tl ->
  broadcastable (length o) (length s) ->
  hill_args_accepted F tl ol ns.
Proof.
  intros -> -> -> -> Hf Ht Ho Hb. unfold hill_args_accepted, present; simpl in *.
  repeat split; try congruence.
Qed.

Lemma kistemaker_build_Some (ts : R) (F tl ol ns : Arg) (b : Attrs) :
  RigidTendonHillMuscle_build ts F tl ol ns = Some b -> hill_args_accepted F tl ol ns.
Proof.
  unfold RigidTendonHillMuscle_build. intros H. invert_build H.
  eapply accepted_of_parts; eauto.
Qed.

Lemma thelen_build_Some (ts : R) (F tl ol ns : Arg) (b : Attrs) :
  RigidTendonHillMuscleThelen_build ts F tl ol ns = Some b ->
  hill_args_accepted F tl ol ns.
Proof.
  unfold RigidTendonHillMuscleThelen_build. intros H. invert_build H.
  eapply accepted_of_parts; eauto.
Qed.

Lemma compliant_build_Some (ts : R) (F tl ol ns : Arg) (b : Attrs) :
  CompliantTendonHillMuscle_build ts F tl ol ns = Some b ->
  hill_args_accepted F tl ol ns.
Proof.
  unfold CompliantTendonHillMuscle_build. intros H. invert_build H.
  eapply accepted_of_parts; eauto.
Qed.

Lemma cast_reshape_ok (l : list R) (n : nat) :
  length l = n -> cast_reshape (Some l) n = Some l.
Proof. intros H. apply cast_reshape_Some. auto. Qed.

Lemma accepted_parts (F tl ol ns : Arg) :
  hill_args_accepted F tl ol ns ->
  exists f t o s,
    F = Some f /\ tl = Some t /\ ol = Some o /\ ns = Some s
    /\ length f = length t /\ length o = length t
    /\ broadcastable (length o) (length s).
Proof.
  unfold hill_args_accepted. intros (HF & Ht & Ho & Hs & Hf & Hol & Hb).
  apply present_Some in HF, Ht, Ho, Hs.
  destruct HF as [f ->], Ht as [t ->], Ho as [o ->], Hs as [s ->].
  simpl in *. exists f, t, o, s. rewrite Hol. auto 10.
Qed.

Lemma kistemaker_build_defined (ts : R) (F tl ol ns : Arg) :
  hill_args_accepted F tl ol ns ->
  exists b, RigidTendonHillMuscle_build ts F tl ol ns = Some b.
Proof.
  intros H. apply accepted_parts in H.
  destruct H as (f & t & o & s & -> & -> & -> & -> & Hf & Ho & Hb).
  unfold RigidTendonHillMuscle_build, np_size.
  rewrite !cast_reshape_ok by (first [assumption | reflexivity]).
  cbn [bind broadcast_arg].
  destruct (broadcast_defined Rmult o s Hb) as [pe Epe]. rewrite Epe. cbn [bind].
  destruct (broadcast_again Rmult Rdiv o s pe o Epe eq_refl) as [ra Era].
  rewrite Era. cbn [bind].
  destruct (broadcast_again Rmult Rplus o s pe t Epe (eq_sym Ho)) as [sl Esl].
  rewrite Esl. cbn [bind]. eauto.
Qed.

Lemma thelen_build_defined (ts : R) (F tl ol ns : Arg) :
  hill_args_accepted F tl ol ns ->
  exists b, RigidTendonHillMuscleThelen_build ts F tl ol ns = Some b.
Proof.
  intros H. apply accepted_parts in H.
  destruct H as (f & t & o & s & -> & -> & -> & -> & Hf & Ho & Hb).
  unfold RigidTendonHillMuscleThelen_build, np_size.
  rewrite !cast_reshape_ok by (first [assumption | reflexivity]).
  cbn [bind broadcast_arg].
  destruct (broadcast_defined Rmult o s Hb) as [pe Epe]. rewrite Epe. cbn [bind].
  destruct (broadcast_again Rmult Rplus o s pe t Epe (eq_sym Ho)) as [sl Esl].
  rewrite Esl. cbn [bind]. eauto.
Qed.

Lemma compliant_build_defined (ts : R) (F tl ol ns : Arg) :
  hill_args_accepted F tl ol ns ->
  exists b, CompliantTendonHillMuscle_build ts F tl ol ns = Some b.
Proof.
  intros H. apply accepted_parts in H.
  destruct H as (f & t & o & s & -> & -> & -> & -> & Hf & Ho & Hb).
  unfold CompliantTendonHillMuscle_build, np_size.
  rewrite !cast_reshape_ok by (first [assumption | reflexivity]).
  cbn [bind broadcast_arg].
  destruct (broadcast_defined Rmult o s Hb) as [pe Epe]. rewrite Epe. cbn [bind].
  destruct (broadcast_again Rmult Rplus o s pe t Epe (eq_sym Ho)) as [sl Esl].
  rewrite Esl. cbn [bind].
  destruct (broadcast_again Rmult Rdiv o s pe o Epe eq_refl) as [ra Era].
  rewrite Era. cbn [bind]. eauto.
Qed.

(** A [build] raises exactly on the arguments it does not accept. *)
Lemma build_None_iff (build : Arg -> Arg -> Arg -> Arg -> option Attrs)
    (F tl ol ns : Arg) :
  (forall b, build F tl ol ns = Some b -> hill_args_accepted F tl ol ns) ->
  (hill_args_accepted F tl ol ns -> exists b, build F tl ol ns = Some b) ->
  (build F tl ol ns = None <-> ~ hill_args_accepted F tl ol ns).
Proof.
  intros H1 H2. destruct (build F tl ol ns) as [b |] eqn:E.
  - split; [discriminate |]. intros Hn. exfalso. apply Hn. eapply H1. reflexivity.
  - split; [| reflexivity]. intros _ Ha. destruct (H2 Ha) as [b Hb]. discriminate.
Qed.

Lemma muscle_build_None (ts : R) (F : Arg) :
  Muscle_build ts F = None <-> F = None.
Proof.
  unfold Muscle_build. destruct F as [f |]; simpl.
  - rewrite Nat.eqb_refl. simpl. split; discriminate.
  - split; reflexivity.
Qed.

End BuildFacts.

(** C6.  [ReluMuscle.build] raises exactly when [max_isometric_force] is
    missing.  The [build] of each Hill muscle raises, at build time, exactly
    when one of its four arguments is missing, or [max_isometric_force] or
    [optimal_muscle_length] has not the size of [tendon_length], or
    [normalized_slack_muscle_length] does not broadcast against it (same
    size, or one of the two of size 1); in particular it raises when
    [max_isometric_force] and [tendon_length] have different sizes. *)
Theorem build_raises_on_rejected_arguments (ts : R) (F tl ol ns : Build.Arg) :
  (Build.Muscle_build ts F = None <-> F = None)
  /\ (Build.RigidTendonHillMuscle_build ts F tl ol ns = None
      <-> ~ Build.hill_args_accepted F tl ol ns)
  /\ (Build.RigidTendonHillMuscleThelen_build ts F tl ol ns = None
      <-> ~ Build.hill_args_accepted F tl ol ns)
  /\ (Build.CompliantTendonHillMuscle_build ts F tl ol ns = None
      <-> ~ Build.hill_args_accepted F tl ol ns)
  /\ (F = None \/ tl = None \/ ol = None \/ ns = None
      \/ Build.np_size F <> Build.np_size tl
      \/ Build.np_size ol <> Build.np_size tl ->
      Build.RigidTendonHillMuscle_build ts F tl ol ns = None
      /\ Build.RigidTendonHillMuscleThelen_build ts F tl ol ns = None
      /\ Build.CompliantTendonHillMuscle_build ts F tl ol ns = None).
Proof.
  assert (Hk := BuildFacts.build_None_iff (Build.RigidTendonHillMuscle_build ts)
                  F tl ol ns (BuildFacts.kistemaker_build_Some ts F tl ol ns)
                  (BuildFacts.kistemaker_build_defined ts F tl ol ns)).
  assert (Ht := BuildFacts.build_None_iff (Build.RigidTendonHillMuscleThelen_build ts)
                  F tl ol ns (BuildFacts.thelen_build_Some ts F tl ol ns)
                  (BuildFacts.thelen_build_defined ts F tl ol ns)).
  assert (Hc := BuildFacts.build_None_iff (Build.CompliantTendonHillMuscle_build ts)
                  F tl ol ns (BuildFacts.compliant_build_Some ts F tl ol ns)
                  (BuildFacts.compliant_build_defined ts F tl ol ns)).
  split; [apply BuildFacts.muscle_build_None |].
  split; [exact Hk |]. split; [exact Ht |]. split; [exact Hc |].
  intros H.
  assert (Hn : ~ Build.hill_args_accepted F tl ol ns).
  { unfold Build.hill_args_accepted, Build.present.
    intros (HF & Htl & Ho & Hs & Hf & Hol & _).
    destruct H as [H | [H | [H | [H | [H | H]]]]]; contradiction. }
  split; [apply Hk; exact Hn | split; [apply Ht; exact Hn | apply Hc; exact Hn]].
Qed.

Lemma build_raises_on_rejected_arguments_witness :
  (Some [1; 2] = None \/ Some [1] = None \/ Some [1] = None \/ Some [1.4] = None
   \/ Build.np_size (Some [1; 2]) <> Build.np_size (Some [1])
   \/ Build.np_size (Some [1]) <> Build.np_size (Some [1]))
  /\ Build.RigidTendonHillMuscle_build 0.01
       (Some [1; 2]) (Some [1]) (Some [1]) (Some [1.4]) = None.
Proof.
  assert (H : Some [1; 2] = None \/ Some [1] = None \/ Some [1] = None
              \/ Some [1.4] = None
              \/ Build.np_size (Some [1; 2]) <> Build.np_size (Some [1])
              \/ Build.np_size (Some [1]) <> Build.np_size (Some [1])).
  { right; right; right; right; left. simpl. discriminate. }
  split; [exact H |].
  apply (proj2 (proj2 (proj2 (proj2
           (build_raises_on_rejected_arguments 0.01
              (Some [1; 2]) (Some [1]) (Some [1]) (Some [1.4])))))).
  exact H.
Defined.

(** One muscle and a [normalized_slack_muscle_length] of three elements:
    the sizes disagree, and [build] returns, having broadcast the slack
    length of the one muscle to three. *)
Lemma build_broadcasts_slack_length :
  let F := Some [1] in
  let tl := Some [1] in
  let ol := Some [1] in
  let ns := Some [1.4; 1.4; 1.4] in
  ~ Build.sizes_agree F tl ol ns
  /\ exists b, Build.RigidTendonHillMuscle_build 0.01 F tl ol ns = Some b
               /\ Build.n_muscles b = 1%nat
               /\ length (Build.l0_pe b) = 3%nat.
Proof.
  cbv zeta. split.
  - unfold Build.sizes_agree; simpl. intros (_ & _ & H). discriminate.
  - eexists. split; [reflexivity |]. split; reflexivity.
Qed.

(** * Further properties of the muscle models *)

(** ** Activation dynamics, one Euler step *)

Module StepFacts.

Lemma clip_idempotent (t lo hi : R) :
  TF.clip_by_value (TF.clip_by_value t lo hi) lo hi = TF.clip_by_value t lo hi.
Proof. tf_unfold. tf_cases; lra. Qed.

Lemma clip_range (t lo : R) : lo <= 1 -> lo <= TF.clip_by_value t lo 1 <= 1.
Proof.
  intros H; split; [apply TFFacts.clip_lower | apply TFFacts.clip_upper; exact H].
Qed.

(** The time constant is positive on the range of the activation. *)
Lemma tau_pos (p : MuscleParams) (e a : R) :
  - (1 / 3) < min_activation p ->
  0 < tau_activation p -> 0 < tau_deactivation p ->
  min_activation p <= a ->
  0 < (if Rlt_dec a e then tau_activation p * (0.5 + 1.5 * a)
       else tau_deactivation p / (0.5 + 1.5 * a)).
Proof.
  intros Hm Hta Htd Ha. assert (Hs : 0 < 0.5 + 1.5 * a) by lra.
  destruct (Rlt_dec a e).
  - apply Rmult_lt_0_compat; assumption.
  - apply Rdiv_lt_0_compat; assumption.
Qed.

Lemma div_pos_sign (x t : R) :
  0 < t -> (0 <= x -> 0 <= x / t) /\ (x <= 0 -> x / t <= 0) /\ (0 < x -> 0 < x / t).
Proof.
  intros Ht. assert (Hi : 0 < / t) by (apply Rinv_0_lt_compat; exact Ht).
  unfold Rdiv. repeat split; intros Hx; nra.
Qed.

(** The derivative has the sign of [excitation - activation], the
    excitation clamped. *)
Lemma ode_sign (p : MuscleParams) (e a : R) :
  - (1 / 3) < min_activation p -> min_activation p <= 1 ->
  0 < tau_activation p -> 0 < tau_deactivation p ->
  min_activation p <= a <= 1 ->
  let e' := TF.clip_by_value e (min_activation p) 1 in
  (a <= e' -> 0 <= Muscle._activation_ode p e a)
  /\ (e' <= a -> Muscle._activation_ode p e a <= 0)
  /\ (a < e' -> 0 < Muscle._activation_ode p e a).
Proof.
  intros Hm H1 Hta Htd Ha. cbv zeta.
  unfold Muscle._activation_ode.
  rewrite (TFFacts.clip_id a) by exact Ha.
  set (e' := TF.clip_by_value e (min_activation p) 1).
  assert (Ht : 0 < TF.where_ (TF.gtb e' a) (tau_activation p * (0.5 + 1.5 * a))
                     (tau_deactivation p / (0.5 + 1.5 * a))).
  { pose proof (tau_pos p e' a Hm Hta Htd (proj1 Ha)) as H.
    unfold TF.where_, TF.gtb, TF.ltb. destruct (Rlt_dec a e'); exact H. }
  destruct (div_pos_sign (e' - a) _ Ht) as (P1 & P2 & P3).
  repeat split; intros H; [apply P1 | apply P2 | apply P3]; lra.
Qed.

(** One explicit Euler step followed by the clip. *)
Lemma step_direction (a d dt lo : R) :
  lo <= a <= 1 -> 0 <= dt ->
  let a' := TF.clip_by_value (a + d * dt) lo 1 in
  (0 <= d -> a <= a') /\ (d <= 0 -> a' <= a)
  /\ (0 < d -> 0 < dt -> a < 1 -> a < a').
Proof.
  intros Ha Hdt. cbv zeta. repeat split; intros Hd.
  - assert (0 <= d * dt) by (apply Rmult_le_pos; assumption).
    tf_unfold. tf_cases; lra.
  - assert (d * dt <= 0) by nra.
    tf_unfold. tf_cases; lra.
  - intros Hp Hlt. assert (0 < d * dt) by (apply Rmult_lt_0_compat; assumption).
    tf_unfold. tf_cases; lra.
Qed.

End StepFacts.

(** X1.  Inputs outside [[min_activation, 1]] act like the nearest bound:
    the activation derivative of an excitation and an activation is that of
    their clamped values. *)
Theorem activation_ode_clamps_inputs (p : MuscleParams) (e a : R) :
  Muscle._activation_ode p e a
  = Muscle._activation_ode p (TF.clip_by_value e (min_activation p) 1)
      (TF.clip_by_value a (min_activation p) 1).
Proof.
  unfold Muscle._activation_ode. rewrite !StepFacts.clip_idempotent. reflexivity.
Qed.

(** X2.  One step of the activation dynamics, [update_ode] then
    [integrate], moves the activation towards the clamped excitation and
    never away from it: with [min_activation] in [(-1/3, 1]], positive time
    constants, a time step [dt >= 0] and a previous activation in
    [[min_activation, 1]], the new activation is not below the old one when
    the excitation is at or above it, not above when it is at or below,
    unchanged when they are equal, and strictly above when the excitation is
    above, [dt > 0] and the activation is below 1.  The three muscles that
    use [Muscle.update_ode] share this activation channel. *)
Theorem activation_step_towards_excitation (p : MuscleParams) (e dt : R)
    (st g : list R) :
  - (1 / 3) < min_activation p -> min_activation p <= 1 ->
  0 < tau_activation p -> 0 < tau_deactivation p ->
  0 <= dt ->
  min_activation p <= TF.slice_states st 0 <= 1 ->
  let a := TF.slice_states st 0 in
  let e' := TF.clip_by_value e (min_activation p) 1 in
  let d := Muscle.update_ode p e st in
  let a' := TF.slice_states (ReluMuscle._integrate p dt d st g) 0 in
  TF.slice_states (RigidTendonHillMuscle._integrate p dt d st g) 0 = a'
  /\ TF.slice_states (RigidTendonHillMuscleThelen._integrate p dt d st g) 0 = a'
  /\ (a <= e' -> a <= a')
  /\ (e' <= a -> a' <= a)
  /\ (e' = a -> a' = a)
  /\ (a < e' -> 0 < dt -> a < 1 -> a < a').
Proof.
  intros Hm H1 Hta Htd Hdt Ha. cbv zeta.
  rewrite IntegrateFacts.relu_activation.
  split; [reflexivity |]. split; [reflexivity |].
  unfold Muscle.update_ode.
  destruct (StepFacts.ode_sign p e _ Hm H1 Hta Htd Ha) as (S1 & S2 & S3).
  destruct (StepFacts.step_direction (TF.slice_states st 0)
              (Muscle._activation_ode p e (TF.slice_states st 0)) dt
              (min_activation p) Ha Hdt) as (D1 & D2 & D3).
  split; [intros H; apply D1, S1, H |].
  split; [intros H; apply D2, S2, H |].
  split.
  - intros H. apply Rle_antisym; [apply D2, S2 | apply D1, S1]; lra.
  - intros H Hp Hlt. apply D3; [apply S3, H | exact Hp | exact Hlt].
Qed.

Lemma activation_step_towards_excitation_witness :
  (- (1 / 3) < 0 /\ 0 <= 1 /\ 0 < 0.015 /\ 0 < 0.05 /\ 0 <= 0.01
   /\ 0 <= TF.slice_states [0.5; 1; 0; 0.5] 0 <= 1
   /\ TF.slice_states [0.5; 1; 0; 0.5] 0 <= TF.clip_by_value 1 0 1)
  /\ TF.slice_states [0.5; 1; 0; 0.5] 0
     <= TF.slice_states
          (ReluMuscle._integrate (default_params 0 1.4) 0.01
             (Muscle.update_ode (default_params 0 1.4) 1 [0.5; 1; 0; 0.5])
             [0.5; 1; 0; 0.5] [1; 0]) 0.
Proof.
  assert (H : 0 <= TF.slice_states [0.5; 1; 0; 0.5] 0 <= 1)
    by (unfold TF.slice_states; simpl; lra).
  assert (He : TF.slice_states [0.5; 1; 0; 0.5] 0 <= TF.clip_by_value 1 0 1)
    by (tf_unfold; simpl; tf_cases; lra).
  split; [repeat split; try lra; try apply H; exact He |].
  apply (proj1 (proj2 (proj2
           (activation_step_towards_excitation (default_params 0 1.4) 1 0.01
              [0.5; 1; 0; 0.5] [1; 0]
              ltac:(simpl; lra) ltac:(simpl; lra) ltac:(simpl; lra)
              ltac:(simpl; lra) ltac:(lra) H)))).
  exact He.
Defined.

(** ** The degenerate muscle *)

(** X3.  The force of [ReluMuscle] after [integrate] is
    [max (activation, 0) * max_iso_force] of the new activation, the
    geometry is copied into the state, and, with a non-negative maximum
    isometric force and [min_activation <= 1], the force is between 0 and
    the maximum isometric force; with [0 <= min_activation] it is the
    activation times the maximum isometric force. *)
Theorem relu_force_bounded (p : MuscleParams) (dt d : R) (st g : list R) :
  0 <= max_isometric_force p -> min_activation p <= 1 ->
  let s := ReluMuscle._integrate p dt d st g in
  TF.slice_states s 1 = TF.slice_states g 0
  /\ TF.slice_states s 2 = TF.slice_states g 1
  /\ TF.slice_states s 3 = Rmax (TF.slice_states s 0) 0 * max_isometric_force p
  /\ 0 <= TF.slice_states s 3 <= max_isometric_force p
  /\ (0 <= min_activation p ->
      TF.slice_states s 3 = TF.slice_states s 0 * max_isometric_force p).
Proof.
  intros HF Hm. cbv zeta.
  pose proof (IntegrateFacts.clip_in_range
                (TF.slice_states st 0 + d * dt) (min_activation p) Hm) as Ha.
  remember (TF.clip_by_value (TF.slice_states st 0 + d * dt) (min_activation p) 1)
    as a eqn:Da.
  assert (E : ReluMuscle._integrate p dt d st g
              = [a; TF.slice_states g 0; TF.slice_states g 1;
                 Rmax a 0 * max_isometric_force p])
    by (rewrite Da; reflexivity).
  rewrite E. unfold TF.slice_states; cbn [nth].
  split; [reflexivity |]. split; [reflexivity |]. split; [reflexivity |].
  split.
  - split.
    + apply Rmult_le_pos; [apply Rmax_r | exact HF].
    + assert (Hr : Rmax a 0 <= 1) by (apply Rmax_lub; lra).
      assert (H0 : 0 <= Rmax a 0) by apply Rmax_r. nra.
  - intros H0. rewrite Rmax_left by lra. reflexivity.
Qed.

Lemma relu_force_bounded_witness :
  (0 <= 1 /\ 0 <= 1)
  /\ 0 <= TF.slice_states
            (ReluMuscle._integrate (default_params 0 1.4) 0.01 20 [0.5; 1; 0; 0.5] [1; 0]) 3
     <= 1.
Proof.
  split; [lra |].
  apply (proj1 (proj2 (proj2 (proj2
           (relu_force_bounded (default_params 0 1.4) 0.01 20 [0.5; 1; 0; 0.5] [1; 0]
              ltac:(simpl; lra) ltac:(simpl; lra)))))).
Defined.

(** X4.  Unlike the rigid-tendon muscles, [ReluMuscle] does not start from
    an [integrate] step: its initial state has the activation, length and
    velocity that [integrate] gives for a zero derivative and the activation
    [min_activation], but the force 0; the two states are the same exactly
    when [max (min_activation, 0) * max_iso_force] is 0. *)
Theorem relu_initial_state_force_zero (p : MuscleParams) (batch_size : nat)
    (dt : R) (g : list R) :
  let init := ReluMuscle._get_initial_muscle_state p batch_size g in
  let s := ReluMuscle._integrate p dt 0 [min_activation p] g in
  TF.slice_states init 0 = TF.slice_states s 0
  /\ TF.slice_states init 1 = TF.slice_states s 1
  /\ TF.slice_states init 2 = TF.slice_states s 2
  /\ TF.slice_states init 3 = 0
  /\ length init = 4%nat
  /\ (init = s <-> Rmax (min_activation p) 0 * max_isometric_force p = 0).
Proof.
  cbv zeta.
  assert (Ha : TF.clip_by_value (TF.slice_states [min_activation p] 0 + 0 * dt)
                 (min_activation p) 1 = min_activation p).
  { unfold TF.slice_states; cbn [nth].
    replace (min_activation p + 0 * dt) with (min_activation p) by lra.
    apply TFFacts.clip_idem_low. }
  assert (E : ReluMuscle._integrate p dt 0 [min_activation p] g
              = [min_activation p; TF.slice_states g 0; TF.slice_states g 1;
                 Rmax (min_activation p) 0 * max_isometric_force p]).
  { unfold ReluMuscle._integrate. rewrite Ha. reflexivity. }
  rewrite E. unfold ReluMuscle._get_initial_muscle_state.
  unfold TF.slice_states at 1 3 4 5 6 7 8; cbn [nth length].
  split; [lra |]. split; [reflexivity |]. split; [reflexivity |].
  split; [reflexivity |]. split; [reflexivity |].
  split.
  - intros H. injection H as _ H. symmetry. exact H.
  - intros H. rewrite H. f_equal. lra.
Qed.

(** ** The Kistemaker force-length and force-velocity curves *)

Module CurveFacts.
Import Hill CompliantTendonHillMuscle.

Lemma integrate_active_force (p : MuscleParams) (dt d : R) (st g : list R) :
  let s := RigidTendonHillMuscle._integrate p dt d st g in
  TF.slice_states s 5
  = KistemakerCurve.active_force (TF.slice_states s 1 / l0_ce p) (TF.slice_states s 0)
      (TF.slice_states g 1 / vmax p)
  /\ TF.slice_states s 4 = f_iso_n (TF.slice_states s 1 / l0_ce p).
Proof. split; reflexivity. Qed.

Lemma f_iso_n_bounds (n : R) : 0.01 <= f_iso_n n <= 1.
Proof.
  unfold f_iso_n, TF.maximum, f_iso_n_den. split; [apply Rmax_r |].
  apply Rmax_lub; [| lra].
  assert (H : (- n ^ 2 + 2 * n - 1) / 0.66 ^ 2 <= 0).
  { assert (Hn : - n ^ 2 + 2 * n - 1 <= 0)
      by (pose proof (pow2_ge_0 (n - 1)) as Hq; replace ((n - 1) ^ 2) with (n ^ 2 - 2 * n + 1) in Hq by ring; lra).
    assert (Hd : 0 < / 0.66 ^ 2) by (apply Rinv_0_lt_compat, pow_lt; lra).
    unfold Rdiv. nra. }
  lra.
Qed.

Lemma f_iso_n_optimal : f_iso_n 1 = 1.
Proof.
  unfold f_iso_n, f_iso_n_den, TF.maximum. rewrite Rmax_left; lra.
Qed.

Lemma a_rel_st_pos (n : R) : 0 < a_rel_st n.
Proof.
  pose proof (f_iso_n_bounds n) as H.
  unfold a_rel_st, TF.where_. destruct (TF.gtb n 1); lra.
Qed.

Lemma b_rel_st_pos (a : R) : 0 < a -> 0 < b_rel_st a.
Proof.
  intros Ha. unfold b_rel_st, TF.where_, b_rel_st_den.
  destruct (TF.ltb a 0.3) eqn:E; [| lra].
  apply TFFacts.ltb_true in E.
  assert (Ht : 0 < 1 - 0.9 * ((a - 0.3) / (0.005 - 0.3))) by lra.
  assert (0 < (1 - 0.9 * ((a - 0.3) / (0.005 - 0.3))) ^ 2)
    by (apply ForceFacts.pow_lt_0_sqr; lra).
  lra.
Qed.

(** The quantities of [KistemakerCurve.active_force] are those of the
    fiber-velocity solver. *)
Lemma active_force_shortening (n a v : R) :
  v < 0 ->
  KistemakerCurve.active_force n a v
  = Rmax ((v * a * a_rel_st n + f_iso_n n * a * b_rel_st a) / (b_rel_st a - v)) 0.
Proof.
  intros Hv. unfold KistemakerCurve.active_force.
  replace (TF.ltb v 0) with true by (symmetry; apply TFFacts.ltb_true; exact Hv).
  reflexivity.
Qed.

Lemma active_force_lengthening (n a v : R) :
  0 <= v ->
  let u := f_x_a n a * 0.5 in
  let D := s_as - dfdvcon0 n a * 2 in
  KistemakerCurve.active_force n a v
  = Rmax ((- (- u / D) * (- 1.5 * f_iso_n n * a) - (- u / D) * (- s_as) * v
           + u ^ 2 / D - (- 1.5 * f_iso_n n * a) * v - (- s_as) * v ^ 2)
          / (- u / D + v)) 0.
Proof.
  intros Hv. cbv zeta. unfold KistemakerCurve.active_force.
  replace (TF.ltb v 0) with false by (symmetry; apply TFFacts.ltb_false; exact Hv).
  reflexivity.
Qed.

(** The algebra of the shortening branch: the solver's linear form undoes
    the hyperbola. *)
Lemma shortening_inverse (f a v arel b : R) :
  b - v <> 0 -> a <> 0 -> b <> 0 -> f + arel <> 0 ->
  let F := (v * a * arel + f * a * b) / (b - v) in
  b * (F - f * a) / (F + a * arel) = v
  /\ F - f * a = v * (a * arel + f * a) / (b - v).
Proof.
  intros H1 H2 H3 H4. cbv zeta.
  assert (H5 : v * a * arel + f * a * b + a * arel * (b - v) <> 0).
  { replace (v * a * arel + f * a * b + a * arel * (b - v))
      with (a * (b * (f + arel))) by ring.
    repeat apply Rmult_integral_contrapositive_currified; assumption. }
  split; field; auto.
Qed.

(** The algebra of the lengthening branch, with [p1 = - u / D],
    [p3 = - 3 u], [p4 = - s] and [p2 = u ^ 2 / D]. *)
Lemma lengthening_inverse (u D s v : R) :
  D <> 0 -> - u / D + v <> 0 -> s <> 0 ->
  let p1 := - u / D in
  let F := (- p1 * (- (3 * u)) - p1 * (- s) * v + u ^ 2 / D - (- (3 * u)) * v
            - (- s) * v ^ 2) / (p1 + v) in
  let G := (s * (v + p1) ^ 2 + p1 * u) / (p1 + v) in
  (F + (- (3 * u)) - p1 * (- s)) ^ 2 + (4 * u ^ 2 * (- s)) / D = G ^ 2
  /\ (- F + p1 * s - (- (3 * u)) - G) / (-2 * s) = v
  /\ F - 2 * u = v * (s * v + p1 * s + u) / (p1 + v).
Proof.
  intros HD Hp Hs. cbv zeta.
  assert (Hp' : - u + v * D <> 0).
  { intros H. apply Hp. field_simplify_eq; [| exact HD]. lra. }
  repeat split; field; repeat split; auto.
Qed.

End CurveFacts.

(** X5.  In [RigidTendonHillMuscle] the active force-length term lies in
    [[0.01, 1]] and is 1 at the optimal fiber length; the passive term lies
    in [[0, 3]] and is 0 as long as the fiber is not longer than its slack
    length. *)
Theorem kistemaker_force_length_bounds (p : MuscleParams) (dt d : R) (st g : list R) :
  0 < optimal_muscle_length p ->
  let s := RigidTendonHillMuscle._integrate p dt d st g in
  0.01 <= TF.slice_states s 4 <= 1
  /\ 0 <= TF.slice_states s 3 <= 3
  /\ (TF.slice_states g 0 = tendon_length p + optimal_muscle_length p ->
      TF.slice_states s 4 = 1)
  /\ (TF.slice_states s 1 <= Hill.l0_pe p -> TF.slice_states s 3 = 0).
Proof.
  intros Hl. cbv zeta.
  destruct (CurveFacts.integrate_active_force p dt d st g) as [_ E4]. cbv zeta in E4.
  rewrite E4.
  split; [apply CurveFacts.f_iso_n_bounds |].
  split; [apply (ForceFacts.capped_quadratic (Hill.k_pe p)), ForceFacts.k_pe_nonneg |].
  split.
  - intros Hg.
    change (TF.slice_states (RigidTendonHillMuscle._integrate p dt d st g) 1)
      with (Rmax (TF.slice_states g 0 - tendon_length p) 0).
    rewrite Hg.
    replace (tendon_length p + optimal_muscle_length p - tendon_length p)
      with (optimal_muscle_length p) by ring.
    rewrite Rmax_left by lra. unfold Hill.l0_ce.
    replace (optimal_muscle_length p / optimal_muscle_length p) with 1
      by (field; lra).
    apply CurveFacts.f_iso_n_optimal.
  - change (TF.slice_states (RigidTendonHillMuscle._integrate p dt d st g) 3)
      with (TF.minimum
              (Hill.k_pe p
               * TF.maximum
                   ((TF.slice_states (RigidTendonHillMuscle._integrate p dt d st g) 1
                     - Hill.l0_pe p) / Hill.l0_ce p) 0 ^ 2) 3).
    intros Hs.
    assert (Hq : (TF.slice_states (RigidTendonHillMuscle._integrate p dt d st g) 1
                  - Hill.l0_pe p) / Hill.l0_ce p <= 0).
    { unfold Hill.l0_ce, Rdiv.
      assert (0 < / optimal_muscle_length p) by (apply Rinv_0_lt_compat; exact Hl).
      nra. }
    unfold TF.maximum, TF.minimum. rewrite Rmax_right by exact Hq.
    replace (Hill.k_pe p * 0 ^ 2) with 0 by ring.
    apply Rmin_left. lra.
Qed.

Lemma kistemaker_force_length_bounds_witness :
  0 < 1
  /\ 0.01 <= TF.slice_states
               (RigidTendonHillMuscle._integrate (default_params 0.001 1.4) 0.01 0
                  [0.001] [2.3; 0.1]) 4 <= 1.
Proof.
  split; [lra |].
  apply (proj1 (kistemaker_force_length_bounds (default_params 0.001 1.4) 0.01 0
                  [0.001] [2.3; 0.1] ltac:(simpl; lra))).
Defined.

(** X6.  At zero velocity the Kistemaker muscle is at its isometric point:
    the active force is the force-length term times the activation and the
    total force is [(flce * activation + flpe) * max_iso_force], provided
    [min_activation] is positive and the slope term [dfdvcon0] is not
    [s_as / 2], where the curve divides by zero. *)
Theorem kistemaker_isometric_force (p : MuscleParams) (dt d : R) (st g : list R) :
  let s := RigidTendonHillMuscle._integrate p dt d st g in
  let a := TF.slice_states s 0 in
  let n := TF.slice_states s 1 / Hill.l0_ce p in
  0 < min_activation p ->
  TF.slice_states g 1 = 0 ->
  Hill.s_as - CompliantTendonHillMuscle.dfdvcon0 n a * 2 <> 0 ->
  TF.slice_states s 5 = TF.slice_states s 4 * a
  /\ TF.slice_states s 6
     = (TF.slice_states s 4 * a + TF.slice_states s 3) * max_isometric_force p.
Proof.
  cbv zeta. intros Hm Hv HD.
  destruct (CurveFacts.integrate_active_force p dt d st g) as [E5 E4].
  cbv zeta in E5, E4.
  assert (E6 : TF.slice_states (RigidTendonHillMuscle._integrate p dt d st g) 6
               = (TF.slice_states (RigidTendonHillMuscle._integrate p dt d st g) 5
                  + TF.slice_states (RigidTendonHillMuscle._integrate p dt d st g) 3)
                 * max_isometric_force p) by reflexivity.
  assert (Ha : 0 < TF.slice_states (RigidTendonHillMuscle._integrate p dt d st g) 0).
  { rewrite IntegrateFacts.rigid_activation.
    eapply Rlt_le_trans; [exact Hm | apply TFFacts.clip_lower]. }
  assert (E : TF.slice_states (RigidTendonHillMuscle._integrate p dt d st g) 5
              = TF.slice_states (RigidTendonHillMuscle._integrate p dt d st g) 4
                * TF.slice_states (RigidTendonHillMuscle._integrate p dt d st g) 0).
  { rewrite E5, E4, Hv.
    set (n := TF.slice_states (RigidTendonHillMuscle._integrate p dt d st g) 1
              / Hill.l0_ce p) in *.
    set (a := TF.slice_states (RigidTendonHillMuscle._integrate p dt d st g) 0) in *.
    replace (0 / Hill.vmax p) with 0 by (unfold Rdiv; ring).
    rewrite CurveFacts.active_force_lengthening by lra. cbv zeta.
    pose proof (CurveFacts.f_iso_n_bounds n) as Hf.
    assert (Hu : CompliantTendonHillMuscle.f_x_a n a * 0.5 <> 0)
      by (unfold CompliantTendonHillMuscle.f_x_a; nra).
    rewrite isometric_closed_form by assumption.
    unfold CompliantTendonHillMuscle.f_x_a.
    replace (- (-1.5 * CompliantTendonHillMuscle.f_iso_n n * a)
             - CompliantTendonHillMuscle.f_iso_n n * a * 0.5)
      with (CompliantTendonHillMuscle.f_iso_n n * a) by lra.
    apply Rmax_left. nra. }
  split; [exact E |]. rewrite E6, E. reflexivity.
Qed.

Lemma kistemaker_isometric_force_witness :
  (0 < 0.5 /\ TF.slice_states [2; 0] 1 = 0
   /\ Hill.s_as
      - CompliantTendonHillMuscle.dfdvcon0
          (TF.slice_states
             (RigidTendonHillMuscle._integrate (default_params 0.5 1.4) 0.01 0 [0.5] [2; 0]) 1
           / Hill.l0_ce (default_params 0.5 1.4))
          (TF.slice_states
             (RigidTendonHillMuscle._integrate (default_params 0.5 1.4) 0.01 0 [0.5] [2; 0]) 0)
        * 2 <> 0)
  /\ TF.slice_states
       (RigidTendonHillMuscle._integrate (default_params 0.5 1.4) 0.01 0 [0.5] [2; 0]) 5
     = TF.slice_states
         (RigidTendonHillMuscle._integrate (default_params 0.5 1.4) 0.01 0 [0.5] [2; 0]) 4
       * TF.slice_states
           (RigidTendonHillMuscle._integrate (default_params 0.5 1.4) 0.01 0 [0.5] [2; 0]) 0.
Proof.
  assert (E0 : TF.slice_states
                 (RigidTendonHillMuscle._integrate (default_params 0.5 1.4)
                    0.01 0 [0.5] [2; 0]) 0 = 0.5).
  { rewrite IntegrateFacts.rigid_activation. unfold TF.slice_states; simpl.
    tf_unfold. tf_cases; lra. }
  assert (E1 : TF.slice_states
                 (RigidTendonHillMuscle._integrate (default_params 0.5 1.4)
                    0.01 0 [0.5] [2; 0]) 1 / Hill.l0_ce (default_params 0.5 1.4) = 1).
  { change (Rmax (2 - 1) 0 / 1 = 1). rewrite Rmax_left by lra. lra. }
  assert (HD : Hill.s_as
               - CompliantTendonHillMuscle.dfdvcon0
                   (TF.slice_states
                      (RigidTendonHillMuscle._integrate (default_params 0.5 1.4)
                         0.01 0 [0.5] [2; 0]) 1 / Hill.l0_ce (default_params 0.5 1.4))
                   (TF.slice_states
                      (RigidTendonHillMuscle._integrate (default_params 0.5 1.4)
                         0.01 0 [0.5] [2; 0]) 0) * 2 <> 0).
  { rewrite E0, E1. unfold CompliantTendonHillMuscle.dfdvcon0.
    rewrite CurveFacts.f_iso_n_optimal.
    assert (Ha : CompliantTendonHillMuscle.a_rel_st 1 = 0.41)
      by (unfold CompliantTendonHillMuscle.a_rel_st; tf_unfold; tf_cases; lra).
    assert (Hb : CompliantTendonHillMuscle.b_rel_st 0.5 = 5.2)
      by (unfold CompliantTendonHillMuscle.b_rel_st; tf_unfold; tf_cases; lra).
    rewrite Ha, Hb. unfold Hill.s_as. lra. }
  split; [split; [lra | split; [reflexivity | exact HD]] |].
  apply (proj1 (kistemaker_isometric_force (default_params 0.5 1.4) 0.01 0 [0.5] [2; 0]
                  ltac:(simpl; lra) eq_refl HD)).
Defined.

(** ** The fiber-velocity solver against the Kistemaker curve *)

Module SolverFacts.
Import Hill CompliantTendonHillMuscle.

Lemma Rmax_pos_left (x : R) : 0 < Rmax x 0 -> Rmax x 0 = x /\ 0 < x.
Proof.
  intros H. unfold Rmax in *. destruct (Rle_dec x 0); [lra | split; [reflexivity | lra]].
Qed.

Lemma shortening_round_trip (n a v : R) :
  0 < a -> v < 0 -> 0 < KistemakerCurve.active_force n a v ->
  _muscle_ode n a (KistemakerCurve.active_force n a v) = Some v.
Proof.
  intros Ha Hv HF.
  rewrite CurveFacts.active_force_shortening in * by exact Hv.
  apply Rmax_pos_left in HF. destruct HF as [E HF]. rewrite E.
  pose proof (CurveFacts.f_iso_n_bounds n) as Hf.
  pose proof (CurveFacts.a_rel_st_pos n) as Har.
  pose proof (CurveFacts.b_rel_st_pos a Ha) as Hb.
  set (f := f_iso_n n) in *. set (arel := a_rel_st n) in *. set (b := b_rel_st a) in *.
  destruct (CurveFacts.shortening_inverse f a v arel b) as [I1 I2]; try lra.
  cbv zeta in I1, I2.
  set (F := (v * a * arel + f * a * b) / (b - v)) in *.
  assert (Hlt : F < f_x_a n a).
  { unfold f_x_a. fold f.
    assert (Hneg : v * (a * arel + f * a) / (b - v) < 0).
    { assert (Hi : 0 < / (b - v)) by (apply Rinv_0_lt_compat; lra).
      assert (Hs : 0 < a * arel + f * a) by nra.
      assert (Hvs : v * (a * arel + f * a) < 0) by nra.
      unfold Rdiv. nra. }
    lra. }
  rewrite MuscleOdeFacts.muscle_ode_total by lra.
  rewrite MuscleOdeFacts.selected_linear by exact Hlt.
  unfold f_x_a. fold f b arel. rewrite I1. reflexivity.
Qed.

(** The quantities of the lengthening branch, and their signs when the
    slope term is above [s_as / 2]. *)
Lemma lengthening_round_trip (n a v : R) :
  0 < a -> s_as < dfdvcon0 n a * 2 -> 0 <= v ->
  f_x_a n a <= KistemakerCurve.active_force n a v
  /\ 0 <= sqrt_term n a (KistemakerCurve.active_force n a v)
  /\ _muscle_ode n a (KistemakerCurve.active_force n a v) = Some v
  /\ (v = 0 -> KistemakerCurve.active_force n a v = f_x_a n a).
Proof.
  intros Ha HD Hv.
  rewrite CurveFacts.active_force_lengthening by exact Hv. cbv zeta.
  pose proof (CurveFacts.f_iso_n_bounds n) as Hf.
  assert (Hs : 0 < s_as) by (unfold s_as; lra).
  set (u := f_x_a n a * 0.5).
  set (D := s_as - dfdvcon0 n a * 2).
  assert (Hx : f_x_a n a = 2 * u) by (unfold u; lra).
  assert (Hu : 0 < u) by (unfold u, f_x_a; nra).
  assert (HDn : D < 0) by (unfold D; lra).
  assert (Hp1 : 0 < - u / D).
  { unfold Rdiv. assert (/ D < 0) by (apply Rinv_lt_0_compat; exact HDn). nra. }
  replace (-1.5 * f_iso_n n * a) with (- (3 * u)) by (unfold u, f_x_a; lra).
  destruct (CurveFacts.lengthening_inverse u D s_as v) as (I1 & I2 & I3); try lra.
  cbv zeta in I1, I2, I3.
  set (F := (- (- u / D) * - (3 * u) - - u / D * - s_as * v + u ^ 2 / D
             - - (3 * u) * v - - s_as * v ^ 2) / (- u / D + v)) in *.
  set (G := (s_as * (v + - u / D) ^ 2 + - u / D * u) / (- u / D + v)) in *.
  assert (HG : 0 <= G).
  { unfold G, Rdiv.
    assert (0 < / (- u / D + v)) by (apply Rinv_0_lt_compat; lra).
    assert (0 <= s_as * (v + - u / D) ^ 2)
      by (apply Rmult_le_pos; [lra | apply pow2_ge_0]).
    assert (0 < - u / D * u) by (apply Rmult_lt_0_compat; assumption).
    apply Rmult_le_pos; lra. }
  assert (HF : 2 * u <= F).
  { assert (Hq : 0 <= v * (s_as * v + - u / D * s_as + u) / (- u / D + v)).
    { unfold Rdiv at 1.
      assert (0 < / (- u / D + v)) by (apply Rinv_0_lt_compat; lra).
      assert (0 <= s_as * v) by (apply Rmult_le_pos; lra).
      assert (0 < - u / D * s_as) by (apply Rmult_lt_0_compat; assumption).
      apply Rmult_le_pos; [apply Rmult_le_pos; lra | lra]. }
    lra. }
  rewrite Rmax_left by lra.
  assert (Hrad : sqrt_term n a F = G ^ 2).
  { rewrite MuscleOdeFacts.sqrt_term_square.
    unfold p1, p3, p4, p2_containing_term. fold u D.
    replace (-1.5 * f_x_a n a) with (- (3 * u)) by lra.
    exact I1. }
  split; [lra |]. split; [rewrite Hrad; apply pow2_ge_0 |]. split.
  - rewrite MuscleOdeFacts.muscle_ode_total
      by (intros [Hneg _]; rewrite Hrad in Hneg; pose proof (pow2_ge_0 G); lra).
    rewrite MuscleOdeFacts.selected_root
      by (try lra; rewrite Hrad; apply pow2_ge_0).
    rewrite Hrad. rewrite sqrt_pow2 by exact HG.
    unfold p1, p3. fold u D.
    replace (-1.5 * f_x_a n a) with (- (3 * u)) by lra.
    rewrite I2. reflexivity.
  - intros H0. rewrite H0 in I3.
    replace (0 * (s_as * 0 + - u / D * s_as + u) / (- u / D + 0)) with 0 in I3
      by (unfold Rdiv; ring).
    lra.
Qed.

(** Below the isometric force the solver returns a shortening velocity. *)
Lemma velocity_negative (n a af : R) :
  0 < a -> 0 <= af -> af < f_x_a n a ->
  exists v, _muscle_ode n a af = Some v /\ v < 0.
Proof.
  intros Ha H0 Hlt. eexists. split.
  - rewrite MuscleOdeFacts.muscle_ode_total by lra.
    rewrite MuscleOdeFacts.selected_linear by exact Hlt. reflexivity.
  - pose proof (CurveFacts.a_rel_st_pos n) as Har.
    pose proof (CurveFacts.b_rel_st_pos a Ha) as Hb.
    assert (Hden : 0 < af + a * a_rel_st n) by nra.
    assert (Hi : 0 < / (af + a * a_rel_st n))
      by (apply Rinv_0_lt_compat; exact Hden).
    assert (Hnum : b_rel_st a * (af - f_x_a n a) < 0) by nra.
    unfold Rdiv. nra.
Qed.

End SolverFacts.

(** X7.  The fiber-velocity solver of the compliant-tendon muscle undoes
    the shortening branch of the Kistemaker force-velocity curve: fed with
    the normalised length, the activation and the active force of a state
    that [RigidTendonHillMuscle._integrate] returned for a negative
    velocity, it returns that normalised velocity, provided
    [min_activation] is positive and the active force was not clamped to
    0. *)
Theorem solver_inverts_kistemaker_shortening (p : MuscleParams) (dt d : R)
    (st g : list R) :
  let s := RigidTendonHillMuscle._integrate p dt d st g in
  let v := TF.slice_states g 1 / Hill.vmax p in
  0 < min_activation p -> v < 0 -> 0 < TF.slice_states s 5 ->
  CompliantTendonHillMuscle._muscle_ode (TF.slice_states s 1 / Hill.l0_ce p)
    (TF.slice_states s 0) (TF.slice_states s 5)
  = Some v.
Proof.
  cbv zeta. intros Hm Hv HF.
  destruct (CurveFacts.integrate_active_force p dt d st g) as [E5 _]. cbv zeta in E5.
  rewrite E5 in *.
  apply SolverFacts.shortening_round_trip; try assumption.
  rewrite IntegrateFacts.rigid_activation.
  eapply Rlt_le_trans; [exact Hm | apply TFFacts.clip_lower].
Qed.

(** X8.  The same for the lengthening branch, the isometric point
    included: for a velocity [>= 0], a positive [min_activation] and a slope
    term [dfdvcon0] above [s_as / 2], the solver does not raise on the
    active force of the Kistemaker state and returns its normalised
    velocity. *)
Theorem solver_inverts_kistemaker_lengthening (p : MuscleParams) (dt d : R)
    (st g : list R) :
  let s := RigidTendonHillMuscle._integrate p dt d st g in
  let v := TF.slice_states g 1 / Hill.vmax p in
  let n := TF.slice_states s 1 / Hill.l0_ce p in
  0 < min_activation p -> 0 <= v ->
  Hill.s_as < CompliantTendonHillMuscle.dfdvcon0 n (TF.slice_states s 0) * 2 ->
  CompliantTendonHillMuscle._muscle_ode n (TF.slice_states s 0) (TF.slice_states s 5)
  = Some v.
Proof.
  cbv zeta. intros Hm Hv HD.
  destruct (CurveFacts.integrate_active_force p dt d st g) as [E5 _]. cbv zeta in E5.
  rewrite E5.
  apply SolverFacts.lengthening_round_trip; try assumption.
  rewrite IntegrateFacts.rigid_activation.
  eapply Rlt_le_trans; [exact Hm | apply TFFacts.clip_lower].
Qed.

(** X9.  For a positive activation the solver returns the velocity 0 at the
    isometric force [f_x_a] when the slope term is above [s_as / 2], and a
    negative velocity, without raising, for every active force in
    [[0, f_x_a)]. *)
Theorem solver_isometric_and_shortening (n a af : R) :
  0 < a ->
  (Hill.s_as < CompliantTendonHillMuscle.dfdvcon0 n a * 2 ->
   CompliantTendonHillMuscle._muscle_ode n a (CompliantTendonHillMuscle.f_x_a n a)
   = Some 0)
  /\ (0 <= af -> af < CompliantTendonHillMuscle.f_x_a n a ->
      exists v, CompliantTendonHillMuscle._muscle_ode n a af = Some v /\ v < 0).
Proof.
  intros Ha. split.
  - intros HD.
    destruct (SolverFacts.lengthening_round_trip n a 0 Ha HD (Rle_refl 0))
      as (_ & _ & H & H0).
    rewrite (H0 eq_refl) in H. exact H.
  - intros H0 Hlt. apply SolverFacts.velocity_negative; assumption.
Qed.

(** A sample state for the witnesses: half activation, optimal fiber
    length. *)
Module Sample.
Import Hill CompliantTendonHillMuscle.

Lemma activation (vel : R) :
  TF.slice_states
    (RigidTendonHillMuscle._integrate (default_params 0.5 1.4) 0.01 0 [0.5] [2; vel]) 0
  = 0.5.
Proof.
  rewrite IntegrateFacts.rigid_activation. unfold TF.slice_states; simpl.
  tf_unfold. tf_cases; lra.
Qed.

Lemma length_n (vel : R) :
  TF.slice_states
    (RigidTendonHillMuscle._integrate (default_params 0.5 1.4) 0.01 0 [0.5] [2; vel]) 1
  / l0_ce (default_params 0.5 1.4) = 1.
Proof. change (Rmax (2 - 1) 0 / 1 = 1). rewrite Rmax_left by lra. lra. Qed.

Lemma a_rel_1 : a_rel_st 1 = 0.41.
Proof. unfold a_rel_st. tf_unfold. tf_cases; lra. Qed.

Lemma b_rel_half : b_rel_st 0.5 = 5.2.
Proof. unfold b_rel_st. tf_unfold. tf_cases; lra. Qed.

Lemma slope : s_as < dfdvcon0 1 0.5 * 2.
Proof.
  unfold dfdvcon0. rewrite CurveFacts.f_iso_n_optimal, a_rel_1, b_rel_half.
  unfold s_as. lra.
Qed.

Lemma velocity (vel : R) :
  TF.slice_states [2; vel] 1 / vmax (default_params 0.5 1.4) = vel / 10.
Proof. unfold TF.slice_states, vmax, l0_ce; simpl. lra. Qed.

Lemma shortening_force_pos :
  0 < TF.slice_states
        (RigidTendonHillMuscle._integrate (default_params 0.5 1.4) 0.01 0 [0.5] [2; -1]) 5.
Proof.
  destruct (CurveFacts.integrate_active_force (default_params 0.5 1.4) 0.01 0
              [0.5] [2; -1]) as [E5 _].
  cbv zeta in E5. rewrite E5, length_n, activation, velocity.
  rewrite CurveFacts.active_force_shortening by lra.
  rewrite CurveFacts.f_iso_n_optimal, a_rel_1, b_rel_half.
  eapply Rlt_le_trans; [| apply Rmax_l]. lra.
Qed.

End Sample.

Lemma solver_inverts_kistemaker_shortening_witness :
  (0 < 0.5
   /\ TF.slice_states [2; -1] 1 / Hill.vmax (default_params 0.5 1.4) < 0
   /\ 0 < TF.slice_states
            (RigidTendonHillMuscle._integrate (default_params 0.5 1.4) 0.01 0
               [0.5] [2; -1]) 5)
  /\ CompliantTendonHillMuscle._muscle_ode
       (TF.slice_states
          (RigidTendonHillMuscle._integrate (default_params 0.5 1.4) 0.01 0
             [0.5] [2; -1]) 1 / Hill.l0_ce (default_params 0.5 1.4))
       (TF.slice_states
          (RigidTendonHillMuscle._integrate (default_params 0.5 1.4) 0.01 0
             [0.5] [2; -1]) 0)
       (TF.slice_states
          (RigidTendonHillMuscle._integrate (default_params 0.5 1.4) 0.01 0
             [0.5] [2; -1]) 5)
     = Some (TF.slice_states [2; -1] 1 / Hill.vmax (default_params 0.5 1.4)).
Proof.
  assert (Hv : TF.slice_states [2; -1] 1 / Hill.vmax (default_params 0.5 1.4) < 0)
    by (rewrite Sample.velocity; lra).
  split; [split; [lra | split; [exact Hv | exact Sample.shortening_force_pos]] |].
  apply (solver_inverts_kistemaker_shortening (default_params 0.5 1.4) 0.01 0
           [0.5] [2; -1] ltac:(simpl; lra) Hv Sample.shortening_force_pos).
Defined.

Lemma solver_inverts_kistemaker_lengthening_witness :
  (0 < 0.5
   /\ 0 <= TF.slice_states [2; 1] 1 / Hill.vmax (default_params 0.5 1.4)
   /\ Hill.s_as
      < CompliantTendonHillMuscle.dfdvcon0
          (TF.slice_states
             (RigidTendonHillMuscle._integrate (default_params 0.5 1.4) 0.01 0
                [0.5] [2; 1]) 1 / Hill.l0_ce (default_params 0.5 1.4))
          (TF.slice_states
             (RigidTendonHillMuscle._integrate (default_params 0.5 1.4) 0.01 0
                [0.5] [2; 1]) 0) * 2)
  /\ CompliantTendonHillMuscle._muscle_ode
       (TF.slice_states
          (RigidTendonHillMuscle._integrate (default_params 0.5 1.4) 0.01 0
             [0.5] [2; 1]) 1 / Hill.l0_ce (default_params 0.5 1.4))
       (TF.slice_states
          (RigidTendonHillMuscle._integrate (default_params 0.5 1.4) 0.01 0
             [0.5] [2; 1]) 0)
       (TF.slice_states
          (RigidTendonHillMuscle._integrate (default_params 0.5 1.4) 0.01 0
             [0.5] [2; 1]) 5)
     = Some (TF.slice_states [2; 1] 1 / Hill.vmax (default_params 0.5 1.4)).
Proof.
  assert (Hv : 0 <= TF.slice_states [2; 1] 1 / Hill.vmax (default_params 0.5 1.4))
    by (rewrite Sample.velocity; lra).
  assert (HD : Hill.s_as
               < CompliantTendonHillMuscle.dfdvcon0
                   (TF.slice_states
                      (RigidTendonHillMuscle._integrate (default_params 0.5 1.4) 0.01 0
                         [0.5] [2; 1]) 1 / Hill.l0_ce (default_params 0.5 1.4))
                   (TF.slice_states
                      (RigidTendonHillMuscle._integrate (default_params 0.5 1.4) 0.01 0
                         [0.5] [2; 1]) 0) * 2)
    by (rewrite Sample.length_n, Sample.activation; exact Sample.slope).
  split; [split; [lra | split; [exact Hv | exact HD]] |].
  apply (solver_inverts_kistemaker_lengthening (default_params 0.5 1.4) 0.01 0
           [0.5] [2; 1] ltac:(simpl; lra) Hv HD).
Defined.

Lemma solver_isometric_and_shortening_witness :
  (0 < 0.5 /\ Hill.s_as < CompliantTendonHillMuscle.dfdvcon0 1 0.5 * 2)
  /\ CompliantTendonHillMuscle._muscle_ode 1 0.5 (CompliantTendonHillMuscle.f_x_a 1 0.5)
     = Some 0.
Proof.
  split; [split; [lra | exact Sample.slope] |].
  apply (proj1 (solver_isometric_and_shortening 1 0.5 0 ltac:(lra))).
  exact Sample.slope.
Defined.

(** ** The equilibrium initializer, regime by regime *)

Module EquilibriumFacts.
Import Hill CompliantTendonHillMuscle.

(** The channels of [initial_forces]. *)
Lemma initial_forces_channels (p : MuscleParams) (lmt len : R) :
  let ts := TF.maximum ((lmt - len - l0_se p) / l0_se p) 0 in
  let ms := TF.maximum ((len - l0_pe p) / l0_ce p) 0 in
  initial_forces p lmt len
  = [TF.minimum (k_pe p * ms ^ 2) 3; TF.minimum (k_se * ts ^ 2) 3;
     TF.maximum (TF.minimum (k_se * ts ^ 2) 3 - TF.minimum (k_pe p * ms ^ 2) 3) 0;
     TF.minimum (k_se * ts ^ 2) 3 * max_iso_force p].
Proof. reflexivity. Qed.

Lemma ratio_nonpos (x l : R) : 0 < l -> x <= 0 -> TF.maximum (x / l) 0 = 0.
Proof.
  intros Hl Hx. unfold TF.maximum. apply Rmax_right.
  assert (0 < / l) by (apply Rinv_0_lt_compat; exact Hl). unfold Rdiv. nra.
Qed.

Lemma ratio_nonneg (x l : R) : 0 < l -> 0 <= x -> TF.maximum (x / l) 0 = x / l.
Proof.
  intros Hl Hx. unfold TF.maximum. apply Rmax_left.
  assert (0 < / l) by (apply Rinv_0_lt_compat; exact Hl). unfold Rdiv. nra.
Qed.

Lemma zero_law (k : R) : TF.minimum (k * 0 ^ 2) 3 = 0.
Proof. replace (k * 0 ^ 2) with 0 by ring. unfold TF.minimum. apply Rmin_left. lra. Qed.

(** Slack tendon and slack fiber: no force at all. *)
Lemma forces_slack (p : MuscleParams) (lmt len : R) :
  0 < l0_se p -> 0 < l0_ce p ->
  lmt - len - l0_se p <= 0 -> len - l0_pe p <= 0 ->
  initial_forces p lmt len = [0; 0; 0; 0].
Proof.
  intros Hs Hc Ht Hm. rewrite initial_forces_channels. cbv zeta.
  rewrite (ratio_nonpos _ _ Hs Ht), (ratio_nonpos _ _ Hc Hm), !zero_law.
  replace (0 - 0) with 0 by ring.
  replace (TF.maximum 0 0) with 0 by (unfold TF.maximum; rewrite Rmax_left; lra).
  replace (0 * max_iso_force p) with 0 by ring. reflexivity.
Qed.

(** Balanced stretched tendon and fiber: equal passive terms, no active
    force. *)
Lemma forces_balanced (p : MuscleParams) (lmt len : R) :
  0 < l0_se p -> 0 < l0_ce p ->
  0 <= lmt - len - l0_se p -> 0 <= len - l0_pe p ->
  k_se * ((lmt - len - l0_se p) / l0_se p) ^ 2
  = k_pe p * ((len - l0_pe p) / l0_ce p) ^ 2 ->
  TF.slice_states (initial_forces p lmt len) 0
  = TF.slice_states (initial_forces p lmt len) 1
  /\ TF.slice_states (initial_forces p lmt len) 2 = 0.
Proof.
  intros Hs Hc Ht Hm Hb. rewrite initial_forces_channels. cbv zeta.
  rewrite (ratio_nonneg _ _ Hs Ht), (ratio_nonneg _ _ Hc Hm), Hb.
  unfold TF.slice_states; cbn [nth]. split; [reflexivity |].
  replace (TF.minimum (k_pe p * ((len - l0_pe p) / l0_ce p) ^ 2) 3
           - TF.minimum (k_pe p * ((len - l0_pe p) / l0_ce p) ^ 2) 3) with 0 by ring.
  unfold TF.maximum. apply Rmax_left. lra.
Qed.

(** The closed form of the fourth regime, with the square roots [a] and [b]
    of the two stiffnesses: what it leaves to the fiber and to the tendon
    beyond their slack lengths. *)
Lemma closed_form_shares (a b lpe lse lce lmt : R) :
  a * lse - b * lce <> 0 -> a * lse + b * lce <> 0 ->
  let len :=
    ((a * a) * lpe * lse ^ 2 - (b * b) * lce ^ 2 * lmt + (b * b) * lce ^ 2 * lse
     - lce * lse * (a * b) * (- lmt + lpe + lse))
    / ((a * a) * lse ^ 2 - (b * b) * lce ^ 2) in
  len - lpe = b * lce * (lmt - lse - lpe) / (a * lse + b * lce)
  /\ lmt - len - lse = a * lse * (lmt - lse - lpe) / (a * lse + b * lce).
Proof.
  intros Hm Hp. cbv zeta.
  assert (Hden : a * a * lse ^ 2 - b * b * lce ^ 2 <> 0).
  { replace (a * a * lse ^ 2 - b * b * lce ^ 2)
      with ((a * lse - b * lce) * (a * lse + b * lce)) by ring.
    apply Rmult_integral_contrapositive_currified; assumption. }
  split; field; split; assumption.
Qed.

Lemma equilibrium_shares (p : MuscleParams) (lmt : R) :
  0 < l0_se p -> 0 < l0_ce p ->
  k_pe p * l0_se p ^ 2 <> k_se * l0_ce p ^ 2 ->
  l0_se p + l0_pe p <= lmt ->
  let len := equilibrium_muscle_len p lmt in
  0 <= len - l0_pe p /\ 0 <= lmt - len - l0_se p
  /\ k_se * ((lmt - len - l0_se p) / l0_se p) ^ 2
     = k_pe p * ((len - l0_pe p) / l0_ce p) ^ 2.
Proof.
  intros Hs Hc Hne Hl. cbv zeta.
  assert (Hk : 0 <= k_pe p) by apply ForceFacts.k_pe_nonneg.
  assert (Hkse : 0 < k_se) by apply ForceFacts.k_se_pos.
  pose proof (sqrt_sqrt (k_pe p) Hk) as Ea.
  pose proof (sqrt_sqrt k_se (Rlt_le _ _ Hkse)) as Eb.
  pose proof (sqrt_pos (k_pe p)) as Ha.
  pose proof (sqrt_lt_R0 k_se Hkse) as Hb.
  assert (Hp : 0 < sqrt (k_pe p) * l0_se p + sqrt k_se * l0_ce p) by nra.
  assert (Hm : sqrt (k_pe p) * l0_se p - sqrt k_se * l0_ce p <> 0).
  { intros H. apply Hne.
    assert (E : sqrt (k_pe p) * l0_se p = sqrt k_se * l0_ce p) by lra.
    rewrite <- Ea, <- Eb.
    replace (sqrt (k_pe p) * sqrt (k_pe p) * l0_se p ^ 2)
      with ((sqrt (k_pe p) * l0_se p) ^ 2) by ring.
    rewrite E. ring. }
  split; [| split].
  - unfold equilibrium_muscle_len.
    rewrite sqrt_mult by lra.
    remember (sqrt (k_pe p)) as a eqn:Da. remember (sqrt k_se) as b eqn:Db.
    clear Da Db. rewrite <- Ea, <- Eb.
    destruct (closed_form_shares a b (l0_pe p) (l0_se p) (l0_ce p) lmt) as [E _];
      try assumption; try lra.
    cbv zeta in E. rewrite E.
    assert (0 < / (a * l0_se p + b * l0_ce p)) by (apply Rinv_0_lt_compat; exact Hp).
    assert (0 <= b * l0_ce p * (lmt - l0_se p - l0_pe p))
      by (apply Rmult_le_pos; [nra | lra]).
    unfold Rdiv. nra.
  - unfold equilibrium_muscle_len.
    rewrite sqrt_mult by lra.
    remember (sqrt (k_pe p)) as a eqn:Da. remember (sqrt k_se) as b eqn:Db.
    clear Da Db. rewrite <- Ea, <- Eb.
    destruct (closed_form_shares a b (l0_pe p) (l0_se p) (l0_ce p) lmt) as [_ E];
      try assumption; try lra.
    cbv zeta in E. rewrite E.
    assert (0 < / (a * l0_se p + b * l0_ce p)) by (apply Rinv_0_lt_compat; exact Hp).
    assert (0 <= a * l0_se p * (lmt - l0_se p - l0_pe p))
      by (apply Rmult_le_pos; [nra | lra]).
    unfold Rdiv. nra.
  - apply (InitialStateFacts.equilibrium_balances p lmt); lra.
Qed.

End EquilibriumFacts.

(** ** The fiber length the initializer chooses *)

Module RegimeFacts.
Import Hill CompliantTendonHillMuscle.

(** The initializer raises exactly when one of its two assertions fires. *)
Lemma initial_state_None (p : MuscleParams) (bs : nat) (g : list R) :
  let lmt := TF.slice_states g 0 in
  let len := initial_muscle_len p lmt in
  _get_initial_muscle_state p bs g = None
  <-> len < 0
      \/ muscle_ode (len / l0_ce p) (1 * min_activation p)
           (TF.slice_states (initial_forces p lmt len) 2) = None.
Proof.
  cbv zeta. unfold _get_initial_muscle_state.
  destruct (TF.assert_non_negative _) as [[] |] eqn:E.
  - apply TFFacts.assert_non_negative_Some in E.
    destruct (muscle_ode _ _ _) as [v |]; split; intros H;
      try discriminate; try reflexivity.
    + destruct H as [H | H]; [lra | discriminate].
    + right; reflexivity.
  - apply TFFacts.assert_non_negative_None in E.
    split; intros _; [left; exact E | reflexivity].
Qed.

(** The state it returns otherwise. *)
Lemma initial_state_returned (p : MuscleParams) (bs : nat) (g : list R) (v : R) :
  let lmt := TF.slice_states g 0 in
  let len := initial_muscle_len p lmt in
  0 <= len ->
  muscle_ode (len / l0_ce p) (1 * min_activation p)
    (TF.slice_states (initial_forces p lmt len) 2) = Some v ->
  _get_initial_muscle_state p bs g
  = Some ([1 * min_activation p; len; v * vmax p] ++ initial_forces p lmt len).
Proof.
  cbv zeta. intros Hl Hv. unfold _get_initial_muscle_state.
  apply TFFacts.assert_non_negative_Some in Hl. rewrite Hl, Hv. reflexivity.
Qed.

(** Whatever the regime, the chosen fiber length is not negative and leaves
    the tendon and the passive fiber element with equal force terms. *)
Lemma chosen_length_balanced (p : MuscleParams) (lmt : R) :
  0 < tendon_length p -> 0 < optimal_muscle_length p ->
  0.001 <= normalized_slack_muscle_length p ->
  k_pe p * tendon_length p ^ 2 <> k_se * optimal_muscle_length p ^ 2 ->
  0 <= lmt ->
  let len := initial_muscle_len p lmt in
  0 <= len
  /\ TF.slice_states (initial_forces p lmt len) 0
     = TF.slice_states (initial_forces p lmt len) 1
  /\ TF.slice_states (initial_forces p lmt len) 2 = 0.
Proof.
  intros Hs Hc Hn Hne Hl. cbv zeta.
  assert (Hpe : 0.001 * optimal_muscle_length p <= l0_pe p)
    by (unfold l0_pe, l0_ce; nra).
  rewrite InitialStateFacts.initial_muscle_len_regime.
  unfold RegimeSpec.regime_of.
  destruct (Rlt_dec lmt 0); [lra |].
  destruct (Rlt_dec lmt (tendon_length p)).
  - assert (E : initial_forces p lmt (0.001 * optimal_muscle_length p) = [0; 0; 0; 0])
      by (apply EquilibriumFacts.forces_slack; unfold l0_se, l0_ce; nra).
    rewrite E. unfold TF.slice_states; cbn [nth].
    repeat split; try reflexivity; nra.
  - destruct (Rlt_dec lmt (tendon_length p + l0_pe p)).
    + assert (E : initial_forces p lmt (lmt - tendon_length p) = [0; 0; 0; 0])
        by (apply EquilibriumFacts.forces_slack; unfold l0_se, l0_ce; lra).
      rewrite E. unfold TF.slice_states; cbn [nth].
      repeat split; try reflexivity; lra.
    + destruct (EquilibriumFacts.equilibrium_shares p lmt) as (S1 & S2 & S3);
        try assumption; try (unfold l0_se; lra).
      destruct (EquilibriumFacts.forces_balanced p lmt (equilibrium_muscle_len p lmt))
        as [B1 B2]; try assumption.
      split; [lra |]. split; [exact B1 | exact B2].
Qed.

End RegimeFacts.

(** C2.  The initializer picks the fiber length by one of four regimes of
    the musculotendon length [lmt], tested in order, each length being in
    exactly one of them: a negative length gives -1 and raises; below the
    tendon slack length the fiber gets the floor [0.001 * optimalLength];
    below the tendon slack length plus the passive slack length it gets what
    exceeds the tendon slack length; otherwise it gets the closed form
    [(kpe lpe lse^2 - kse lce^2 lmt + kse lce^2 lse
      - lce lse sqrt (kpe kse) (lpe + lse - lmt)) / (kpe lse^2 - kse lce^2)].
    For positive slack and optimal lengths, a normalised slack length other
    than 1.66 and [kpe lse^2 <> kse lce^2], the closed form stretches
    neither element below its slack length and balances the quadratic laws
    of the tendon and of the passive fiber element,
    [kse * tendonStrain^2 = kpe * fiberStrain^2], so that the two force
    terms of the state are equal.  The initializer raises exactly when the
    fiber length is negative or the velocity solver raises, and returns the
    state built on the chosen length otherwise; for such a muscle with a
    positive [min_activation] and a normalised slack length of at least
    0.001, it returns that state for every [lmt >= 0]. *)
Theorem initial_fiber_length_regimes (p : MuscleParams) (batch_size : nat)
    (g : list R) :
  let lmt := TF.slice_states g 0 in
  let kpe := Hill.k_pe p in
  let kse := Hill.k_se in
  let lpe := Hill.l0_pe p in
  let lse := tendon_length p in
  let lce := optimal_muscle_length p in
  let len := CompliantTendonHillMuscle.initial_muscle_len p lmt in
  let forces := CompliantTendonHillMuscle.initial_forces p lmt len in
  let velocity :=
    CompliantTendonHillMuscle.muscle_ode (len / lce) (1 * min_activation p)
      (TF.slice_states forces 2) in
  let init := CompliantTendonHillMuscle._get_initial_muscle_state p batch_size g in
  (exists r, RegimeSpec.in_regime p lmt r
             /\ forall r', RegimeSpec.in_regime p lmt r' -> r' = r)
  /\ (lmt < 0 -> len = -1 /\ init = None)
  /\ (0 <= lmt /\ lmt < lse -> len = 0.001 * lce)
  /\ (0 <= lmt /\ lse <= lmt /\ lmt < lse + lpe -> len = lmt - lse)
  /\ (0 <= lmt /\ lse <= lmt /\ lse + lpe <= lmt ->
      len = (kpe * lpe * lse ^ 2 - kse * lce ^ 2 * lmt + kse * lce ^ 2 * lse
             - lce * lse * sqrt (kpe * kse) * (- lmt + lpe + lse))
            / (kpe * lse ^ 2 - kse * lce ^ 2))
  /\ (0 <= lmt /\ lse <= lmt /\ lse + lpe <= lmt ->
      0 < lse -> 0 < lce -> normalized_slack_muscle_length p <> 1.66 ->
      kpe * lse ^ 2 <> kse * lce ^ 2 ->
      lpe <= len /\ lse <= lmt - len
      /\ kse * ((lmt - len - lse) / lse) ^ 2 = kpe * ((len - lpe) / lce) ^ 2
      /\ TF.slice_states forces 0 = TF.slice_states forces 1)
  /\ (init = None <-> len < 0 \/ velocity = None)
  /\ (forall v, 0 <= len -> velocity = Some v ->
      init = Some ([1 * min_activation p; len; v * (10 * lce)] ++ forces))
  /\ (0 < lse -> 0 < lce -> 0.001 <= normalized_slack_muscle_length p ->
      normalized_slack_muscle_length p <> 1.66 -> 0 < min_activation p ->
      kpe * lse ^ 2 <> kse * lce ^ 2 -> 0 <= lmt ->
      0 <= len
      /\ exists v, velocity = Some v
           /\ init = Some ([1 * min_activation p; len; v * (10 * lce)] ++ forces)).
Proof.
  cbv zeta.
  set (lmt := TF.slice_states g 0).
  assert (Hreg : forall r, RegimeSpec.in_regime p lmt r ->
            CompliantTendonHillMuscle.initial_muscle_len p lmt
            = match r with
              | RegimeSpec.Invalid => -1
              | RegimeSpec.TendonOnly => 0.001 * optimal_muscle_length p
              | RegimeSpec.TendonAtSlack => lmt - tendon_length p
              | RegimeSpec.Equilibrium =>
                  CompliantTendonHillMuscle.equilibrium_muscle_len p lmt
              end).
  { intros r Hr. apply InitialStateFacts.regime_unique in Hr.
    rewrite InitialStateFacts.initial_muscle_len_regime, Hr. reflexivity. }
  split; [| split; [| split; [| split; [| split; [| split; [| split; [| split]]]]]]].
  - exists (RegimeSpec.regime_of p lmt). split.
    + apply InitialStateFacts.regime_unique. reflexivity.
    + intros r' Hr'. apply InitialStateFacts.regime_unique in Hr'. symmetry; exact Hr'.
  - intros H. split; [exact (Hreg RegimeSpec.Invalid H) |].
    apply InitialStateFacts.initial_state_negative_len. fold lmt.
    rewrite (Hreg RegimeSpec.Invalid H). lra.
  - intros H. exact (Hreg RegimeSpec.TendonOnly H).
  - intros H. exact (Hreg RegimeSpec.TendonAtSlack H).
  - intros H. rewrite (Hreg RegimeSpec.Equilibrium H). reflexivity.
  - intros H Hs Hc _ Hne. rewrite (Hreg RegimeSpec.Equilibrium H).
    destruct (EquilibriumFacts.equilibrium_shares p lmt) as (S1 & S2 & S3);
      try assumption; [unfold Hill.l0_se; lra |].
    destruct (EquilibriumFacts.forces_balanced p lmt
                (CompliantTendonHillMuscle.equilibrium_muscle_len p lmt))
      as [B1 _]; try assumption.
    unfold Hill.l0_se, Hill.l0_ce in S2, S3.
    split; [lra |]. split; [lra |]. split; [exact S3 | exact B1].
  - apply RegimeFacts.initial_state_None.
  - intros v Hl Hv. apply (RegimeFacts.initial_state_returned p batch_size g v Hl Hv).
  - intros Hs Hc Hn _ Hm Hne Hl.
    destruct (RegimeFacts.chosen_length_balanced p lmt Hs Hc Hn Hne Hl)
      as (Hlen & _ & H5).
    split; [exact Hlen |].
    pose proof (CurveFacts.f_iso_n_bounds
                  (CompliantTendonHillMuscle.initial_muscle_len p lmt
                   / optimal_muscle_length p)) as Hf.
    destruct (SolverFacts.velocity_negative
                (CompliantTendonHillMuscle.initial_muscle_len p lmt
                 / optimal_muscle_length p) (1 * min_activation p) 0)
      as [v [Hv _]]; [lra | lra | unfold CompliantTendonHillMuscle.f_x_a; nra |].
    exists v. rewrite H5. split; [exact Hv |].
    apply (RegimeFacts.initial_state_returned p batch_size g v Hlen).
    fold lmt. rewrite H5. exact Hv.
Qed.

Lemma initial_fiber_length_regimes_witness :
  (0 < 1 /\ 0 < 1 /\ 0.001 <= 1.4 /\ 1.4 <> 1.66 /\ 0 < 0.01
   /\ Hill.k_pe (default_params 0.01 1.4) * 1 ^ 2 <> Hill.k_se * 1 ^ 2
   /\ 0 <= TF.slice_states [3; 0] 0)
  /\ 0 <= CompliantTendonHillMuscle.initial_muscle_len (default_params 0.01 1.4)
            (TF.slice_states [3; 0] 0)
  /\ exists s,
       CompliantTendonHillMuscle._get_initial_muscle_state (default_params 0.01 1.4)
         1 [3; 0] = Some s.
Proof.
  assert (H : Hill.k_pe (default_params 0.01 1.4) * 1 ^ 2 <> Hill.k_se * 1 ^ 2).
  { unfold Hill.k_pe, Hill.k_se, Hill.l0_pe, Hill.l0_ce, default_params; simpl. lra. }
  assert (H0 : 0 <= TF.slice_states [3; 0] 0) by (unfold TF.slice_states; simpl; lra).
  split; [repeat split; try lra; assumption |].
  destruct (initial_fiber_length_regimes (default_params 0.01 1.4) 1 [3; 0])
    as (_ & _ & _ & _ & _ & _ & _ & _ & T).
  destruct (T ltac:(simpl; lra) ltac:(simpl; lra) ltac:(simpl; lra) ltac:(simpl; lra)
              ltac:(simpl; lra) H H0) as [Hl [v [_ E]]].
  split; [exact Hl |]. eexists. exact E.
Defined.

(** X10.  For a muscle with positive tendon slack length and optimal fiber
    length, a normalised slack length of at least 0.001, a positive
    [min_activation] and [kpe * tendonSlackLength ^ 2] different from
    [kse * optimalLength ^ 2], the initializer returns a state for every
    musculotendon length [>= 0], and that state is a passive equilibrium:
    the passive fiber term equals the series-elastic term, the active force
    is 0, the fiber length is not negative, the activation is
    [min_activation]; the fiber velocity the solver gives for it is
    negative.  Below the musculotendon slack length both passive terms and
    the force are 0. *)
Theorem initial_state_passive_equilibrium (p : MuscleParams) (batch_size : nat)
    (g : list R) :
  0 < tendon_length p -> 0 < optimal_muscle_length p ->
  0.001 <= normalized_slack_muscle_length p ->
  0 < min_activation p ->
  Hill.k_pe p * tendon_length p ^ 2 <> Hill.k_se * optimal_muscle_length p ^ 2 ->
  0 <= TF.slice_states g 0 ->
  exists s,
    CompliantTendonHillMuscle._get_initial_muscle_state p batch_size g = Some s
    /\ TF.slice_states s 0 = min_activation p
    /\ 0 <= TF.slice_states s 1
    /\ TF.slice_states s 2 < 0
    /\ TF.slice_states s 3 = TF.slice_states s 4
    /\ TF.slice_states s 5 = 0
    /\ (TF.slice_states g 0 < tendon_length p + Hill.l0_pe p ->
        TF.slice_states s 4 = 0 /\ TF.slice_states s 6 = 0).
Proof.
  intros Hs Hc Hn Hm Hne Hl.
  set (lmt := TF.slice_states g 0) in *.
  set (len := CompliantTendonHillMuscle.initial_muscle_len p lmt).
  assert (Hpe : 0.001 * optimal_muscle_length p <= Hill.l0_pe p)
    by (unfold Hill.l0_pe, Hill.l0_ce; nra).
  assert (Hfacts :
            0 <= len
            /\ TF.slice_states (CompliantTendonHillMuscle.initial_forces p lmt len) 0
               = TF.slice_states (CompliantTendonHillMuscle.initial_forces p lmt len) 1
            /\ TF.slice_states (CompliantTendonHillMuscle.initial_forces p lmt len) 2 = 0
            /\ (lmt < tendon_length p + Hill.l0_pe p ->
                CompliantTendonHillMuscle.initial_forces p lmt len = [0; 0; 0; 0])).
  { unfold len. rewrite InitialStateFacts.initial_muscle_len_regime.
    unfold RegimeSpec.regime_of.
    destruct (Rlt_dec lmt 0); [lra |].
    destruct (Rlt_dec lmt (tendon_length p)).
    - assert (E : CompliantTendonHillMuscle.initial_forces p lmt
                    (0.001 * optimal_muscle_length p) = [0; 0; 0; 0])
        by (apply EquilibriumFacts.forces_slack; unfold Hill.l0_se, Hill.l0_ce; nra).
      rewrite E. unfold TF.slice_states; cbn [nth].
      repeat split; try reflexivity; nra.
    - destruct (Rlt_dec lmt (tendon_length p + Hill.l0_pe p)).
      + assert (E : CompliantTendonHillMuscle.initial_forces p lmt
                      (lmt - tendon_length p) = [0; 0; 0; 0])
          by (apply EquilibriumFacts.forces_slack; unfold Hill.l0_se, Hill.l0_ce; lra).
        rewrite E. unfold TF.slice_states; cbn [nth].
        repeat split; try reflexivity; lra.
      + destruct (EquilibriumFacts.equilibrium_shares p lmt) as (S1 & S2 & S3);
          try assumption; try (unfold Hill.l0_se; lra).
        destruct (EquilibriumFacts.forces_balanced p lmt
                    (CompliantTendonHillMuscle.equilibrium_muscle_len p lmt))
          as [B1 B2]; try assumption.
        split; [lra |]. split; [exact B1 |]. split; [exact B2 |]. intros; lra. }
  destruct Hfacts as (Hlen & H34 & H5 & Hslack).
  assert (Ha : 0 < 1 * min_activation p) by lra.
  pose proof (CurveFacts.f_iso_n_bounds (len / Hill.l0_ce p)) as Hf.
  destruct (SolverFacts.velocity_negative (len / Hill.l0_ce p) (1 * min_activation p) 0 Ha)
    as [v [Hv Hneg]]; [lra | unfold CompliantTendonHillMuscle.f_x_a; nra |].
  exists ([1 * min_activation p; len; v * Hill.vmax p]
          ++ CompliantTendonHillMuscle.initial_forces p lmt len).
  split.
  - unfold CompliantTendonHillMuscle._get_initial_muscle_state. fold lmt. fold len.
    apply TFFacts.assert_non_negative_Some in Hlen. rewrite Hlen.
    rewrite H5. unfold CompliantTendonHillMuscle.muscle_ode. rewrite Hv. reflexivity.
  - change (TF.slice_states ([1 * min_activation p; len; v * Hill.vmax p]
                             ++ CompliantTendonHillMuscle.initial_forces p lmt len) 0)
      with (1 * min_activation p).
    change (TF.slice_states ([1 * min_activation p; len; v * Hill.vmax p]
                             ++ CompliantTendonHillMuscle.initial_forces p lmt len) 1)
      with len.
    change (TF.slice_states ([1 * min_activation p; len; v * Hill.vmax p]
                             ++ CompliantTendonHillMuscle.initial_forces p lmt len) 2)
      with (v * Hill.vmax p).
    change (TF.slice_states ([1 * min_activation p; len; v * Hill.vmax p]
                             ++ CompliantTendonHillMuscle.initial_forces p lmt len) 3)
      with (TF.slice_states (CompliantTendonHillMuscle.initial_forces p lmt len) 0).
    change (TF.slice_states ([1 * min_activation p; len; v * Hill.vmax p]
                             ++ CompliantTendonHillMuscle.initial_forces p lmt len) 4)
      with (TF.slice_states (CompliantTendonHillMuscle.initial_forces p lmt len) 1).
    change (TF.slice_states ([1 * min_activation p; len; v * Hill.vmax p]
                             ++ CompliantTendonHillMuscle.initial_forces p lmt len) 5)
      with (TF.slice_states (CompliantTendonHillMuscle.initial_forces p lmt len) 2).
    change (TF.slice_states ([1 * min_activation p; len; v * Hill.vmax p]
                             ++ CompliantTendonHillMuscle.initial_forces p lmt len) 6)
      with (TF.slice_states (CompliantTendonHillMuscle.initial_forces p lmt len) 3).
    split; [lra |]. split; [exact Hlen |].
    split; [unfold Hill.vmax, Hill.l0_ce; nra |].
    split; [exact H34 |]. split; [exact H5 |].
    intros Hlt. rewrite (Hslack Hlt). unfold TF.slice_states; cbn [nth].
    split; reflexivity.
Qed.

Lemma initial_state_passive_equilibrium_witness :
  (0 < 1 /\ 0 < 1 /\ 0.001 <= 1.4 /\ 0 < 0.01
   /\ Hill.k_pe (default_params 0.01 1.4) * 1 ^ 2 <> Hill.k_se * 1 ^ 2
   /\ 0 <= TF.slice_states [3; 0] 0)
  /\ exists s,
       CompliantTendonHillMuscle._get_initial_muscle_state (default_params 0.01 1.4)
         1 [3; 0] = Some s
       /\ TF.slice_states s 3 = TF.slice_states s 4.
Proof.
  assert (H : Hill.k_pe (default_params 0.01 1.4) * 1 ^ 2 <> Hill.k_se * 1 ^ 2).
  { unfold Hill.k_pe, Hill.k_se, Hill.l0_pe, Hill.l0_ce, default_params; simpl. lra. }
  assert (H0 : 0 <= TF.slice_states [3; 0] 0) by (unfold TF.slice_states; simpl; lra).
  split; [repeat split; try lra; assumption |].
  destruct (initial_state_passive_equilibrium (default_params 0.01 1.4) 1 [3; 0]
              ltac:(simpl; lra) ltac:(simpl; lra) ltac:(simpl; lra) ltac:(simpl; lra)
              H H0) as [s (E & _ & _ & _ & E34 & _)].
  exists s. split; assumption.
Defined.

(** ** One step of the compliant-tendon muscle, and what the network sees *)

(** X11.  [CompliantTendonHillMuscle._integrate] advances the fiber length
    by an explicit Euler step on the normalised velocity it is given, in
    units of the optimal fiber length, and stores that velocity in units of
    [vmax = 10 * l0_ce]: the new length is the old one plus
    [dt * velocity * l0_ce], that is plus [dt] times a tenth of the stored
    velocity, and it is the old length when [dt] or the velocity is 0.  The
    force channels are computed from the old fiber length, whatever the
    step. *)
Theorem compliant_integrate_euler_step (p : MuscleParams) (dt : R)
    (sd st g : list R) :
  optimal_muscle_length p <> 0 ->
  let s := CompliantTendonHillMuscle._integrate p dt sd st g in
  let v := TF.slice_states sd 1 in
  TF.slice_states s 1 = TF.slice_states st 1 + dt * v * optimal_muscle_length p
  /\ TF.slice_states s 2 = v * (10 * optimal_muscle_length p)
  /\ TF.slice_states s 1 = TF.slice_states st 1 + dt * (TF.slice_states s 2 / 10)
  /\ (dt = 0 \/ v = 0 -> TF.slice_states s 1 = TF.slice_states st 1)
  /\ (forall dt' sd',
        skipn 3 (CompliantTendonHillMuscle._integrate p dt' sd' st g) = skipn 3 s).
Proof.
  intros Hl. cbv zeta.
  change (TF.slice_states (CompliantTendonHillMuscle._integrate p dt sd st g) 1)
    with ((TF.slice_states st 1 / Hill.l0_ce p + dt * TF.slice_states sd 1) * Hill.l0_ce p).
  change (TF.slice_states (CompliantTendonHillMuscle._integrate p dt sd st g) 2)
    with (TF.slice_states sd 1 * Hill.vmax p).
  unfold Hill.vmax, Hill.l0_ce.
  assert (E : (TF.slice_states st 1 / optimal_muscle_length p + dt * TF.slice_states sd 1)
              * optimal_muscle_length p
              = TF.slice_states st 1 + dt * TF.slice_states sd 1 * optimal_muscle_length p)
    by (field; exact Hl).
  rewrite E.
  split; [reflexivity |]. split; [reflexivity |]. split; [lra |].
  split; [| reflexivity].
  intros [H | H]; rewrite H; ring.
Qed.

Lemma compliant_integrate_euler_step_witness :
  1 <> 0
  /\ TF.slice_states
       (CompliantTendonHillMuscle._integrate (default_params 0.01 1.4) 0.01
          [0; 0.5] [0.01; 1; 0; 0; 0; 0; 0] [2; 0]) 1
     = TF.slice_states [0.01; 1; 0; 0; 0; 0; 0] 1
       + 0.01 * TF.slice_states [0; 0.5] 1 * 1.
Proof.
  split; [lra |].
  apply (proj1 (compliant_integrate_euler_step (default_params 0.01 1.4) 0.01
                  [0; 0.5] [0.01; 1; 0; 0; 0; 0; 0] [2; 0] ltac:(simpl; lra))).
Defined.

(** X12.  The proprioceptive feedback of a batch element lists the fiber
    lengths of its muscles, each divided by its [l0_ce], then the fiber
    velocities, each divided by its [vmax]: twice as many entries as
    muscles, muscle [i] at the positions [i] and [n + i]. *)
Theorem proprio_feedback_layout (muscles : list (MuscleParams * list R))
    (l0_ce vmax : MuscleParams -> R) (i : nat) (q : MuscleParams) (st : list R) :
  nth_error muscles i = Some (q, st) ->
  let fb := GRUNetwork.get_new_proprio_feedback muscles l0_ce vmax in
  length fb = (2 * length muscles)%nat
  /\ nth_error fb i = Some (TF.slice_states st 1 / l0_ce q)
  /\ nth_error fb (length muscles + i) = Some (TF.slice_states st 2 / vmax q).
Proof.
  intros Hi. cbv zeta. unfold GRUNetwork.get_new_proprio_feedback.
  assert (Hlt : (i < length muscles)%nat)
    by (apply nth_error_Some; rewrite Hi; discriminate).
  split; [rewrite length_app, !length_map; lia |].
  split.
  - rewrite nth_error_app1 by (rewrite length_map; exact Hlt).
    rewrite nth_error_map, Hi. reflexivity.
  - rewrite nth_error_app2 by (rewrite length_map; lia).
    rewrite length_map.
    replace (length muscles + i - length muscles)%nat with i by lia.
    rewrite nth_error_map, Hi. reflexivity.
Qed.

Lemma proprio_feedback_layout_witness :
  nth_error [(default_params 0.01 1.4, [0.01; 1; 5; 0; 0; 0; 0])] 0
  = Some (default_params 0.01 1.4, [0.01; 1; 5; 0; 0; 0; 0])
  /\ length (GRUNetwork.get_new_proprio_feedback
               [(default_params 0.01 1.4, [0.01; 1; 5; 0; 0; 0; 0])]
               Hill.l0_ce Hill.vmax) = 2%nat.
Proof.
  split; [reflexivity |].
  apply (proj1 (proprio_feedback_layout
                  [(default_params 0.01 1.4, [0.01; 1; 5; 0; 0; 0; 0])]
                  Hill.l0_ce Hill.vmax 0 _ _ eq_refl)).
Defined.

(** X13.  For a compliant-tendon muscle with a non-zero optimal length, the
    proprioceptive feedback read off the state that [_integrate] returns is
    the old normalised fiber length advanced by [dt] times the normalised
    velocity, and that normalised velocity itself: dividing by [l0_ce] and
    [vmax] undoes the scaling of [_integrate]. *)
Theorem proprio_feedback_of_compliant_step (p : MuscleParams) (dt : R)
    (sd st g : list R) :
  optimal_muscle_length p <> 0 ->
  GRUNetwork.get_new_proprio_feedback
    [(p, CompliantTendonHillMuscle._integrate p dt sd st g)] Hill.l0_ce Hill.vmax
  = [TF.slice_states st 1 / Hill.l0_ce p + dt * TF.slice_states sd 1;
     TF.slice_states sd 1].
Proof.
  intros Hl. unfold GRUNetwork.get_new_proprio_feedback. cbn [map app fst snd].
  change (TF.slice_states (CompliantTendonHillMuscle._integrate p dt sd st g) 1)
    with ((TF.slice_states st 1 / Hill.l0_ce p + dt * TF.slice_states sd 1) * Hill.l0_ce p).
  change (TF.slice_states (CompliantTendonHillMuscle._integrate p dt sd st g) 2)
    with (TF.slice_states sd 1 * Hill.vmax p).
  unfold Hill.vmax, Hill.l0_ce. f_equal; [| f_equal]; field; lra.
Qed.

Lemma proprio_feedback_of_compliant_step_witness :
  1 <> 0
  /\ GRUNetwork.get_new_proprio_feedback
       [(default_params 0.01 1.4,
         CompliantTendonHillMuscle._integrate (default_params 0.01 1.4) 0.01
           [0; 0.5] [0.01; 1; 0; 0; 0; 0; 0] [2; 0])] Hill.l0_ce Hill.vmax
     = [TF.slice_states [0.01; 1; 0; 0; 0; 0; 0] 1 / Hill.l0_ce (default_params 0.01 1.4)
        + 0.01 * TF.slice_states [0; 0.5] 1;
        TF.slice_states [0; 0.5] 1].
Proof.
  split; [lra |].
  apply (proprio_feedback_of_compliant_step (default_params 0.01 1.4) 0.01
           [0; 0.5] [0.01; 1; 0; 0; 0; 0; 0] [2; 0]).
  simpl. lra.
Defined.

(** ** The Thelen muscle at rest *)

Module ThelenFacts.

Lemma exp_le_1 (x : R) : x <= 0 -> exp x <= 1.
Proof.
  intros [H | H].
  - left. rewrite <- exp_0. apply exp_increasing. exact H.
  - rewrite H, exp_0. lra.
Qed.

Lemma channels (p : MuscleParams) (dt d : R) (st g : list R) :
  let s := RigidTendonHillMuscleThelen._integrate p dt d st g in
  TF.slice_states s 4
  = exp (- (TF.slice_states s 1 / optimal_muscle_length p - 1) ^ 2 / 0.45)
  /\ TF.slice_states s 5
     = ThelenSpec.fvce (optimal_muscle_length p) (TF.slice_states s 0)
         (TF.slice_states g 1)
  /\ TF.slice_states s 6
     = (TF.slice_states s 0 * TF.slice_states s 4 * TF.slice_states s 5
        + TF.slice_states s 3) * max_isometric_force p.
Proof.
  cbv zeta.
  unfold RigidTendonHillMuscleThelen._integrate, TF.slice_states; cbn [nth].
  split; [reflexivity |]. split; [| reflexivity].
  unfold ThelenSpec.fvce, TF.where_, TF.leb, TF.maximum.
  unfold RigidTendonHillMuscleThelen.ce_0, RigidTendonHillMuscleThelen.ce_1,
    RigidTendonHillMuscleThelen.ce_2, RigidTendonHillMuscleThelen.ce_3,
    RigidTendonHillMuscleThelen.ce_4, RigidTendonHillMuscleThelen.ce_5,
    RigidTendonHillMuscleThelen.ce_1,
    RigidTendonHillMuscleThelen.ce_Af, RigidTendonHillMuscleThelen.ce_fmlen,
    RigidTendonHillMuscleThelen.vmax, RigidTendonHillMuscleThelen.l0_ce.
  destruct (Rle_dec (nth 1 g 0) 0); reflexivity.
Qed.

End ThelenFacts.

(** X14.  At zero velocity the force-velocity term of the Thelen muscle is
    1 and the force is [(activation * flce + flpe) * max_iso_force],
    provided the optimal length is not 0 and [min_activation] is above
    [-1/3]; its fiber length is never below 0.001 and its active
    force-length term lies in [(0, 1]]. *)
Theorem thelen_isometric_force (p : MuscleParams) (dt d : R) (st g : list R) :
  optimal_muscle_length p <> 0 -> - (1 / 3) < min_activation p ->
  let s := RigidTendonHillMuscleThelen._integrate p dt d st g in
  0.001 <= TF.slice_states s 1
  /\ 0 < TF.slice_states s 4 <= 1
  /\ (TF.slice_states g 1 = 0 ->
      TF.slice_states s 5 = 1
      /\ TF.slice_states s 6
         = (TF.slice_states s 0 * TF.slice_states s 4 + TF.slice_states s 3)
           * max_isometric_force p).
Proof.
  intros Hl Hm. cbv zeta.
  assert (Ha : - (1 / 3) < TF.slice_states
                 (RigidTendonHillMuscleThelen._integrate p dt d st g) 0).
  { rewrite IntegrateFacts.thelen_activation.
    eapply Rlt_le_trans; [exact Hm | apply TFFacts.clip_lower]. }
  split; [| split].
  - change (TF.slice_states (RigidTendonHillMuscleThelen._integrate p dt d st g) 1)
      with (Rmax (TF.slice_states g 0 - tendon_length p) 0.001).
    apply Rmax_r.
  - destruct (ThelenFacts.channels p dt d st g) as [E4 _]. cbv zeta in E4. rewrite E4.
    split; [apply exp_pos |]. apply ThelenFacts.exp_le_1.
    assert (H0 : 0 <= (TF.slice_states
                         (RigidTendonHillMuscleThelen._integrate p dt d st g) 1
                       / optimal_muscle_length p - 1) ^ 2) by apply pow2_ge_0.
    assert (0 < / 0.45) by (apply Rinv_0_lt_compat; lra).
    unfold Rdiv at 1. nra.
  - intros Hv.
    destruct (ThelenFacts.channels p dt d st g) as [_ [E5 E6]]. cbv zeta in E5, E6.
    assert (E : TF.slice_states (RigidTendonHillMuscleThelen._integrate p dt d st g) 5 = 1).
    { rewrite E5, Hv. unfold ThelenSpec.fvce. cbv zeta.
      set (a := TF.slice_states (RigidTendonHillMuscleThelen._integrate p dt d st g) 0) in *.
      destruct (Rle_dec 0 0) as [_ | H]; [| lra].
      replace (0.25 * (a * (3 * (10 * optimal_muscle_length p)) + 4 * 0
                       + 10 * optimal_muscle_length p)
               / (a * 3 * (0.25 * (10 * optimal_muscle_length p))
                  + 0.25 * (10 * optimal_muscle_length p) - 4 * 0)) with 1.
      - apply Rmax_left. lra.
      - assert (Hq : 0.25 * (a * (3 * (10 * optimal_muscle_length p)) + 4 * 0
                             + 10 * optimal_muscle_length p)
                     = a * 3 * (0.25 * (10 * optimal_muscle_length p))
                       + 0.25 * (10 * optimal_muscle_length p) - 4 * 0) by lra.
        rewrite Hq. symmetry. apply Rdiv_diag.
        replace (a * 3 * (0.25 * (10 * optimal_muscle_length p))
                 + 0.25 * (10 * optimal_muscle_length p) - 4 * 0)
          with (2.5 * (optimal_muscle_length p * (3 * a + 1))) by lra.
        apply Rmult_integral_contrapositive_currified; [lra |].
        apply Rmult_integral_contrapositive_currified; [exact Hl | lra]. }
    split; [exact E |]. rewrite E6, E. f_equal. ring.
Qed.

Lemma thelen_isometric_force_witness :
  (1 <> 0 /\ - (1 / 3) < 0.001 /\ TF.slice_states [2; 0] 1 = 0)
  /\ TF.slice_states
       (RigidTendonHillMuscleThelen._integrate (default_params 0.001 1) 0.01 0
          [0.001] [2; 0]) 5 = 1.
Proof.
  split; [split; [lra | split; [lra | reflexivity]] |].
  apply (proj2 (proj2
           (thelen_isometric_force (default_params 0.001 1) 0.01 0 [0.001] [2; 0]
              ltac:(simpl; lra) ltac:(simpl; lra)))).
  reflexivity.
Defined.

(** ** The attributes [build] derives, muscle by muscle *)

Module BuildViewFacts.
Import Build.

Lemma nth_map_in (h : R -> R) (l : list R) (i : nat) :
  (i < length l)%nat -> nth i (map h l) 0 = h (nth i l 0).
Proof.
  intros Hi. rewrite (nth_indep (map h l) 0 (h 0)) by (rewrite length_map; exact Hi).
  apply map_nth.
Qed.

Lemma nth_map2 (f : R -> R -> R) (a b : list R) (i : nat) :
  (i < length a)%nat -> length a = length b ->
  nth i (map2 f a b) 0 = f (nth i a 0) (nth i b 0).
Proof.
  revert b i. induction a as [| x a IH]; intros [| y b] i Hi Hl; simpl in *;
    try lia; try discriminate.
  destruct i as [| i]; [reflexivity |]. apply IH; lia.
Qed.

(** Element [i] of a broadcast product: the right operand is read at [i],
    or at 0 when it has one element. *)
Lemma broadcast_nth (f : R -> R -> R) (a b r : list R) (i : nat) :
  broadcast f a b = Some r -> (i < length a)%nat ->
  length b = length a \/ length b = 1%nat ->
  length r = length a
  /\ nth i r 0 = f (nth i a 0) (nth (if Nat.eqb (length b) 1 then 0 else i) b 0).
Proof.
  unfold broadcast. intros H Hi Hb.
  destruct (Nat.eqb (length a) (length b)) eqn:E.
  - apply Nat.eqb_eq in E. injection H as H; subst r.
    split; [apply BuildFacts.map2_length; exact E |].
    rewrite nth_map2 by assumption.
    destruct (Nat.eqb (length b) 1) eqn:E1; [| reflexivity].
    apply Nat.eqb_eq in E1. assert (i = 0%nat) by lia. subst i. reflexivity.
  - apply Nat.eqb_neq in E.
    destruct Hb as [Hb | Hb]; [congruence |].
    destruct b as [| y [| y' b]]; try discriminate.
    destruct a as [| x [| x' a]]; simpl in Hi; try lia.
    + exfalso. apply E. reflexivity.
    + injection H as H; subst r.
      change (f x y :: f x' y :: map (fun x0 : R => f x0 y) a)
        with (map (fun x0 : R => f x0 y) (x :: x' :: a)).
      split; [apply length_map |].
      simpl Nat.eqb. cbv iota.
      rewrite (nth_map_in (fun x0 => f x0 y)) by exact Hi. reflexivity.
Qed.

End BuildViewFacts.

(** X15.  When [RigidTendonHillMuscle.build] returns and the normalized
    slack length has as many elements as [tendon_length] or one element,
    every attribute has [n_muscles] elements, and muscle [i] gets the
    attributes of the per-muscle model: [l0_ce], [l0_se] and
    [max_iso_force] are its arguments, [l0_pe] is [l0_ce] times its slack
    length, [vmax] is [10 * l0_ce], [k_pe] is
    [1 / (1.66 - l0_pe / l0_ce) ^ 2] and the musculotendon slack length
    is [l0_pe + l0_se]. *)
Theorem kistemaker_build_attributes (ts : R) (f t o s : list R) (b : Build.Attrs)
    (i : nat) (min_act tau_a tau_d : R) :
  Build.RigidTendonHillMuscle_build ts (Some f) (Some t) (Some o) (Some s) = Some b ->
  length s = length t \/ length s = 1%nat ->
  (i < length t)%nat ->
  let p := mkMuscleParams min_act tau_a tau_d ts (nth i f 0) (nth i t 0) (nth i o 0)
             (nth (if Nat.eqb (length s) 1 then 0 else i) s 0) in
  Build.n_muscles b = length t
  /\ Build.dt b = ts
  /\ length (Build.max_iso_force b) = length t
  /\ length (Build.vmax b) = length t
  /\ length (Build.l0_se b) = length t
  /\ length (Build.l0_ce b) = length t
  /\ length (Build.l0_pe b) = length t
  /\ nth i (Build.max_iso_force b) 0 = Hill.max_iso_force p
  /\ nth i (Build.l0_se b) 0 = Hill.l0_se p
  /\ nth i (Build.l0_ce b) 0 = Hill.l0_ce p
  /\ nth i (Build.l0_pe b) 0 = Hill.l0_pe p
  /\ nth i (Build.vmax b) 0 = Hill.vmax p
  /\ (exists k, Build.k_pe b = Some k /\ length k = length t
                /\ nth i k 0 = Hill.k_pe p)
  /\ (exists m, Build.musculotendon_slack_len b = Some m /\ length m = length t
                /\ nth i m 0 = Hill.musculotendon_slack_len p).
Proof.
  intros H Hs Hi. cbv zeta.
  unfold Build.RigidTendonHillMuscle_build in H. cbn [Build.np_size] in H.
  apply BuildFacts.bind_Some in H. destruct H as [ce [Ece H]].
  apply BuildFacts.cast_reshape_Some in Ece. destruct Ece as [Ece Lce].
  injection Ece as Ece. subst ce.
  apply BuildFacts.bind_Some in H. destruct H as [pe [Epe H]].
  cbn [Build.broadcast_arg] in Epe.
  apply BuildFacts.bind_Some in H. destruct H as [ra [Era H]].
  apply BuildFacts.bind_Some in H. destruct H as [mf [Emf H]].
  apply BuildFacts.cast_reshape_Some in Emf. destruct Emf as [Emf Lmf].
  injection Emf as Emf. subst mf.
  apply BuildFacts.bind_Some in H. destruct H as [se [Ese H]].
  apply BuildFacts.cast_reshape_Some in Ese. destruct Ese as [Ese _].
  injection Ese as Ese. subst se.
  apply BuildFacts.bind_Some in H. destruct H as [sl [Esl H]].
  injection H as H. subst b. cbn.
  assert (Hio : (i < length o)%nat) by lia.
  destruct (BuildViewFacts.broadcast_nth Rmult o s pe i Epe Hio) as [Lpe Npe];
    [lia |].
  assert (Hipe : (i < length pe)%nat) by lia.
  destruct (BuildViewFacts.broadcast_nth Rdiv pe o ra i Era Hipe) as [Lra Nra];
    [lia |].
  destruct (BuildViewFacts.broadcast_nth Rplus pe t sl i Esl Hipe) as [Lsl Nsl];
    [lia |].
  assert (Eo : nth (if Nat.eqb (length o) 1 then 0%nat else i) o 0 = nth i o 0).
  { destruct (Nat.eqb (length o) 1) eqn:E1; [| reflexivity].
    apply Nat.eqb_eq in E1. assert (i = 0%nat) by lia. subst i. reflexivity. }
  assert (Et : nth (if Nat.eqb (length t) 1 then 0%nat else i) t 0 = nth i t 0).
  { destruct (Nat.eqb (length t) 1) eqn:E1; [| reflexivity].
    apply Nat.eqb_eq in E1. assert (i = 0%nat) by lia. subst i. reflexivity. }
  rewrite Eo in Nra. rewrite Et in Nsl.
  unfold Hill.max_iso_force, Hill.l0_se, Hill.l0_ce, Hill.l0_pe, Hill.vmax,
    Hill.k_pe, Hill.musculotendon_slack_len, Hill.l0_pe, Hill.l0_ce, Hill.l0_se.
  cbn [max_isometric_force tendon_length optimal_muscle_length
       normalized_slack_muscle_length].
  rewrite length_map.
  repeat (split; [first [reflexivity | lia | exact Npe] |]).
  split; [apply BuildViewFacts.nth_map_in; lia |].
  split.
  - eexists. split; [reflexivity |]. split; [rewrite length_map; lia |].
    rewrite (BuildViewFacts.nth_map_in (fun r => 1 / (1.66 - r) ^ 2)) by lia.
    rewrite Nra, Npe. reflexivity.
  - eexists. split; [reflexivity |]. split; [lia |].
    rewrite Nsl, Npe. reflexivity.
Qed.

Lemma kistemaker_build_attributes_witness :
  exists b,
    (Build.RigidTendonHillMuscle_build 0.01 (Some [100; 200]) (Some [1; 2])
       (Some [3; 4]) (Some [1.4]) = Some b
     /\ (length [1.4] = length [1; 2] \/ length [1.4] = 1%nat)
     /\ (1 < length [1; 2])%nat)
    /\ nth 1 (Build.l0_pe b) 0
       = Hill.l0_pe (mkMuscleParams 0.001 0.015 0.05 0.01 200 2 4 1.4).
Proof.
  eexists. split; [split; [reflexivity | split; [right; reflexivity | simpl; lia]] |].
  apply (kistemaker_build_attributes 0.01 [100; 200] [1; 2] [3; 4] [1.4] _ 1
           0.001 0.015 0.05 eq_refl (or_intror eq_refl) ltac:(simpl; lia)).
Defined.

(** X16.  [CompliantTendonHillMuscle.build] derives the same attributes as
    [RigidTendonHillMuscle.build], and raises on the same arguments. *)
Theorem compliant_build_is_kistemaker_build (ts : R) (F tl ol ns : Build.Arg) :
  Build.CompliantTendonHillMuscle_build ts F tl ol ns
  = Build.RigidTendonHillMuscle_build ts F tl ol ns.
Proof.
  unfold Build.CompliantTendonHillMuscle_build, Build.RigidTendonHillMuscle_build.
  destruct (Build.cast_reshape ol (Build.np_size tl)) as [ce |]; [| reflexivity].
  cbn [Build.bind].
  destruct (Build.broadcast_arg Rmult ce ns) as [pe |]; [| reflexivity].
  cbn [Build.bind].
  destruct (Build.cast_reshape tl (Build.np_size tl)) as [se |];
    destruct (Build.broadcast Rdiv pe ce) as [ra |];
    destruct (Build.cast_reshape F (Build.np_size tl)) as [mf |];
    cbn [Build.bind]; try reflexivity;
    destruct (Build.broadcast Rplus pe se) as [sl |]; reflexivity.
Qed.

(** * Properties of [GRUNetwork]'s data handling *)

Module GRUFacts.
Import GRUNetwork.

Lemma astype_repeat (n : Z) (m : nat) :
  astype_int32_all (repeat n m)
  = match m, astype_int32 n with
    | O, _ => Some []
    | S _, Some z => Some (repeat z m)
    | S _, None => None
    end.
Proof.
  induction m as [| m IH]; [reflexivity |].
  cbn [repeat astype_int32_all]. rewrite IH.
  destruct (astype_int32 n) as [z |]; [| reflexivity].
  destruct m; reflexivity.
Qed.

Lemma init_units_int (n k : Z) :
  init_units (UnitsInt n) k
  = if (k <? 0)%Z then None
    else if (k =? 0)%Z then Some ([], 0%Z)
    else if ((-9223372036854775808 <=? n) && (n <? 18446744073709551616))%Z
    then Some (repeat (int32 n) (Z.to_nat k), k)
    else None.
Proof.
  unfold init_units, np_repeat. destruct (k <? 0)%Z eqn:E; [reflexivity |].
  apply Z.ltb_ge in E. rewrite astype_repeat.
  destruct (k =? 0)%Z eqn:E0.
  - apply Z.eqb_eq in E0. subst k. reflexivity.
  - apply Z.eqb_neq in E0.
    destruct (Z.to_nat k) as [| m] eqn:Em; [lia |].
    unfold astype_int32.
    destruct ((-9223372036854775808 <=? n) && (n <? 18446744073709551616))%Z;
      [| reflexivity].
    rewrite repeat_length, <- Em, Z2Nat.id by exact E.
    destruct ((1 <? k) && (k =? 1))%Z eqn:E1.
    + apply andb_prop in E1. destruct E1 as [E1 E2].
      apply Z.ltb_lt in E1. apply Z.eqb_eq in E2. lia.
    + rewrite Z.eqb_refl. reflexivity.
Qed.

Lemma int32_range (z : Z) : (-2147483648 <= int32 z < 2147483648)%Z.
Proof.
  unfold int32.
  pose proof (Z.mod_pos_bound (z + 2147483648) 4294967296 ltac:(lia)). lia.
Qed.

Lemma init_units_list (l : list Z) (k : Z) :
  init_units (UnitsList l) k
  = if ((Z.of_nat (length l) =? k)
        || ((1 <? Z.of_nat (length l)) && (k =? 1)))%Z
    then Some (l, Z.of_nat (length l)) else None.
Proof.
  unfold init_units.
  destruct ((1 <? Z.of_nat (length l)) && (k =? 1))%Z eqn:E1.
  - rewrite Z.eqb_refl, orb_true_r. reflexivity.
  - rewrite orb_false_r. destruct (Z.of_nat (length l) =? k)%Z eqn:E2; [| reflexivity].
    apply Z.eqb_eq in E2. rewrite E2. reflexivity.
Qed.

Lemma repeat_eq_iff (c : Z) (us : list Z) :
  repeat c (length us) = us <-> Forall (fun x => x = c) us.
Proof.
  induction us as [| x us IH]; simpl.
  - split; [constructor | reflexivity].
  - split.
    + intros H. injection H as Hx H. constructor; [auto | apply IH; exact H].
    + intros H. inversion H as [| ? ? Hx Hr]; subst. f_equal. apply IH. exact Hr.
Qed.

(** The buffer is a delay line: what comes out is what is in the buffer,
    then what was put in, in order. *)
Lemma run_delay (sd : R) (steps : list (R * R)) (buffer : list R) :
  buffer <> [] ->
  feedback_run buffer sd steps
  = Some (firstn (length steps) (buffer ++ noisy_feedback sd steps),
          skipn (length steps) (buffer ++ noisy_feedback sd steps)).
Proof.
  revert buffer. induction steps as [| [x z] steps IH]; intros buffer Hb.
  - simpl. rewrite app_nil_r. reflexivity.
  - destruct buffer as [| y buffer]; [contradiction |].
    cbn [feedback_run feedback_step get_feedback_backlog get_feedback_current].
    rewrite IH by (unfold lambda_cat2; intros H; apply app_eq_nil in H;
                   destruct H; discriminate).
    unfold lambda_cat2, noisy_feedback. cbn [map length fst snd].
    rewrite <- !app_assoc. reflexivity.
Qed.

Lemma add_noise_all_length (xs : list R) (sd : R) (zs : list R) :
  length xs = length zs -> length (add_noise_all xs sd zs) = length xs.
Proof.
  revert zs. induction xs as [| x xs IH]; intros [| z zs] H; simpl in *;
    try reflexivity; try discriminate.
  f_equal. apply IH. lia.
Qed.

Lemma initial_feedback_no_noise (x : R) (delay : nat) (zs : list R) :
  length zs = delay -> initial_feedback x 0 delay zs = repeat x delay.
Proof.
  unfold initial_feedback, tile_feedback. revert zs.
  induction delay as [| d IH]; intros [| z zs] H; simpl in *;
    try reflexivity; try discriminate.
  f_equal.
  - unfold add_noise. ring.
  - apply IH. lia.
Qed.

End GRUFacts.

(** X17.  What [__init__] makes of [n_units] and [n_hidden_layers]: an
    integer is repeated [n_hidden_layers] times and cast to [int32], a
    negative count raising, and so does, for a positive count, an integer
    below [-2^63] or from [2^64] on, which no 64-bit array holds; a count
    of 0 gives the empty list.  A sequence is kept, with [n_hidden_layers]
    set to its length when it was 1 and the sequence has several sizes, and
    raising when the length and the count still disagree.  Whenever
    [__init__] goes on, the count is the length of the list. *)
Theorem init_units_cases (n_units : GRUNetwork.NUnits) (k : Z) :
  (forall us k', GRUNetwork.init_units n_units k = Some (us, k') ->
     k' = Z.of_nat (length us))
  /\ (forall n, GRUNetwork.init_units (GRUNetwork.UnitsInt n) k
                = if (k <? 0)%Z then None
                  else if (k =? 0)%Z then Some ([], 0%Z)
                  else if ((- 2 ^ 63 <=? n) && (n <? 2 ^ 64))%Z
                  then Some (repeat (GRUNetwork.int32 n) (Z.to_nat k), k)
                  else None)
  /\ (forall l, GRUNetwork.init_units (GRUNetwork.UnitsList l) k
                = if ((Z.of_nat (length l) =? k)
                      || ((1 <? Z.of_nat (length l)) && (k =? 1)))%Z
                  then Some (l, Z.of_nat (length l)) else None).
Proof.
  split; [| split; [intros n; apply GRUFacts.init_units_int
                   | intros l; apply GRUFacts.init_units_list]].
  intros us k' H. destruct n_units as [n | l].
  - rewrite GRUFacts.init_units_int in H. destruct (k <? 0)%Z eqn:E; [discriminate |].
    apply Z.ltb_ge in E.
    destruct (k =? 0)%Z; [injection H as H1 H2; subst us k'; reflexivity |].
    destruct ((-9223372036854775808 <=? n) && (n <? 18446744073709551616))%Z;
      [| discriminate].
    injection H as H1 H2. subst us k'.
    rewrite repeat_length, Z2Nat.id by exact E. reflexivity.
  - rewrite GRUFacts.init_units_list in H.
    destruct ((Z.of_nat (length l) =? k)
              || (1 <? Z.of_nat (length l)) && (k =? 1))%Z; [| discriminate].
    injection H as H1 H2. subst us k'. reflexivity.
Qed.

(** X18.  [get_base_config] saves the size of the first layer only: the
    entry raises exactly on an empty list of layers, and giving the saved
    size and the saved number of layers back to [__init__] reproduces the
    list of layers exactly when every layer has the saved size, seen as an
    [int32]. *)
Theorem config_keeps_first_layer (us : list Z) (k c : Z) :
  k = Z.of_nat (length us) ->
  (GRUNetwork.config_n_units us = None <-> us = [])
  /\ (GRUNetwork.config_n_units us = Some c ->
      (GRUNetwork.init_units (GRUNetwork.UnitsInt c) k = Some (us, k)
       <-> Forall (fun x => x = GRUNetwork.int32 c) us)).
Proof.
  intros Hk. split.
  - destruct us; simpl; split; intros H; try reflexivity; discriminate.
  - intros Hc. destruct us as [| x us']; [discriminate |].
    injection Hc as Hx. subst x.
    rewrite GRUFacts.init_units_int.
    assert (E : (k <? 0)%Z = false) by (apply Z.ltb_ge; lia).
    assert (E0 : (k =? 0)%Z = false) by (apply Z.eqb_neq; simpl in Hk; lia).
    rewrite E, E0.
    destruct ((-9223372036854775808 <=? c) && (c <? 18446744073709551616))%Z eqn:Er.
    + subst k. rewrite Nat2Z.id.
      rewrite <- GRUFacts.repeat_eq_iff. split.
      * intros H.
        apply (f_equal (fun o : option (list Z * Z) =>
                          match o with Some (l, _) => l | None => [] end)) in H.
        exact H.
      * intros H. rewrite H. reflexivity.
    + split; [discriminate |].
      intros H. inversion H as [| ? ? Hx _]; subst.
      pose proof (GRUFacts.int32_range c) as Hr.
      apply andb_false_iff in Er. destruct Er as [Er | Er].
      * apply Z.leb_gt in Er. lia.
      * apply Z.ltb_ge in Er. lia.
Qed.

Lemma config_keeps_first_layer_witness :
  2%Z = Z.of_nat (length [20%Z; 30%Z])
  /\ (GRUNetwork.config_n_units [20%Z; 30%Z] = None <-> [20%Z; 30%Z] = []).
Proof.
  split; [reflexivity |].
  apply (proj1 (config_keeps_first_layer [20%Z; 30%Z] 2 20 eq_refl)).
Defined.

(** X19.  A feedback buffer is a delay line.  Through any number of calls,
    a non-empty buffer of [d] values delivers first its own values, then
    the noisy feedback of the earlier calls, each [d] calls after it was
    appended; the buffer keeps its length.  An empty buffer (a delay of 0)
    makes the first call raise. *)
Theorem feedback_buffer_is_delay_line (buffer : list R) (sd : R)
    (steps : list (R * R)) :
  buffer <> [] ->
  let line := buffer ++ noisy_feedback sd steps in
  GRUNetwork.feedback_run buffer sd steps
  = Some (firstn (length steps) line, skipn (length steps) line)
  /\ length (skipn (length steps) line) = length buffer
  /\ (forall k x z, nth_error steps k = Some (x, z) ->
        nth_error line (length buffer + k) = Some (GRUNetwork.add_noise x sd z))
  /\ (forall s, GRUNetwork.feedback_run [] sd (s :: steps) = None).
Proof.
  intros Hb. cbv zeta.
  split; [apply GRUFacts.run_delay; exact Hb |].
  split; [| split].
  - rewrite length_skipn, length_app. unfold noisy_feedback. rewrite length_map. lia.
  - intros k x z Hk.
    rewrite nth_error_app2 by lia.
    replace (length buffer + k - length buffer)%nat with k by lia.
    unfold noisy_feedback. rewrite nth_error_map, Hk. reflexivity.
  - intros [x z]. reflexivity.
Qed.

Lemma feedback_buffer_is_delay_line_witness :
  [1; 2] <> []
  /\ GRUNetwork.feedback_run [1; 2] 0 [(3, 0); (4, 0); (5, 0)]
     = Some (firstn 3 ([1; 2] ++ noisy_feedback 0 [(3, 0); (4, 0); (5, 0)]),
             skipn 3 ([1; 2] ++ noisy_feedback 0 [(3, 0); (4, 0); (5, 0)])).
Proof.
  assert (H : [1; 2] <> []) by discriminate.
  split; [exact H |].
  apply (proj1 (feedback_buffer_is_delay_line [1; 2] 0 [(3, 0); (4, 0); (5, 0)] H)).
Defined.

(** X20.  The buffer that [get_initial_state] builds for a delay [d] has
    [d] values; without noise they are all the initial true feedback, and
    the first [d] calls then deliver exactly that value. *)
Theorem initial_feedback_fills_delay (x sd : R) (delay : nat) (zs : list R)
    (steps : list (R * R)) :
  length zs = delay ->
  length (GRUNetwork.initial_feedback x sd delay zs) = delay
  /\ GRUNetwork.initial_feedback x 0 delay zs = repeat x delay
  /\ (length steps = delay -> (0 < delay)%nat ->
      exists last,
        GRUNetwork.feedback_run (GRUNetwork.initial_feedback x 0 delay zs) 0 steps
        = Some (repeat x delay, last)).
Proof.
  intros Hz. split; [| split].
  - unfold GRUNetwork.initial_feedback, GRUNetwork.tile_feedback.
    rewrite GRUFacts.add_noise_all_length; rewrite repeat_length; congruence.
  - apply GRUFacts.initial_feedback_no_noise. exact Hz.
  - intros Hs Hd. rewrite GRUFacts.initial_feedback_no_noise by exact Hz.
    eexists. rewrite GRUFacts.run_delay by (destruct delay; [lia | discriminate]).
    f_equal. f_equal.
    rewrite firstn_app, Hs, repeat_length, Nat.sub_diag, firstn_O, app_nil_r.
    rewrite <- (repeat_length x delay) at 1. apply firstn_all.
Qed.

Lemma initial_feedback_fills_delay_witness :
  length [0.1; 0.2] = 2%nat
  /\ length (GRUNetwork.initial_feedback 7 0.5 2 [0.1; 0.2]) = 2%nat.
Proof.
  split; [reflexivity |].
  apply (proj1 (initial_feedback_fills_delay 7 0.5 2 [0.1; 0.2] [] eq_refl)).
Defined.

(** X21.  The visual feedback keeps the first half of the cartesian state,
    the positions, and drops the velocities; it raises exactly on a state
    of odd size. *)
Theorem visual_feedback_keeps_positions (pos vel cstate : list R) :
  (length pos = length vel ->
   GRUNetwork.get_new_visual_feedback (pos ++ vel) = Some pos)
  /\ (GRUNetwork.get_new_visual_feedback cstate = None
      <-> Nat.odd (length cstate) = true)
  /\ (forall fb, GRUNetwork.get_new_visual_feedback cstate = Some fb ->
        (2 * length fb = length cstate)%nat).
Proof.
  unfold GRUNetwork.get_new_visual_feedback. split; [| split].
  - intros H. rewrite length_app, <- H.
    replace (length pos + length pos)%nat with (2 * length pos)%nat by lia.
    rewrite Nat.even_mul. cbn [Nat.even orb].
    rewrite Nat.div2_double. rewrite firstn_app, Nat.sub_diag, firstn_O, app_nil_r.
    rewrite firstn_all. reflexivity.
  - rewrite <- Nat.negb_even. destruct (Nat.even (length cstate)); simpl;
      split; intros H; try reflexivity; discriminate.
  - intros fb. destruct (Nat.even (length cstate)) eqn:E; [| discriminate].
    intros H. injection H as H. subst fb.
    apply Nat.even_spec in E. destruct E as [m Hm].
    rewrite Hm, Nat.div2_double, length_firstn. lia.
Qed.

Lemma visual_feedback_keeps_positions_witness :
  length [1; 2] = length [3; 4]
  /\ GRUNetwork.get_new_visual_feedback ([1; 2] ++ [3; 4]) = Some [1; 2].
Proof.
  split; [reflexivity |].
  apply (proj1 (visual_feedback_keeps_positions [1; 2] [3; 4] [] )). reflexivity.
Defined.

(** X22.  On whole tensors the fiber-velocity solver raises exactly when
    some element has a negative radicand with an active force at or above
    its isometric force; otherwise it returns one velocity per element,
    each the velocity of its element. *)
Theorem muscle_ode_tensor_guard (xs : list (R * R * R)) :
  (muscle_ode_tensor xs = None
   <-> exists n a af, In (n, a, af) xs
         /\ CompliantTendonHillMuscle.sqrt_term n a af < 0
         /\ CompliantTendonHillMuscle.f_x_a n a <= af)
  /\ (forall vs, muscle_ode_tensor xs = Some vs ->
        length vs = length xs
        /\ forall i n a af, nth_error xs i = Some (n, a, af) ->
             exists v, nth_error vs i = Some v
                       /\ CompliantTendonHillMuscle._muscle_ode n a af = Some v).
Proof.
  unfold muscle_ode_tensor. split.
  - rewrite on_tensor_None. split.
    + intros [[[n a] af] [Hin Hn]]. cbn [fst snd] in Hn.
      apply MuscleOdeFacts.muscle_ode_None in Hn. exists n, a, af. tauto.
    + intros (n & a & af & Hin & Hr & Hf). exists (n, a, af). split; [exact Hin |].
      cbn [fst snd]. apply MuscleOdeFacts.muscle_ode_None. tauto.
  - induction xs as [| [[n a] af] xs IH]; intros vs H.
    + injection H as H. subst vs. split; [reflexivity |].
      intros [| i] ? ? ? Hi; discriminate.
    + cbn [on_tensor fst snd] in H.
      destruct (CompliantTendonHillMuscle._muscle_ode n a af) as [v |] eqn:Ev;
        [| discriminate].
      destruct (on_tensor _ xs) as [vs' |] eqn:Er; [| discriminate].
      injection H as H. subst vs.
      destruct (IH vs' eq_refl) as [Hl Hn]. split; [simpl; lia |].
      intros [| i] n' a' af' Hi.
      * injection Hi as H1 H2 H3. subst. exists v. split; [reflexivity | exact Ev].
      * apply (Hn i n' a' af' Hi).
Qed.

(** X23.  When [RigidTendonHillMuscleThelen.build] returns and the
    normalized slack length has as many elements as [tendon_length] or one
    element, muscle [i] gets the attributes of the per-muscle model:
    lengths, [vmax = 10 * l0_ce] and the pre-computed coefficients [ce_0],
    [ce_1], [ce_2], [ce_4] of its force-velocity curve, [ce_3] and [ce_5]
    being the same for all muscles. *)
Theorem thelen_build_attributes (ts : R) (f t o s : list R) (b : Build.Attrs)
    (i : nat) (min_act tau_a tau_d : R) :
  Build.RigidTendonHillMuscleThelen_build ts (Some f) (Some t) (Some o) (Some s)
  = Some b ->
  length s = length t \/ length s = 1%nat ->
  (i < length t)%nat ->
  let p := mkMuscleParams min_act tau_a tau_d ts (nth i f 0) (nth i t 0) (nth i o 0)
             (nth (if Nat.eqb (length s) 1 then 0 else i) s 0) in
  Build.n_muscles b = length t
  /\ nth i (Build.max_iso_force b) 0 = RigidTendonHillMuscleThelen.max_iso_force p
  /\ nth i (Build.l0_se b) 0 = RigidTendonHillMuscleThelen.l0_se p
  /\ nth i (Build.l0_ce b) 0 = RigidTendonHillMuscleThelen.l0_ce p
  /\ nth i (Build.l0_pe b) 0 = RigidTendonHillMuscleThelen.l0_pe p
  /\ nth i (Build.vmax b) 0 = RigidTendonHillMuscleThelen.vmax p
  /\ (exists c, Build.ce_0 b = Some c /\ length c = length t
                /\ nth i c 0 = RigidTendonHillMuscleThelen.ce_0 p)
  /\ (exists c, Build.ce_1 b = Some c /\ length c = length t
                /\ nth i c 0 = RigidTendonHillMuscleThelen.ce_1 p)
  /\ (exists c, Build.ce_2 b = Some c /\ length c = length t
                /\ nth i c 0 = RigidTendonHillMuscleThelen.ce_2 p)
  /\ Build.ce_3 b = Some RigidTendonHillMuscleThelen.ce_3
  /\ (exists c, Build.ce_4 b = Some c /\ length c = length t
                /\ nth i c 0 = RigidTendonHillMuscleThelen.ce_4 p)
  /\ Build.ce_5 b = Some RigidTendonHillMuscleThelen.ce_5
  /\ Build.k_pe b = None.
Proof.
  intros H Hs Hi. cbv zeta.
  unfold Build.RigidTendonHillMuscleThelen_build in H. cbn [Build.np_size] in H.
  apply BuildFacts.bind_Some in H. destruct H as [mf [Emf H]].
  apply BuildFacts.cast_reshape_Some in Emf. destruct Emf as [Emf Lmf].
  injection Emf as Emf. subst mf.
  apply BuildFacts.bind_Some in H. destruct H as [ce [Ece H]].
  apply BuildFacts.cast_reshape_Some in Ece. destruct Ece as [Ece Lce].
  injection Ece as Ece. subst ce.
  apply BuildFacts.bind_Some in H. destruct H as [pe [Epe H]].
  cbn [Build.broadcast_arg] in Epe.
  apply BuildFacts.bind_Some in H. destruct H as [se [Ese H]].
  apply BuildFacts.cast_reshape_Some in Ese. destruct Ese as [Ese _].
  injection Ese as Ese. subst se.
  apply BuildFacts.bind_Some in H. destruct H as [sl [Esl H]].
  injection H as H. subst b. cbn.
  assert (Hio : (i < length o)%nat) by lia.
  destruct (BuildViewFacts.broadcast_nth Rmult o s pe i Epe Hio) as [Lpe Npe];
    [lia |].
  unfold RigidTendonHillMuscleThelen.max_iso_force, RigidTendonHillMuscleThelen.l0_se,
    RigidTendonHillMuscleThelen.ce_0, RigidTendonHillMuscleThelen.ce_1,
    RigidTendonHillMuscleThelen.ce_2, RigidTendonHillMuscleThelen.ce_4,
    RigidTendonHillMuscleThelen.ce_1,
    RigidTendonHillMuscleThelen.vmax, RigidTendonHillMuscleThelen.l0_pe,
    RigidTendonHillMuscleThelen.l0_ce.
  cbn [max_isometric_force tendon_length optimal_muscle_length
       normalized_slack_muscle_length].
  assert (Hv : forall h : R -> R,
             nth i (map h (map (fun l : R => 10 * l) o)) 0 = h (10 * nth i o 0)).
  { intros h. rewrite BuildViewFacts.nth_map_in by (rewrite length_map; lia).
    rewrite BuildViewFacts.nth_map_in by lia. reflexivity. }
  split; [reflexivity |]. split; [reflexivity |]. split; [reflexivity |].
  split; [reflexivity |]. split; [exact Npe |].
  split; [apply BuildViewFacts.nth_map_in; lia |].
  repeat (split;
          [first [reflexivity
                 | eexists; split; [reflexivity |];
                   split; [rewrite !length_map; lia | apply Hv]] |]).
  reflexivity.
Qed.

Lemma thelen_build_attributes_witness :
  exists b,
    (Build.RigidTendonHillMuscleThelen_build 0.01 (Some [100; 200]) (Some [1; 2])
       (Some [3; 4]) (Some [1]) = Some b
     /\ (length [1] = length [1; 2] \/ length [1] = 1%nat)
     /\ (1 < length [1; 2])%nat)
    /\ nth 1 (Build.vmax b) 0
       = RigidTendonHillMuscleThelen.vmax
           (mkMuscleParams 0.001 0.015 0.05 0.01 200 2 4 1).
Proof.
  eexists. split; [split; [reflexivity | split; [right; reflexivity | simpl; lia]] |].
  apply (thelen_build_attributes 0.01 [100; 200] [1; 2] [3; 4] [1] _ 1
           0.001 0.015 0.05 eq_refl (or_intror eq_refl) ltac:(simpl; lia)).
Defined.

(** X24.  The velocity stored in the initial state of the compliant-tendon
    muscle is the one [update_ode] derives from that state: [update_ode]
    does not raise on it, its velocity entry times [vmax] is the stored
    velocity, and its first entry is the activation derivative at
    [min_activation]. *)
Theorem initial_state_consistent_with_update_ode (p : MuscleParams)
    (batch_size : nat) (g s : list R) (e : R) :
  CompliantTendonHillMuscle._get_initial_muscle_state p batch_size g = Some s ->
  exists v,
    CompliantTendonHillMuscle.update_ode p e s
    = Some [Muscle._activation_ode p e (min_activation p); v]
    /\ TF.slice_states s 2 = v * Hill.vmax p.
Proof.
  unfold CompliantTendonHillMuscle._get_initial_muscle_state.
  destruct (TF.assert_non_negative _) as [[] |]; [| discriminate].
  destruct (CompliantTendonHillMuscle.muscle_ode _ _ _) as [v |] eqn:Ev;
    [| discriminate].
  intros H. injection H as H. subst s. exists v.
  unfold CompliantTendonHillMuscle.update_ode.
  unfold TF.slice_states in *. cbn [nth app] in *.
  rewrite Ev. split; [| reflexivity].
  replace (1 * min_activation p) with (min_activation p) by ring. reflexivity.
Qed.

(** A sample initial state, with the tendon at its slack length. *)
Lemma sample_initial_state_defined :
  exists s,
    CompliantTendonHillMuscle._get_initial_muscle_state (default_params 0.01 1.4)
      1 [1.5; 0] = Some s.
Proof.
  assert (El : CompliantTendonHillMuscle.initial_muscle_len (default_params 0.01 1.4)
                 (TF.slice_states [1.5; 0] 0) = 1.5 - 1).
  { rewrite InitialStateFacts.initial_muscle_len_regime.
    unfold RegimeSpec.regime_of, TF.slice_states, Hill.l0_pe, Hill.l0_ce; simpl.
    repeat (destruct (Rlt_dec _ _); try lra). }
  apply InitialStateFacts.initial_state_total; cbv zeta; rewrite El.
  - lra.
  - assert (Ef : CompliantTendonHillMuscle.initial_forces (default_params 0.01 1.4)
                   (TF.slice_states [1.5; 0] 0) (1.5 - 1) = [0; 0; 0; 0]).
    { apply EquilibriumFacts.forces_slack;
        unfold Hill.l0_se, Hill.l0_pe, Hill.l0_ce, TF.slice_states; simpl; lra. }
    rewrite Ef. unfold TF.slice_states at 1; cbn [nth].
    pose proof (CurveFacts.f_iso_n_bounds
                  ((1.5 - 1) / Hill.l0_ce (default_params 0.01 1.4))) as Hf.
    destruct (SolverFacts.velocity_negative
                ((1.5 - 1) / Hill.l0_ce (default_params 0.01 1.4))
                (1 * min_activation (default_params 0.01 1.4)) 0) as [v [Hv _]].
    + simpl; lra.
    + lra.
    + unfold CompliantTendonHillMuscle.f_x_a. simpl min_activation. nra.
    + unfold CompliantTendonHillMuscle.muscle_ode. rewrite Hv. discriminate.
Qed.

Lemma initial_state_consistent_with_update_ode_witness :
  exists s,
    CompliantTendonHillMuscle._get_initial_muscle_state (default_params 0.01 1.4)
      1 [1.5; 0] = Some s
    /\ exists v,
         CompliantTendonHillMuscle.update_ode (default_params 0.01 1.4) 1 s
         = Some [Muscle._activation_ode (default_params 0.01 1.4) 1
                   (min_activation (default_params 0.01 1.4)); v]
         /\ TF.slice_states s 2 = v * Hill.vmax (default_params 0.01 1.4).
Proof.
  destruct sample_initial_state_defined as [s Hs].
  exists s. split; [exact Hs |].
  apply (initial_state_consistent_with_update_ode (default_params 0.01 1.4) 1
           [1.5; 0] s 1 Hs).
Defined.
